(** * Forgetting-mechanism experiment harness: orchestration and reporting

    A shallow embedding of [main.py]: the dispatch loop [run_experiments],
    the reporter [generate_report] and the entry point [main], together with
    the parts of the Python runtime they touch (insertion-ordered dicts,
    [time.time], [logging], [print], [os.makedirs], [open]/[write],
    [json.dump]).  Exceptions and side effects are threaded through a
    state-and-exception monad over an explicit [World].  The parser that
    [parse_args] builds is embedded apart, as a function of the command
    line.

    Conventions of the model:
    - a [float] is an exact count of microseconds, so that differences of
      clock readings are exact and [repr] and [format] are decimal
      arithmetic; rounding in binary is not represented;
    - a [str] is a [string] whose characters stand for the code points
      below 256;
    - the file system is a finite map from resolved paths to directories
      and files, without symbolic links, [..] or permissions; a device
      with bounded room makes writes fail;
    - the log is a list of records kept apart from the file system;
    - the module [experiment_runner], which the sources import but do not
      contain, is a parameter. *)

From Stdlib Require Import ZArith Ascii String List Lia Bool.
From stdpp Require Import gmap strings list fin_maps.
Import ListNotations.

Local Open Scope Z_scope.

(** ** Python values *)

(** The Python objects that occur in the harness: [bool], [int], [float],
    [str] and [dict] with [str] keys.  A [dict] keeps its items in insertion
    order, so it is an association list.  A [float] is a time reading or a
    difference of two of them, in microseconds. *)
#[warnings="-register-all"]
Inductive pyval : Type :=
| PyBool (b : bool)
| PyInt (z : Z)
| PyFloat (us : Z)
| PyStr (s : string)
| PyDict (items : list (string * pyval)).

Abbreviation pydict := (list (string * pyval)).

(** [d[k] = v]: an existing key keeps its position and takes the new value,
    a new key goes last. *)
Fixpoint dict_set {V : Type} (k : string) (v : V) (d : list (string * V))
  : list (string * V) :=
  match d with
  | [] => [(k, v)]
  | (k', v') :: d' =>
      if String.eqb k k' then (k', v) :: d' else (k', v') :: dict_set k v d'
  end.

Fixpoint dict_get {V : Type} (k : string) (d : list (string * V)) : option V :=
  match d with
  | [] => None
  | (k', v') :: d' => if String.eqb k k' then Some v' else dict_get k d'
  end.

Definition dict_keys {V : Type} (d : list (string * V)) : list string :=
  map fst d.

(** [dict(pairs)], started from the dict [d]: a repeated key keeps its
    first place and takes its last value. *)
Definition dict_update {V : Type} (d pairs : list (string * V))
  : list (string * V) :=
  fold_left (fun d kv => dict_set (fst kv) (snd kv) d) pairs d.

(** ** Exceptions *)

Inductive PyError : Type :=
| UnknownExperimentError (experiment : string)
| ExperimentExecutionError (msg : string)
| FileNotFoundError (name : string)
| FileExistsError (name : string)
| NotADirectoryError (name : string)
| IsADirectoryError (name : string)
| NoSpaceError (name : string)
| KeyError (key : string)
| TypeError (msg : string)
| ValueError (msg : string).

(** [IOError] is an alias of [OSError]; these are its subclasses here. *)
Definition is_IOError (e : PyError) : bool :=
  match e with
  | FileNotFoundError _ | FileExistsError _ | NotADirectoryError _
  | IsADirectoryError _ | NoSpaceError _ => true
  | _ => false
  end.

Inductive Result (A : Type) : Type :=
| Ok (a : A)
| Raise (e : PyError).
Arguments Ok {A} a.
Arguments Raise {A} e.

(** ** The configuration and the command line *)

(** Modelled from the spec: [ForgettingConfig] is imported from
    [experiment_runner], which is not part of the sources; section 3 of the
    specification describes it as an immutable value object with these six
    fields, and [main] builds it from the six keyword arguments of the same
    names. *)
Record ForgettingConfig : Type := {
  data_path : string;
  output_dir : string;
  num_users : Z;
  temporal_split : bool;
  test_days : Z;
  seed : Z
}.

(** The namespace returned by [parse_args]. *)
Record Args : Type := {
  args_data_path : string;
  args_output_dir : string;
  args_experiments : list string;
  args_num_users : Z;
  args_temporal_split : bool;
  args_test_days : Z;
  args_seed : Z
}.

(** The defaults declared in [parse_args]. *)
Definition default_args : Args := {|
  args_data_path := "./ml-100k";
  args_output_dir := "./results";
  args_experiments :=
    ["baseline_comparison"; "temporal_evaluation"; "parameter_sensitivity";
     "privacy_impact"; "scalability_test"; "user_segmentation"]%string;
  args_num_users := 50;
  args_temporal_split := false;
  args_test_days := 30;
  args_seed := 42
|}.

(** ** The file system *)

Inductive node : Type :=
| Dir
| File (content : string).

(** A resolved path: its components, innermost first.  The empty list is
    the current directory, the list of ["/"] alone the root. *)
Abbreviation path := (list string).

(** ** The world *)

(** What a run can observe and change.  The clock is an oracle: the
    [n]-th call of [time.time] returns [w_clock n]. *)
Record World : Type := {
  w_clock : nat -> Z;          (* successive readings of [time.time()] *)
  w_ticks : nat;               (* how many readings were taken *)
  w_log : list string;         (* records passed to [logger.info] *)
  w_stdout : list string;      (* arguments of [print], one per call *)
  w_fs : gmap path node;       (* directories and files below the roots *)
  w_disk_free : nat;           (* characters the device still accepts *)
  w_calls : list (ForgettingConfig * string)
                               (* invocations of the runner, oldest first *)
}.

Definition M (A : Type) : Type := World -> Result A * World.

Definition ret {A : Type} (a : A) : M A := fun w => (Ok a, w).

Definition raise {A : Type} (e : PyError) : M A := fun w => (Raise e, w).

Definition bind {A B : Type} (m : M A) (f : A -> M B) : M B :=
  fun w =>
    match m w with
    | (Ok a, w') => f a w'
    | (Raise e, w') => (Raise e, w')
    end.

Declare Scope py_scope.
Delimit Scope py_scope with py.
Notation "x <- m ;; k" := (bind m (fun x => k))
  (at level 100, m at next level, right associativity) : py_scope.
Notation "m ;;; k" := (bind m (fun _ => k))
  (at level 100, right associativity) : py_scope.
Local Open Scope py_scope.

(** The elementary changes of the world. *)
Definition tick (w : World) : World :=
  {| w_clock := w_clock w; w_ticks := S (w_ticks w); w_log := w_log w;
     w_stdout := w_stdout w; w_fs := w_fs w;
     w_disk_free := w_disk_free w; w_calls := w_calls w |}.

Definition log_to (msg : string) (w : World) : World :=
  {| w_clock := w_clock w; w_ticks := w_ticks w; w_log := w_log w ++ [msg];
     w_stdout := w_stdout w; w_fs := w_fs w;
     w_disk_free := w_disk_free w; w_calls := w_calls w |}.

Definition say (s : string) (w : World) : World :=
  {| w_clock := w_clock w; w_ticks := w_ticks w; w_log := w_log w;
     w_stdout := w_stdout w ++ [s]; w_fs := w_fs w;
     w_disk_free := w_disk_free w; w_calls := w_calls w |}.

(** [print] called on each of [lines] in turn. *)
Definition say_all (lines : list string) (w : World) : World :=
  fold_left (fun w line => say line w) lines w.

Definition set_fs (fs : gmap path node) (free : nat) (w : World) : World :=
  {| w_clock := w_clock w; w_ticks := w_ticks w; w_log := w_log w;
     w_stdout := w_stdout w; w_fs := fs;
     w_disk_free := free; w_calls := w_calls w |}.

Definition record_call (c : ForgettingConfig * string) (w : World) : World :=
  {| w_clock := w_clock w; w_ticks := w_ticks w; w_log := w_log w;
     w_stdout := w_stdout w; w_fs := w_fs w;
     w_disk_free := w_disk_free w; w_calls := w_calls w ++ [c] |}.

(** [time.time()]: the next reading of the clock. *)
Definition time_time : M Z :=
  fun w => (Ok (w_clock w (w_ticks w)), tick w).

(** [logger.info(msg)] *)
Definition logger_info (msg : string) : M unit :=
  fun w => (Ok tt, log_to msg w).

(** [print(s)]: the argument is recorded, the line end it is followed by
    is not. *)
Definition print (s : string) : M unit :=
  fun w => (Ok tt, say s w).

(** [try: m except E: pass], for the exceptions [E] selected by [handles]. *)
Definition try_pass (handles : PyError -> bool) (m : M unit) : M unit :=
  fun w =>
    match m w with
    | (Raise e, w') => if handles e then (Ok tt, w') else (Raise e, w')
    | r => r
    end.

(** [for x in xs: body x] *)
Fixpoint for_each {A : Type} (xs : list A) (body : A -> M unit) : M unit :=
  match xs with
  | [] => ret tt
  | x :: xs' => body x ;;; for_each xs' body
  end.

(** ** Text *)

Definition dquote : ascii := ascii_of_N 34.
Definition backslash : ascii := ascii_of_N 92.
Definition newline : ascii := ascii_of_N 10.

Definition str1 (c : ascii) : string := String c EmptyString.

Fixpoint repeat_str (s : string) (n : nat) : string :=
  match n with
  | O => ""
  | S n' => s +:+ repeat_str s n'
  end.

Definition digit_char (n : N) : ascii := ascii_of_N (48 + n).

Definition is_digit (c : ascii) : bool :=
  ((48 <=? N_of_ascii c) && (N_of_ascii c <=? 57))%N.

Definition digit_val (c : ascii) : N := (N_of_ascii c - 48)%N.

(** The [k] low decimal digits of [n], most significant first. *)
Fixpoint fixed_digits (k : nat) (n : N) : string :=
  match k with
  | O => ""
  | S k' => fixed_digits k' (n / 10)%N +:+ str1 (digit_char (n mod 10)%N)
  end.

Fixpoint lstrip_zeros (s : string) : string :=
  match s with
  | String c (String _ _ as s') =>
      if Ascii.eqb c "0" then lstrip_zeros s' else s
  | _ => s
  end.

Fixpoint rstrip_zeros (s : string) : string :=
  match s with
  | EmptyString => ""
  | String c s' =>
      match rstrip_zeros s' with
      | EmptyString => if Ascii.eqb c "0" then "" else str1 c
      | r => String c r
      end
  end.

(** Decimal digits of a natural number, without leading zeros. *)
Definition string_of_N (n : N) : string :=
  lstrip_zeros (fixed_digits (S (N.to_nat (N.log2 n))) n).

(** [repr] of an [int]. *)
Definition int_repr (z : Z) : string :=
  (if z <? 0 then "-" else "") +:+ string_of_N (Z.abs_N z).

(** The fractional digits of a float with [f] microseconds after the point:
    six digits with the trailing zeros dropped, at least one digit. *)
Definition frac_digits (f : N) : string :=
  match rstrip_zeros (fixed_digits 6 f) with
  | EmptyString => "0"
  | r => r
  end.

(** [repr] of a float below [1e-4]: exponent notation. *)
Definition sci_small (m : N) : string :=
  if (m <? 10)%N then str1 (digit_char m) +:+ "e-06"
  else if (m mod 10 =? 0)%N then str1 (digit_char (m / 10)) +:+ "e-05"
  else str1 (digit_char (m / 10)) +:+ "." +:+ str1 (digit_char (m mod 10))
       +:+ "e-05".

(** [repr] of a float from [1e16] on: exponent notation, with the digits
    up to the last one that is not zero. *)
Definition sci_large (m : N) : string :=
  let ds := string_of_N m in
  match rstrip_zeros ds with
  | String d rest =>
      str1 d +:+ (match rest with EmptyString => "" | _ => "." +:+ rest end)
      +:+ "e+" +:+ string_of_N (N.of_nat (String.length ds) - 7)
  | EmptyString => ds
  end.

(** [repr] of a [float] given in microseconds: the shortest decimal that
    denotes it, positional between [1e-4] and [1e16] and with an exponent
    outside. *)
Definition float_repr (us : Z) : string :=
  let m := Z.abs_N us in
  (if us <? 0 then "-" else "") +:+
  (if ((0 <? m) && (m <? 100))%N then sci_small m
   else if (10 ^ 22 <=? m)%N then sci_large m
   else string_of_N (m / 1000000) +:+ "." +:+ frac_digits (m mod 1000000)).

(** Nearest integer to [n / d], ties to the even one. *)
Definition round_half_even (n d : N) : N :=
  let q := (n / d)%N in
  let r := (n mod d)%N in
  if (2 * r <? d)%N then q
  else if (d <? 2 * r)%N then (q + 1)%N
  else if N.even q then q else (q + 1)%N.

(** [format(x, '.2f')] for a float [x] given in microseconds. *)
Definition format_2f_us (us : Z) : string :=
  let c := round_half_even (Z.abs_N us) 10000 in
  (if us <? 0 then "-" else "") +:+
  string_of_N (c / 100) +:+ "." +:+ fixed_digits 2 (c mod 100).

(** [format(v, '.2f')] for any object: numbers are formatted, the other
    types refuse the format code. *)
Definition format_2f (v : pyval) : M string :=
  match v with
  | PyFloat us => ret (format_2f_us us)
  | PyInt z => ret (format_2f_us (z * 1000000))
  | PyBool b => ret (format_2f_us (if b then 1000000 else 0))
  | PyStr _ => raise (ValueError "Unknown format code 'f' for object of type 'str'")
  | PyDict _ => raise (TypeError "unsupported format string passed to dict.__format__")
  end.

(** Truth value of an object, as [if v] tests it. *)
Definition truthy (v : pyval) : bool :=
  match v with
  | PyBool b => b
  | PyInt z => negb (z =? 0)
  | PyFloat us => negb (us =? 0)
  | PyStr s => negb (String.eqb s "")
  | PyDict items => match items with [] => false | _ => true end
  end.

(** [v[key]] *)
Definition subscript (v : pyval) (key : string) : M pyval :=
  match v with
  | PyDict items =>
      match dict_get key items with
      | Some x => ret x
      | None => raise (KeyError key)
      end
  | PyStr _ => raise (TypeError "string indices must be integers")
  | _ => raise (TypeError "object is not subscriptable")
  end.

(** ** [json.dump] *)

Definition hex_char (n : N) : ascii :=
  if (n <? 10)%N then ascii_of_N (48 + n) else ascii_of_N (87 + n).

(** One character inside a JSON string with [ensure_ascii]: the characters
    from space to tilde stand for themselves except the quote and the
    backslash; the others are escaped. *)
Definition escape_char (c : ascii) : string :=
  let n := N_of_ascii c in
  if (n =? 34)%N then String backslash (str1 dquote)
  else if (n =? 92)%N then String backslash (str1 backslash)
  else if (n =? 10)%N then String backslash "n"
  else if (n =? 13)%N then String backslash "r"
  else if (n =? 9)%N then String backslash "t"
  else if (n =? 8)%N then String backslash "b"
  else if (n =? 12)%N then String backslash "f"
  else if ((32 <=? n) && (n <=? 126))%N then str1 c
  else String backslash ("u00" +:+ str1 (hex_char (n / 16)) +:+ str1 (hex_char (n mod 16))).

Fixpoint escape_string (s : string) : string :=
  match s with
  | EmptyString => ""
  | String c s' => escape_char c +:+ escape_string s'
  end.

Definition encode_basestring_ascii (s : string) : string :=
  String dquote (escape_string s +:+ str1 dquote).

Section EncodeItems.

(** The loop over the items of a dict in [_iterencode_dict]:
    [encode_value] yields the chunks of a value one level down. *)
Variable encode_value : pyval -> list string.
Variable item_separator : string.

Fixpoint encode_items (first : bool) (items : pydict) : list string :=
  match items with
  | [] => []
  | (key, value) :: rest =>
      (if first then [] else [item_separator])
      ++ [encode_basestring_ascii key; ": "]
      ++ encode_value value
      ++ encode_items false rest
  end.

End EncodeItems.

(** The chunks [JSONEncoder(indent=indent).iterencode(o)] yields, for an
    object met at nesting depth [level]. *)
Fixpoint iterencode (indent : nat) (level : nat) (o : pyval) : list string :=
  match o with
  | PyStr s => [encode_basestring_ascii s]
  | PyBool true => ["true"]
  | PyBool false => ["false"]
  | PyInt z => [int_repr z]
  | PyFloat us => [float_repr us]
  | PyDict [] => ["{}"]
  | PyDict items =>
      let newline_indent := String newline (repeat_str " " (indent * S level)) in
      let item_separator := "," +:+ newline_indent in
      ["{"; newline_indent]
      ++ encode_items (iterencode indent (S level)) item_separator true items
      ++ [String newline (repeat_str " " (indent * level)); "}"]
  end.

(** [''.join(chunks)] *)
Definition str_join (chunks : list string) : string :=
  fold_right String.append "" chunks.

(** [json.dumps(o, indent=indent)] *)
Definition json_dumps (indent : nat) (o : pyval) : string :=
  str_join (iterencode indent 0 o).

(** ** [os.path] and the file system *)

Fixpoint ends_with_slash (s : string) : bool :=
  match s with
  | EmptyString => false
  | String c EmptyString => Ascii.eqb c "/"
  | String _ s' => ends_with_slash s'
  end.

(** [os.path.join(a, b)] *)
Definition os_path_join (a b : string) : string :=
  match b with
  | String c _ =>
      if Ascii.eqb c "/" then b
      else if String.eqb a "" || ends_with_slash a then a +:+ b
      else a +:+ "/" +:+ b
  | EmptyString =>
      if String.eqb a "" || ends_with_slash a then a else a +:+ "/"
  end.

(** The pieces of [s] between slashes, outermost first; [cur] holds the
    piece being read, reversed. *)
Fixpoint split_slash (cur : string) (s : string) : list string :=
  match s with
  | EmptyString => [String.rev cur]
  | String c s' =>
      if Ascii.eqb c "/" then String.rev cur :: split_slash "" s'
      else split_slash (String c cur) s'
  end.

Definition is_name (piece : string) : bool :=
  negb (String.eqb piece "") && negb (String.eqb piece ".").

(** The directory entry a path string denotes: empty pieces and [.] are
    dropped, an absolute path hangs below the root entry ["/"].  Symbolic
    links and [..] are not interpreted. *)
Definition resolve (name : string) : path :=
  let names := filter (fun piece => is_name piece = true) (split_slash "" name) in
  match name with
  | String c _ => if Ascii.eqb c "/" then rev ("/" :: names) else rev names
  | EmptyString => []
  end.

(** The current directory and the root always exist. *)
Definition fs_lookup (fs : gmap path node) (p : path) : option node :=
  match p with
  | [] => Some Dir
  | [r] => if String.eqb r "/" then Some Dir else fs !! p
  | _ => fs !! p
  end.

(** [os.path.exists] and [os.path.isdir] on a resolved path. *)
Definition path_exists (p : path) : M bool :=
  fun w => (Ok (match fs_lookup (w_fs w) p with Some _ => true | None => false end), w).

Definition path_isdir (p : path) : M bool :=
  fun w => (Ok (match fs_lookup (w_fs w) p with Some Dir => true | _ => false end), w).

(** [os.mkdir] of the entry [p], which [name] resolves to. *)
Definition os_mkdir (name : string) (p : path) : M unit :=
  fun w =>
    match fs_lookup (w_fs w) p with
    | Some _ => (Raise (FileExistsError name), w)
    | None =>
        match fs_lookup (w_fs w) (tail p) with
        | Some Dir => (Ok tt, set_fs (<[p := Dir]> (w_fs w)) (w_disk_free w) w)
        | Some (File _) => (Raise (NotADirectoryError name), w)
        | None => (Raise (FileNotFoundError name), w)
        end
    end.

Definition is_FileExistsError (e : PyError) : bool :=
  match e with FileExistsError _ => true | _ => false end.

(** [try: mkdir(name) except OSError: if not exist_ok or not
    path.isdir(name): raise] *)
Definition mkdir_exist_ok (name : string) (p : path) (exist_ok : bool) : M unit :=
  fun w =>
    match os_mkdir name p w with
    | (Raise e, w') =>
        if negb exist_ok then (Raise e, w')
        else match path_isdir p w' with
             | (Ok true, w'') => (Ok tt, w'')
             | (_, w'') => (Raise e, w'')
             end
    | r => r
    end.

(** The body of [os.makedirs] on a resolved path: the missing ancestors are
    made first, outermost first, then the directory itself; a failing
    [mkdir] is forgiven when [exist_ok] is set and the directory is there. *)
Fixpoint makedirs_path (name : string) (p : path) (exist_ok : bool) : M unit :=
  (match p with
   | _ :: (_ :: _) as head =>
       head_exists <- path_exists head ;;
       if head_exists then ret tt
       else try_pass is_FileExistsError (makedirs_path name head exist_ok)
   | _ => ret tt
   end) ;;;
  mkdir_exist_ok name p exist_ok.

(** [os.makedirs(name, exist_ok=exist_ok)]; the empty name denotes nothing. *)
Definition os_makedirs (name : string) (exist_ok : bool) : M unit :=
  if String.eqb name "" then raise (FileNotFoundError name)
  else makedirs_path name (resolve name) exist_ok.

(** A file object opened for writing: the name it was opened under and the
    entry it resolves to. *)
Record file : Type := { f_name : string; f_path : path }.

(** [open(name, 'w')]: the file is created, or emptied when it exists. *)
Definition open_w (name : string) : M file :=
  fun w =>
    let p := resolve name in
    let f := {| f_name := name; f_path := p |} in
    if String.eqb name "" then (Raise (FileNotFoundError name), w) else
    match fs_lookup (w_fs w) p with
    | Some Dir => (Raise (IsADirectoryError name), w)
    | Some (File _) => (Ok f, set_fs (<[p := File ""]> (w_fs w)) (w_disk_free w) w)
    | None =>
        match fs_lookup (w_fs w) (tail p) with
        | Some Dir => (Ok f, set_fs (<[p := File ""]> (w_fs w)) (w_disk_free w) w)
        | Some (File _) => (Raise (NotADirectoryError name), w)
        | None => (Raise (FileNotFoundError name), w)
        end
    end.

Fixpoint take_str (n : nat) (s : string) : string :=
  match n, s with
  | S n', String c s' => String c (take_str n' s')
  | _, _ => ""
  end.

(** [f.write(chunk)]: the device takes as much of [chunk] as it has room
    for; when that is not all of it the write fails. *)
Definition file_write (f : file) (chunk : string) : M unit :=
  fun w =>
    match w_fs w !! f_path f with
    | Some (File content) =>
        if (String.length chunk <=? w_disk_free w)%nat then
          (Ok tt, set_fs (<[f_path f := File (content +:+ chunk)]> (w_fs w))
                         (w_disk_free w - String.length chunk) w)
        else
          (Raise (NoSpaceError (f_name f)),
           set_fs (<[f_path f := File (content +:+ take_str (w_disk_free w) chunk)]>
                     (w_fs w))
                  0 w)
    | _ => (Raise (ValueError "I/O operation on closed file"), w)
    end.

(** [json.dump(o, f, indent=indent)]: one [write] per chunk. *)
Definition json_dump (o : pyval) (f : file) (indent : nat) : M unit :=
  for_each (iterencode indent 0 o) (fun chunk => file_write f chunk).

(** ** The experiment runner *)

(** The module [experiment_runner] is not part of the sources.  The harness
    takes from it the class [ForgettingExperimentRunner], of which it builds
    one object from the configuration and calls [run_experiment] on it (the
    runner keeps what state it likes between calls, and returns a payload or
    raises), and the instance dict of a configuration, which it logs. *)
Record experiment_runner : Type := {
  payload : Type;
  runner_state : Type;
  runner_init : ForgettingConfig -> runner_state;
  runner_step : ForgettingConfig -> runner_state -> string ->
                Result payload * runner_state;
  config_vars : ForgettingConfig -> string
}.

Section Harness.

Variable R : experiment_runner.

(** A runner object: the configuration it was built from and its state. *)
Record Runner : Type := {
  r_config : ForgettingConfig;
  r_state : runner_state R
}.

(** [ForgettingExperimentRunner(config)] *)
Definition ForgettingExperimentRunner (config : ForgettingConfig) : Runner :=
  {| r_config := config; r_state := runner_init R config |}.

(** [runner.run_experiment(experiment)]: the call is recorded with the
    configuration the runner holds, then the experiment runs; the runner's
    new state is returned next to the payload. *)
Definition run_experiment (runner : Runner) (experiment : string)
  : M (payload R * Runner) :=
  fun w =>
    let w' := record_call (r_config runner, experiment) w in
    match runner_step R (r_config runner) (r_state runner) experiment with
    | (Ok p, st) => (Ok (p, {| r_config := r_config runner; r_state := st |}), w')
    | (Raise e, _) => (Raise e, w')
    end.

(** ** [run_experiments] *)

(** The [for experiment in experiments] loop, from the state in which the
    runner is [runner] and the dict is [results]. *)
Fixpoint run_loop (runner : Runner) (experiments : list string)
    (results : pydict) : M pydict :=
  match experiments with
  | [] => ret results
  | experiment :: rest =>
      logger_info ("Starting experiment: " +:+ experiment) ;;;
      start_time <- time_time ;;
      r <- run_experiment runner experiment ;;
      let '(experiment_results, runner) := r in
      end_time <- time_time ;;
      let duration := end_time - start_time in
      logger_info ("Completed experiment: " +:+ experiment +:+ " in "
                   +:+ format_2f_us duration +:+ " seconds") ;;;
      run_loop runner rest
        (dict_set experiment
           (PyDict [("completed", PyBool true); ("duration", PyFloat duration)])
           results)
  end.

Definition run_experiments (config : ForgettingConfig)
    (experiments : list string) : M pydict :=
  let runner := ForgettingExperimentRunner config in
  let results := [] in
  run_loop runner experiments results.

End Harness.

(** ** [generate_report] *)

(** [with open(name, 'w') as f: body f] *)
Definition with_open_w {A : Type} (name : string) (body : file -> M A) : M A :=
  f <- open_w name ;; body f.

Definition report_of (config : ForgettingConfig) (experiment_results : pydict)
  : pyval :=
  PyDict
    [("configuration",
      PyDict
        [("data_path", PyStr (data_path config));
         ("output_dir", PyStr (output_dir config));
         ("num_users", PyInt (num_users config));
         ("temporal_split", PyBool (temporal_split config));
         ("test_days", PyInt (test_days config));
         ("seed", PyInt (seed config))]);
     ("experiments", PyDict experiment_results)].

Definition summary_line (experiment : string) (results : pyval) : M string :=
  completed <- subscript results "completed" ;;
  duration <- subscript results "duration" ;;
  text <- format_2f duration ;;
  ret ("- " +:+ experiment +:+ ": "
       +:+ (if truthy completed then "Completed" else "Failed")
       +:+ " in " +:+ text +:+ " seconds").

Definition generate_report (config : ForgettingConfig)
    (experiment_results : pydict) : M unit :=
  let report := report_of config experiment_results in
  let report_path := os_path_join (output_dir config) "experiment_report.json" in
  with_open_w report_path (fun f => json_dump report f 4) ;;;
  logger_info ("Report generated and saved to " +:+ report_path) ;;;
  print (String newline "===== Experiment Summary =====") ;;;
  for_each experiment_results
    (fun '(experiment, results) =>
       line <- summary_line experiment results ;; print line) ;;;
  print ("==============================" +:+ str1 newline).

(** ** [main] *)

Section Main.

Variable R : experiment_runner.

(** [setup_logger()]: it configures the handlers of the [logging] module
    and returns the logger; the records go to the log of the world. *)
Definition setup_logger : M unit := ret tt.

(** [main], from the namespace [parse_args] returned. *)
Definition main (args : Args) : M unit :=
  setup_logger ;;;
  logger_info "Starting Forgetting Mechanism for Recommendation Systems" ;;;
  os_makedirs (args_output_dir args) true ;;;
  let config :=
    {| data_path := args_data_path args;
       output_dir := args_output_dir args;
       num_users := args_num_users args;
       temporal_split := args_temporal_split args;
       test_days := args_test_days args;
       seed := args_seed args |} in
  logger_info ("Configuration: " +:+ config_vars R config) ;;;
  experiment_results <- run_experiments R config (args_experiments args) ;;
  generate_report config experiment_results ;;;
  logger_info "All experiments completed successfully".

End Main.

(** ** [json.load] *)

(** What reading a report back does.  The decoder covers the documents whose
    values are objects, strings, booleans and numbers; [null] and arrays
    have no counterpart in [pyval], and neither has a float that is not a
    whole number of microseconds. *)

Definition is_ws (c : ascii) : bool :=
  let n := N_of_ascii c in
  ((n =? 32) || (n =? 9) || (n =? 10) || (n =? 13))%N.

Fixpoint skip_ws (s : string) : string :=
  match s with
  | String c s' => if is_ws c then skip_ws s' else s
  | EmptyString => ""
  end.

Definition hex_val (c : ascii) : option N :=
  let n := N_of_ascii c in
  if ((48 <=? n) && (n <=? 57))%N then Some (n - 48)%N
  else if ((97 <=? n) && (n <=? 102))%N then Some (n - 87)%N
  else if ((65 <=? n) && (n <=? 70))%N then Some (n - 55)%N
  else None.

(** The character a backslash followed by [c] stands for. *)
Definition unescape (c : ascii) : option ascii :=
  let n := N_of_ascii c in
  if (n =? 34)%N then Some dquote
  else if (n =? 92)%N then Some backslash
  else if (n =? 47)%N then Some "/"%char
  else if (n =? 110)%N then Some newline
  else if (n =? 114)%N then Some (ascii_of_N 13)
  else if (n =? 116)%N then Some (ascii_of_N 9)
  else if (n =? 98)%N then Some (ascii_of_N 8)
  else if (n =? 102)%N then Some (ascii_of_N 12)
  else None.

Definition cons_fst (c : ascii) (r : option (string * string))
  : option (string * string) :=
  match r with
  | Some (s, rest) => Some (String c s, rest)
  | None => None
  end.

(** The string whose opening quote was just read, and what follows its
    closing quote.  Code points from 256 on are not [ascii]. *)
Fixpoint scanstring (s : string) : option (string * string) :=
  match s with
  | EmptyString => None
  | String c s' =>
      if Ascii.eqb c dquote then Some ("", s')
      else if Ascii.eqb c backslash then
        match s' with
        | String e s'' =>
            if Ascii.eqb e "u" then
              match s'' with
              | String h1 (String h2 (String h3 (String h4 s3))) =>
                  match hex_val h1, hex_val h2, hex_val h3, hex_val h4 with
                  | Some a, Some b, Some c', Some d =>
                      let code := (((a * 16 + b) * 16 + c') * 16 + d)%N in
                      if (code <? 256)%N
                      then cons_fst (ascii_of_N code) (scanstring s3)
                      else None
                  | _, _, _, _ => None
                  end
              | _ => None
              end
            else
              match unescape e with
              | Some ch => cons_fst ch (scanstring s'')
              | None => None
              end
        | EmptyString => None
        end
      else if (N_of_ascii c <? 32)%N then None
      else cons_fst c (scanstring s')
  end.

Fixpoint span_digits (s : string) : string * string :=
  match s with
  | String c s' =>
      if is_digit c
      then let '(d, r) := span_digits s' in (String c d, r)
      else ("", s)
  | EmptyString => ("", "")
  end.

Fixpoint digits_acc (acc : N) (s : string) : N :=
  match s with
  | EmptyString => acc
  | String c s' => digits_acc (acc * 10 + digit_val c) s'
  end.

Definition leading_zero (s : string) : bool :=
  match s with
  | String c (String _ _) => Ascii.eqb c "0"
  | _ => false
  end.

(** The float [mant * 10^(expo - 6)] seconds, in microseconds. *)
Definition float_of_decimal (mant : N) (expo : Z) : option Z :=
  if 0 <=? expo then Some (Z.of_N mant * 10 ^ expo)
  else if Z.of_N mant mod 10 ^ (- expo) =? 0
       then Some (Z.of_N mant / 10 ^ (- expo))
       else None.

(** A leading minus sign. *)
Definition scan_sign (s : string) : bool * string :=
  match s with
  | String c r => if Ascii.eqb c "-" then (true, r) else (false, s)
  | EmptyString => (false, s)
  end.

(** The digits of a fraction, when a point comes next. *)
Definition scan_frac (s : string) : option string * string :=
  match s with
  | String c r =>
      if Ascii.eqb c "." then let '(f, r') := span_digits r in (Some f, r')
      else (None, s)
  | EmptyString => (None, s)
  end.

(** The sign and the digits of an exponent, when [e] or [E] comes next. *)
Definition scan_exp (s : string) : option (bool * string) * string :=
  match s with
  | String c r =>
      if Ascii.eqb c "e" || Ascii.eqb c "E" then
        let '(eneg, r1) :=
          match r with
          | String c' r' =>
              if Ascii.eqb c' "-" then (true, r')
              else if Ascii.eqb c' "+" then (false, r')
              else (false, r)
          | EmptyString => (false, r)
          end in
        let '(ed, r2) := span_digits r1 in
        (Some (eneg, ed), r2)
      else (None, s)
  | EmptyString => (None, s)
  end.

(** The number the pieces denote: an [int] when there is neither fraction
    nor exponent, a [float] otherwise. *)
Definition number_value (neg : bool) (ip : string) (fp : option string)
    (ex : option (bool * string)) : option pyval :=
  let sign := if neg then (-1) else 1 in
  match fp, ex with
  | None, None => Some (PyInt (sign * Z.of_N (digits_acc 0 ip)))
  | _, _ =>
      let f := match fp with Some f => f | None => "" end in
      let e := match ex with
               | Some (eneg, ed) =>
                   (if eneg then (-1) else 1) * Z.of_N (digits_acc 0 ed)
               | None => 0
               end in
      if match fp with Some f' => String.eqb f' "" | None => false end then None
      else if match ex with Some (_, ed) => String.eqb ed "" | None => false end
      then None
      else
        match float_of_decimal (digits_acc 0 (ip +:+ f))
                (e + 6 - Z.of_nat (String.length f)) with
        | Some us => Some (PyFloat (sign * us))
        | None => None
        end
  end.

(** A number: sign, integer digits without a leading zero, then optionally
    a fraction and an exponent. *)
Definition scan_number (s : string) : option (pyval * string) :=
  let '(neg, s1) := scan_sign s in
  let '(ip, s2) := span_digits s1 in
  if String.eqb ip "" || leading_zero ip then None else
  let '(fp, s3) := scan_frac s2 in
  let '(ex, s4) := scan_exp s3 in
  match number_value neg ip fp ex with
  | Some v => Some (v, s4)
  | None => None
  end.

(** [s] without its prefix [p], when it starts with [p]. *)
Fixpoint strip_prefix (p s : string) : option string :=
  match p, s with
  | EmptyString, _ => Some s
  | String a p', String b s' =>
      if Ascii.eqb a b then strip_prefix p' s' else None
  | String _ _, EmptyString => None
  end.

(** The value that starts at [s], and what follows it.  [scan_pairs] reads
    the members of an object from just after the opening quote of a key;
    [pairs] are the members read so far. *)
Fixpoint scan_value (fuel : nat) (s : string) : option (pyval * string) :=
  match fuel with
  | O => None
  | S fuel' =>
      match s with
      | EmptyString => None
      | String c s' =>
          if Ascii.eqb c dquote then
            match scanstring s' with
            | Some (str, rest) => Some (PyStr str, rest)
            | None => None
            end
          else if Ascii.eqb c "{" then
            match skip_ws s' with
            | String c1 s1 =>
                if Ascii.eqb c1 "}" then Some (PyDict [], s1)
                else if Ascii.eqb c1 dquote then scan_pairs fuel' [] s1
                else None
            | EmptyString => None
            end
          else if Ascii.eqb c "t" then
            match strip_prefix "true" s with
            | Some rest => Some (PyBool true, rest)
            | None => None
            end
          else if Ascii.eqb c "f" then
            match strip_prefix "false" s with
            | Some rest => Some (PyBool false, rest)
            | None => None
            end
          else scan_number s
      end
  end
with scan_pairs (fuel : nat) (pairs : pydict) (s : string)
  : option (pyval * string) :=
  match fuel with
  | O => None
  | S fuel' =>
      match scanstring s with
      | None => None
      | Some (key, s1) =>
          match skip_ws s1 with
          | String c2 s2 =>
              if negb (Ascii.eqb c2 ":") then None else
              match scan_value fuel' (skip_ws s2) with
              | None => None
              | Some (value, s3) =>
                  let pairs := dict_set key value pairs in
                  match skip_ws s3 with
                  | String c4 s4 =>
                      if Ascii.eqb c4 "}" then Some (PyDict pairs, s4)
                      else if Ascii.eqb c4 "," then
                        match skip_ws s4 with
                        | String c5 s5 =>
                            if Ascii.eqb c5 dquote
                            then scan_pairs fuel' pairs s5
                            else None
                        | EmptyString => None
                        end
                      else None
                  | EmptyString => None
                  end
              end
          | EmptyString => None
          end
      end
  end.

(** [json.loads(s)] *)
Definition json_loads (s : string) : option pyval :=
  match scan_value (S (String.length s)) (skip_ws s) with
  | Some (v, rest) =>
      match skip_ws rest with
      | EmptyString => Some v
      | _ => None
      end
  | None => None
  end.

(** * Vocabulary of the properties *)

(** ** Runs of the loop *)

(** The dict entry the loop stores for an experiment that took [duration]. *)
Definition outcome (duration : Z) : pyval :=
  PyDict [("completed", PyBool true); ("duration", PyFloat duration)].

(** The duration an outcome holds. *)
Definition outcome_duration (v : pyval) : Z :=
  match v with
  | PyDict [(_, _); (_, PyFloat d)] => d
  | _ => 0
  end.

(** The difference of the two clock readings taken around the [i]-th
    invocation of a loop that starts in [w]. *)
Definition timing (w : World) (i : nat) : Z :=
  w_clock w (w_ticks w + 2 * i + 1)%nat - w_clock w (w_ticks w + 2 * i)%nat.

Definition timings (w : World) (n : nat) : list Z :=
  map (timing w) (seq 0 n).

(** [results] after storing, in order, an outcome for each pair. *)
Definition record_all (pairs : list (string * Z)) (results : pydict) : pydict :=
  fold_left (fun d p => dict_set (fst p) (outcome (snd p)) d) pairs results.

(** The distinct elements of [l], each at the place of its first occurrence. *)
Fixpoint uniq_first (l : list string) : list string :=
  match l with
  | [] => []
  | x :: l' => x :: filter (fun y => y ≠ x) (uniq_first l')
  end.

(** What a step from [w] to [w'] did besides logging: it took [dt] clock
    readings and made the runner invocations [calls]; standard output and
    the file system are as they were. *)
Definition stepped (w w' : World) (dt : nat) (calls : list (ForgettingConfig * string))
  : Prop :=
  w_clock w' = w_clock w /\ w_ticks w' = (w_ticks w + dt)%nat /\
  w_calls w' = w_calls w ++ calls /\ w_stdout w' = w_stdout w /\
  w_fs w' = w_fs w /\ w_disk_free w' = w_disk_free w.

(** [m] leaves the part [proj] of the world as it was. *)
Definition preserves {A X : Type} (proj : World -> X) (m : M A) : Prop :=
  forall w, proj (snd (m w)) = proj w.

Section Behaviour.

Variable R : experiment_runner.

(** Position and exception of the first invocation that raises when the
    runner, in state [st], is given [experiments] one after the other. *)
Fixpoint first_raise (config : ForgettingConfig) (st : runner_state R)
    (experiments : list string) : option (nat * PyError) :=
  match experiments with
  | [] => None
  | e :: rest =>
      match runner_step R config st e with
      | (Ok _, st') =>
          match first_raise config st' rest with
          | Some (n, err) => Some (S n, err)
          | None => None
          end
      | (Raise err, _) => Some (O, err)
      end
  end.

(** What failure isolation entails for one run: the call returns a dict
    instead of raising, and every requested experiment was invoked. *)
Definition isolates_failures (config : ForgettingConfig)
    (experiments : list string) (w : World) : Prop :=
  exists results w',
    run_experiments R config experiments w = (Ok results, w')
    /\ map snd (w_calls w') = map snd (w_calls w) ++ experiments.

End Behaviour.

(** The configuration [main] builds from the command line. *)
Definition config_of_args (args : Args) : ForgettingConfig :=
  {| data_path := args_data_path args;
     output_dir := args_output_dir args;
     num_users := args_num_users args;
     temporal_split := args_temporal_split args;
     test_days := args_test_days args;
     seed := args_seed args |}.

(** ** The file system *)

(** The directory above [p] is there, when [p] has one below the roots. *)
Definition parent_exists (fs : gmap path node) (p : path) : Prop :=
  match p with
  | _ :: (_ :: _) as head => fs_lookup fs head ≠ None
  | _ => True
  end.

(** ** The report and the summary *)

(** The entry the report file has in the file system, and its text. *)
Definition report_entry (config : ForgettingConfig) : path :=
  resolve (os_path_join (output_dir config) "experiment_report.json").

Definition report_text (config : ForgettingConfig) (experiment_results : pydict)
  : string :=
  json_dumps 4 (report_of config experiment_results).

(** The part of [generate_report] that follows the [with] block: the log
    record and the console summary. *)
Definition report_summary (report_path : string) (experiment_results : pydict)
  : M unit :=
  logger_info ("Report generated and saved to " +:+ report_path) ;;;
  print (String newline "===== Experiment Summary =====") ;;;
  for_each experiment_results
    (fun '(experiment, results) =>
       line <- summary_line experiment results ;; print line) ;;;
  print ("==============================" +:+ str1 newline).

(** The configuration a report document states: its [configuration]
    section when that holds the six fields, no more and no fewer, with
    values of the right types. *)
Definition read_configuration (doc : pyval) : option ForgettingConfig :=
  match doc with
  | PyDict items =>
      match dict_get "configuration" items with
      | Some (PyDict [(k1, PyStr v1); (k2, PyStr v2); (k3, PyInt v3);
                      (k4, PyBool v4); (k5, PyInt v5); (k6, PyInt v6)]) =>
          if String.eqb k1 "data_path" && String.eqb k2 "output_dir"
             && String.eqb k3 "num_users" && String.eqb k4 "temporal_split"
             && String.eqb k5 "test_days" && String.eqb k6 "seed"
          then Some {| data_path := v1; output_dir := v2; num_users := v3;
                       temporal_split := v4; test_days := v5; seed := v6 |}
          else None
      | _ => None
      end
  | _ => None
  end.

(** The [experiments] section of a report document. *)
Definition read_experiments (doc : pyval) : option pydict :=
  match doc with
  | PyDict items =>
      match dict_get "experiments" items with
      | Some (PyDict section) => Some section
      | _ => None
      end
  | _ => None
  end.

(** The summary line of an experiment that completed in [duration]. *)
Definition completed_line (experiment : string) (duration : Z) : string :=
  "- " +:+ experiment +:+ ": " +:+ "Completed" +:+ " in "
  +:+ format_2f_us duration +:+ " seconds".

(** The lines of the summary for a dict of outcomes. *)
Definition summary_lines (experiment_results : pydict) : list string :=
  map (fun kv => completed_line (fst kv) (outcome_duration (snd kv)))
      experiment_results.

(** A text that ends in a point and two decimal digits. *)
Definition two_decimals (s : string) : Prop :=
  exists front a b,
    s = front +:+ "." +:+ String a (str1 b)
    /\ is_digit a = true /\ is_digit b = true.

(** ** JSON text *)

Fixpoint all_digits (s : string) : bool :=
  match s with
  | EmptyString => true
  | String c s' => is_digit c && all_digits s'
  end.

(** What may follow a number for the decoder to stop there. *)
Definition ends_number (rest : string) : bool :=
  match rest with
  | EmptyString => true
  | String c _ =>
      negb (is_digit c) && negb (Ascii.eqb c ".")
      && negb (Ascii.eqb c "e") && negb (Ascii.eqb c "E")
  end.

(** What follows a value in the text [iterencode] produces: nothing, a
    comma, or the line break before a closing brace. *)
Definition ends_value (rest : string) : bool :=
  match rest with
  | EmptyString => true
  | String c _ => Ascii.eqb c "," || Ascii.eqb c newline
  end.

(** Dicts have no repeated key, at any depth; a Python dict never has. *)
Fixpoint well_formed (v : pyval) : Prop :=
  match v with
  | PyDict items =>
      NoDup (map fst items)
      /\ fold_right (fun kv rest => well_formed (snd kv) /\ rest) True items
  | _ => True
  end.

(** A bound on the depth of recursion the decoder needs for [v]. *)
Fixpoint size (v : pyval) : nat :=
  match v with
  | PyDict items => S (fold_right (fun kv n => S (size (snd kv) + n)) O items)
  | _ => 1%nat
  end.

(** The text [iterencode] produces for a value, and for the members of a
    dict after the first one. *)
Definition value_text (indent level : nat) (v : pyval) : string :=
  str_join (iterencode indent level v).

Fixpoint members_text (indent level : nat) (items : pydict) : string :=
  match items with
  | [] => ""
  | (key, value) :: rest =>
      ("," +:+ String newline (repeat_str " " (indent * S level)))
      +:+ encode_basestring_ascii key +:+ ": "
      +:+ value_text indent (S level) value
      +:+ members_text indent level rest
  end.

(** The decoder, given enough fuel, reads [v] back from the text
    [iterencode] produces for it, whatever the nesting depth, and stops
    where the text of [v] stops. *)
Definition reads_back (indent : nat) (v : pyval) : Prop :=
  forall level fuel rest,
    (size v <= fuel)%nat -> ends_value rest = true ->
    scan_value fuel (value_text indent level v +:+ rest) = Some (v, rest).

(** ** Log records *)

(** The records the loop of [run_experiments] logs around an invocation. *)
Definition starting_record (experiment : string) : string :=
  "Starting experiment: " +:+ experiment.

Definition completed_record (experiment : string) (duration : Z) : string :=
  "Completed experiment: " +:+ experiment +:+ " in "
  +:+ format_2f_us duration +:+ " seconds".

(** The records of the passes that ran to their end, one pass for each
    experiment with the duration measured for it. *)
Definition loop_records (pairs : list (string * Z)) : list string :=
  flat_map (fun p => [starting_record (fst p); completed_record (fst p) (snd p)])
           pairs.

(** ** Outcome dicts of any origin *)

(** An entry as a caller of [generate_report] may pass it: the flag is of
    either value. *)
Definition outcome_of (completed : bool) (duration : Z) : pyval :=
  PyDict [("completed", PyBool completed); ("duration", PyFloat duration)].

(** The dict that holds an entry for each row, in order. *)
Definition outcome_rows (rows : list (string * bool * Z)) : pydict :=
  map (fun row => (fst (fst row), outcome_of (snd (fst row)) (snd row))) rows.

(** The summary line of a row. *)
Definition status_line (row : string * bool * Z) : string :=
  "- " +:+ fst (fst row) +:+ ": "
  +:+ (if snd (fst row) then "Completed" else "Failed")
  +:+ " in " +:+ format_2f_us (snd row) +:+ " seconds".

(** The world once the report is written in full. *)
Definition report_written (config : ForgettingConfig) (experiment_results : pydict)
    (w : World) : World :=
  set_fs (<[report_entry config := File (report_text config experiment_results)]> (w_fs w))
         (w_disk_free w - String.length (report_text config experiment_results)) w.

(** A text of line breaks and of the characters from space to tilde. *)
Fixpoint plain_ascii (s : string) : bool :=
  match s with
  | EmptyString => true
  | String c s' =>
      (Ascii.eqb c newline || ((32 <=? N_of_ascii c) && (N_of_ascii c <=? 126))%N)
      && plain_ascii s'
  end.

(** ** Runs of [main] *)

(** The records [main] logs itself. *)
Definition startup_record : string :=
  "Starting Forgetting Mechanism for Recommendation Systems".

Definition success_record : string := "All experiments completed successfully".

(** [m] adds to the log only records that satisfy [P]. *)
Definition logs (P : string -> Prop) {A : Type} (m : M A) : Prop :=
  forall w, exists records,
    w_log (snd (m w)) = w_log w ++ records /\ Forall P records.

(** [m] neither reads the log nor depends on it: run after a record was
    logged, it does the same and the record stays. *)
Definition log_blind {A : Type} (m : M A) : Prop :=
  forall msg w, m (log_to msg w) = (fst (m w), log_to msg (snd (m w))).

(** The file system [fs'] holds what [fs] holds, unchanged, and besides
    only directories on the way to [p]. *)
Definition grown_towards (p : path) (fs fs' : gmap path node) : Prop :=
  (forall q n, fs !! q = Some n -> fs' !! q = Some n)
  /\ (forall q n, fs !! q = None -> fs' !! q = Some n -> n = Dir /\ q `suffix_of` p).

(** * The command line: [parse_args] *)

(** The command line is the list [sys.argv[1:]].  [argparse] is followed
    as CPython 3.11 has it, for the parser that [parse_args] builds: eight
    options, no positional argument, abbreviations allowed.  The help and
    usage texts it prints before it exits are not represented, only the
    exit status. *)

(** An attribute of the namespace.  The converted string of an option is a
    [str] or an [int]; the flag is a [bool]; [experiments] is a list; and
    an option given as [--name=--] leaves an empty list whatever its type. *)
Inductive argval : Type :=
| ArgStr (s : string)
| ArgInt (z : Z)
| ArgBool (b : bool)
| ArgList (l : list string).

Inductive dest : Type :=
| dest_data_path | dest_output_dir | dest_experiments | dest_num_users
| dest_temporal_split | dest_test_days | dest_seed.

Record Namespace : Type := {
  ns_data_path : argval;
  ns_output_dir : argval;
  ns_experiments : argval;
  ns_num_users : argval;
  ns_temporal_split : argval;
  ns_test_days : argval;
  ns_seed : argval
}.

(** [setattr(namespace, dest, value)] *)
Definition setattr (ns : Namespace) (d : dest) (v : argval) : Namespace :=
  match d with
  | dest_data_path =>
      {| ns_data_path := v; ns_output_dir := ns_output_dir ns;
         ns_experiments := ns_experiments ns; ns_num_users := ns_num_users ns;
         ns_temporal_split := ns_temporal_split ns; ns_test_days := ns_test_days ns;
         ns_seed := ns_seed ns |}
  | dest_output_dir =>
      {| ns_data_path := ns_data_path ns; ns_output_dir := v;
         ns_experiments := ns_experiments ns; ns_num_users := ns_num_users ns;
         ns_temporal_split := ns_temporal_split ns; ns_test_days := ns_test_days ns;
         ns_seed := ns_seed ns |}
  | dest_experiments =>
      {| ns_data_path := ns_data_path ns; ns_output_dir := ns_output_dir ns;
         ns_experiments := v; ns_num_users := ns_num_users ns;
         ns_temporal_split := ns_temporal_split ns; ns_test_days := ns_test_days ns;
         ns_seed := ns_seed ns |}
  | dest_num_users =>
      {| ns_data_path := ns_data_path ns; ns_output_dir := ns_output_dir ns;
         ns_experiments := ns_experiments ns; ns_num_users := v;
         ns_temporal_split := ns_temporal_split ns; ns_test_days := ns_test_days ns;
         ns_seed := ns_seed ns |}
  | dest_temporal_split =>
      {| ns_data_path := ns_data_path ns; ns_output_dir := ns_output_dir ns;
         ns_experiments := ns_experiments ns; ns_num_users := ns_num_users ns;
         ns_temporal_split := v; ns_test_days := ns_test_days ns;
         ns_seed := ns_seed ns |}
  | dest_test_days =>
      {| ns_data_path := ns_data_path ns; ns_output_dir := ns_output_dir ns;
         ns_experiments := ns_experiments ns; ns_num_users := ns_num_users ns;
         ns_temporal_split := ns_temporal_split ns; ns_test_days := v;
         ns_seed := ns_seed ns |}
  | dest_seed =>
      {| ns_data_path := ns_data_path ns; ns_output_dir := ns_output_dir ns;
         ns_experiments := ns_experiments ns; ns_num_users := ns_num_users ns;
         ns_temporal_split := ns_temporal_split ns; ns_test_days := ns_test_days ns;
         ns_seed := v |}
  end.

(** The namespace of the defaults, as [parse_known_args] sets it up. *)
Definition default_namespace : Namespace := {|
  ns_data_path := ArgStr "./ml-100k";
  ns_output_dir := ArgStr "./results";
  ns_experiments :=
    ArgList ["baseline_comparison"; "temporal_evaluation"; "parameter_sensitivity";
             "privacy_impact"; "scalability_test"; "user_segmentation"]%string;
  ns_num_users := ArgInt 50;
  ns_temporal_split := ArgBool false;
  ns_test_days := ArgInt 30;
  ns_seed := ArgInt 42
|}.

(** The attributes as [main] reads them, when each has the type its option
    declares. *)
Definition args_of_namespace (ns : Namespace) : option Args :=
  match ns_data_path ns, ns_output_dir ns, ns_experiments ns, ns_num_users ns,
        ns_temporal_split ns, ns_test_days ns, ns_seed ns with
  | ArgStr dp, ArgStr od, ArgList ex, ArgInt nu, ArgBool ts, ArgInt td, ArgInt sd =>
      Some {| args_data_path := dp; args_output_dir := od; args_experiments := ex;
              args_num_users := nu; args_temporal_split := ts;
              args_test_days := td; args_seed := sd |}
  | _, _, _, _, _, _, _ => None
  end.

(** [type=str] and [type=int] *)
Inductive arg_type : Type := type_str | type_int.

(** The actions of the parser: [-h]/[--help], which [ArgumentParser] adds
    itself; the options that store one converted string; [--experiments]
    with [nargs='+'], which stores the list of its strings; and the flag. *)
Inductive action : Type :=
| HelpAction
| StoreAction (d : dest) (type : arg_type)
| StoreListAction (d : dest)
| StoreTrueAction (d : dest).

(** The dict [_option_string_actions], in the order of the [add_argument]
    calls. *)
Definition option_string_actions : list (string * action) :=
  [("-h", HelpAction);
   ("--help", HelpAction);
   ("--data_path", StoreAction dest_data_path type_str);
   ("--output_dir", StoreAction dest_output_dir type_str);
   ("--experiments", StoreListAction dest_experiments);
   ("--num_users", StoreAction dest_num_users type_int);
   ("--temporal_split", StoreTrueAction dest_temporal_split);
   ("--test_days", StoreAction dest_test_days type_int);
   ("--seed", StoreAction dest_seed type_int)]%string.

(** How the parser ends: with a namespace, or through [sys.exit], with
    status 0 after the help and with status 2 after an error. *)
Inductive parse_result (A : Type) : Type :=
| Parsed (a : A)
| SystemExit (status : Z).
Arguments Parsed {A} a.
Arguments SystemExit {A} status.

(** ** [int(s)] *)

(** The characters [int] skips at both ends: the white space of ASCII,
    and the two other code points below 256 that are white space to
    [str], which it takes for blanks. *)
Definition int_space (c : ascii) : bool :=
  let n := N_of_ascii c in
  ((9 <=? n) && (n <=? 13) || (n =? 32) || (n =? 133) || (n =? 160))%N.

Fixpoint lstrip_space (s : string) : string :=
  match s with
  | String c s' => if int_space c then lstrip_space s' else s
  | EmptyString => s
  end.

(** The loop of [PyLong_FromString] over the digits, which single
    underscores may group: [prev] is the character before, [acc] the value
    and [digits] the number of the digits read.  It stops at the first
    character that is neither, and fails on an underscore that follows
    another or ends the digits. *)
Fixpoint scan_int_digits (prev : ascii) (acc : N) (digits : nat) (s : string)
  : option (N * nat * string) :=
  match s with
  | String c s' =>
      if Ascii.eqb c "_" then
        if Ascii.eqb prev "_" then None else scan_int_digits c acc digits s'
      else if is_digit c then
        scan_int_digits c (acc * 10 + digit_val c)%N (S digits) s'
      else if Ascii.eqb prev "_" then None else Some (acc, digits, s)
  | EmptyString => if Ascii.eqb prev "_" then None else Some (acc, digits, s)
  end.

(** [sys.int_info.default_max_str_digits] *)
Definition int_max_str_digits : nat := 4300.

(** [int(s)]: white space, a sign, the digits, white space.  [None]
    stands for [ValueError]. *)
Definition py_int (s : string) : option Z :=
  let s := lstrip_space s in
  let negative :=
    match s with String c _ => Ascii.eqb c "-" | EmptyString => false end in
  let s :=
    match s with
    | String c s' => if Ascii.eqb c "+" || Ascii.eqb c "-" then s' else s
    | EmptyString => s
    end in
  let leading_underscore :=
    match s with String c _ => Ascii.eqb c "_" | EmptyString => false end in
  if leading_underscore then None
  else
    match scan_int_digits zero 0 0 s with
    | Some (n, digits, rest) =>
        if (digits =? 0)%nat then None
        else if negb (String.eqb (lstrip_space rest) "") then None
        else if (int_max_str_digits <? digits)%nat then None
        else Some (if negative then - Z.of_N n else Z.of_N n)
    | None => None
    end.

(** ** [_parse_optional] *)

Fixpoint contains_char (c : ascii) (s : string) : bool :=
  match s with
  | EmptyString => false
  | String c' s' => Ascii.eqb c c' || contains_char c s'
  end.

(** [s.split(c, 1)] for an [s] that holds [c]: the text before the first
    [c] and the text after it. *)
Fixpoint split_at (c : ascii) (s : string) : string * string :=
  match s with
  | EmptyString => ("", "")
  | String c' s' =>
      if Ascii.eqb c c' then ("", s')
      else let '(a, b) := split_at c s' in (String c' a, b)
  end.

(** [_negative_number_matcher.match(s)], for the pattern
    [^-\d+$|^-\d*\.\d+$]: the dollar also matches before a line break that
    ends the string. *)
Fixpoint chomp_newline (s : string) : string :=
  match s with
  | EmptyString => ""
  | String c EmptyString => if Ascii.eqb c newline then "" else s
  | String c s' => String c (chomp_newline s')
  end.

Definition negative_number (s : string) : bool :=
  match chomp_newline s with
  | String c body =>
      Ascii.eqb c "-" &&
      let '(whole, rest) := span_digits body in
      match rest with
      | EmptyString => negb (String.eqb whole "")
      | String c' frac =>
          Ascii.eqb c' "." && negb (String.eqb frac "") && all_digits frac
      end
  | EmptyString => false
  end.

(** What [_parse_optional] makes of an argument string: a positional
    argument ([None]), an option with its action (or without one, when no
    option of the parser matches), its option string and the argument
    given after [=], or the error of an ambiguous abbreviation. *)
Inductive optional : Type :=
| Positional
| Optional (a : option action) (option_string : string) (explicit_arg : option string)
| AmbiguousOption.

(** [_get_option_tuples]: an argument that starts with two dashes may
    abbreviate an option and is split at [=] only; one that starts with a
    single dash may be a one-letter option with its argument attached. *)
Definition get_option_tuples (option_string : string)
  : list (action * string * option string) :=
  match option_string with
  | String c0 (String c1 rest) =>
      if Ascii.eqb c0 "-" && Ascii.eqb c1 "-" then
        let '(option_prefix, explicit_arg) :=
          if contains_char "=" option_string
          then let '(p, e) := split_at "=" option_string in (p, Some e)
          else (option_string, None) in
        flat_map (fun oa =>
                    if String.prefix option_prefix (fst oa)
                    then [(snd oa, fst oa, explicit_arg)] else [])
                 option_string_actions
      else if Ascii.eqb c0 "-" && negb (Ascii.eqb c1 "-") then
        let option_prefix := option_string in
        let short_option_prefix := String c0 (str1 c1) in
        let short_explicit_arg := rest in
        flat_map (fun oa =>
                    if String.eqb (fst oa) short_option_prefix
                    then [(snd oa, fst oa, Some short_explicit_arg)]
                    else if String.prefix option_prefix (fst oa)
                    then [(snd oa, fst oa, None)] else [])
                 option_string_actions
      else []
  | _ => []
  end.

Definition parse_optional (arg_string : string) : optional :=
  match arg_string with
  | EmptyString => Positional
  | String c tail =>
      if negb (Ascii.eqb c "-") then Positional
      else
        match dict_get arg_string option_string_actions with
        | Some a => Optional (Some a) arg_string None
        | None =>
            if String.eqb tail "" then Positional
            else
              let by_equals :=
                if contains_char "=" arg_string then
                  let '(option_string, explicit_arg) := split_at "=" arg_string in
                  match dict_get option_string option_string_actions with
                  | Some a => Some (Optional (Some a) option_string (Some explicit_arg))
                  | None => None
                  end
                else None in
              match by_equals with
              | Some found => found
              | None =>
                  match get_option_tuples arg_string with
                  | _ :: _ :: _ => AmbiguousOption
                  | [(a, option_string, explicit_arg)] =>
                      Optional (Some a) option_string explicit_arg
                  | [] =>
                      if negative_number arg_string then Positional
                      else if contains_char " " arg_string then Positional
                      else Optional None arg_string None
                  end
              end
        end
  end.

(** ** [_parse_known_args] *)

(** An argument string with its letter in [arg_strings_pattern]: [O] with
    what [_parse_optional] found, [A], or [-] for the first [--]. *)
Inductive pattern : Type :=
| pattern_O (a : option action) (option_string : string) (explicit_arg : option string)
| pattern_A
| pattern_dashes.

(** The first pass over the arguments.  [None] stands for the exit that an
    ambiguous abbreviation causes. *)
Fixpoint arg_strings_pattern (arg_strings : list string)
  : option (list (string * pattern)) :=
  match arg_strings with
  | [] => Some []
  | arg_string :: rest =>
      if String.eqb arg_string "--"
      then Some ((arg_string, pattern_dashes) :: map (fun s => (s, pattern_A)) rest)
      else
        match parse_optional arg_string with
        | AmbiguousOption => None
        | Positional =>
            option_map (cons (arg_string, pattern_A)) (arg_strings_pattern rest)
        | Optional a option_string explicit_arg =>
            option_map (cons (arg_string, pattern_O a option_string explicit_arg))
                       (arg_strings_pattern rest)
        end
  end.

(** [_get_value]: [None] stands for the [ArgumentError] of a string the
    type refuses. *)
Definition get_value (type : arg_type) (arg_string : string) : option argval :=
  match type with
  | type_str => Some (ArgStr arg_string)
  | type_int => option_map ArgInt (py_int arg_string)
  end.

(** [arg_strings.remove('--')] *)
Fixpoint remove_dashes (arg_strings : list string) : list string :=
  match arg_strings with
  | [] => []
  | s :: rest => if String.eqb s "--" then rest else s :: remove_dashes rest
  end.

(** [take_action]: [_get_values] and the call of the action.  An option
    with [nargs=None] is granted one string; when that string is [--] and
    is removed, the value is the empty list. *)
Definition take_action (a : action) (argument_strings : list string)
    (namespace : Namespace) : parse_result Namespace :=
  match a with
  | HelpAction => SystemExit 0
  | StoreTrueAction d => Parsed (setattr namespace d (ArgBool true))
  | StoreListAction d =>
      Parsed (setattr namespace d (ArgList (remove_dashes argument_strings)))
  | StoreAction d type =>
      match remove_dashes argument_strings with
      | arg_string :: _ =>
          match get_value type arg_string with
          | Some v => Parsed (setattr namespace d v)
          | None => SystemExit 2
          end
      | [] => Parsed (setattr namespace d (ArgList []))
      end
  end.

(** [take_action] for each action of [action_tuples] in turn. *)
Fixpoint take_actions (action_tuples : list (action * list string))
    (namespace : Namespace) : parse_result Namespace :=
  match action_tuples with
  | [] => Parsed namespace
  | (a, args) :: rest =>
      match take_action a args namespace with
      | Parsed namespace => take_actions rest namespace
      | SystemExit status => SystemExit status
      end
  end.

(** The strings [_match_argument] grants an option that stands before
    [following]: none for [nargs=0], the next string for [nargs=None], and
    the strings up to the first that is not an [A] for [nargs='+'].
    [None] stands for the [ArgumentError] of a missing argument. *)
Fixpoint leading_arguments (following : list (string * pattern)) : list string :=
  match following with
  | (s, pattern_A) :: rest => s :: leading_arguments rest
  | _ => []
  end.

Definition match_argument (a : action) (following : list (string * pattern))
  : option (list string) :=
  match a with
  | HelpAction | StoreTrueAction _ => Some []
  | StoreAction _ _ =>
      match following with
      | (s, pattern_A) :: _ => Some [s]
      | _ => None
      end
  | StoreListAction _ =>
      match leading_arguments following with
      | [] => None
      | args => Some args
      end
  end.

(** Whether [_match_argument(action, 'A')] is 1, that is, whether the
    action takes the argument given after [=]. *)
Definition takes_argument (a : action) : bool :=
  match a with
  | StoreAction _ _ | StoreListAction _ => true
  | HelpAction | StoreTrueAction _ => false
  end.

(** The loop of [consume_optional] for an option that came with an
    explicit argument.  An option that takes an argument takes that one.
    A single-dash option that takes none lets the first character of the
    explicit argument name the next option, with the rest as its explicit
    argument; when nothing is left, that option takes its arguments from
    the strings that follow.  Any other option refuses the explicit
    argument.  The result is [action_tuples] and the number of following
    strings taken. *)
Fixpoint explicit_action_tuples (a : action) (option_string : string)
    (explicit_arg : string) (following : list (string * pattern))
  : option (list (action * list string) * nat) :=
  if takes_argument a then Some ([(a, [explicit_arg])], O)
  else
    match option_string, explicit_arg with
    | String char (String second _), String first new_explicit_arg =>
        if Ascii.eqb second "-" then None
        else
          let option_string := String char (str1 first) in
          match dict_get option_string option_string_actions with
          | Some next =>
              match new_explicit_arg with
              | EmptyString =>
                  match match_argument next following with
                  | Some args => Some ([(a, []); (next, args)], length args)
                  | None => None
                  end
              | _ =>
                  match explicit_action_tuples next option_string
                          new_explicit_arg following with
                  | Some (action_tuples, arg_count) =>
                      Some ((a, []) :: action_tuples, arg_count)
                  | None => None
                  end
              end
          | None => None
          end
    | _, _ => None
    end.

(** [consume_optional], up to the calls of [take_action]: the actions to
    take with their strings, and how many of the following strings they
    use up.  [None] stands for an [ArgumentError]. *)
Definition consume_optional (a : action) (option_string : string)
    (explicit_arg : option string) (following : list (string * pattern))
  : option (list (action * list string) * nat) :=
  match explicit_arg with
  | Some explicit_arg => explicit_action_tuples a option_string explicit_arg following
  | None =>
      match match_argument a following with
      | Some args => Some ([(a, args)], length args)
      | None => None
      end
  end.

(** The loop over the argument strings from [start_index] on, given as
    the list of those strings with their pattern letters; [skip] of them
    are arguments of the option before.  The parser has no positional
    argument, so each string that is no option of the parser and no
    argument of one goes to [extras]. *)
Fixpoint consume (arg_strings : list (string * pattern)) (skip : nat)
    (namespace : Namespace) (extras : list string)
  : parse_result (Namespace * list string) :=
  match arg_strings with
  | [] => Parsed (namespace, extras)
  | (arg_string, p) :: following =>
      match skip with
      | S skip => consume following skip namespace extras
      | O =>
          match p with
          | pattern_O (Some a) option_string explicit_arg =>
              match consume_optional a option_string explicit_arg following with
              | Some (action_tuples, arg_count) =>
                  match take_actions action_tuples namespace with
                  | Parsed namespace => consume following arg_count namespace extras
                  | SystemExit status => SystemExit status
                  end
              | None => SystemExit 2
              end
          | _ => consume following O namespace (extras ++ [arg_string])
          end
      end
  end.

(** [parser.parse_known_args(args)]: every error ends in [sys.exit(2)]. *)
Definition parse_known_args (args : list string)
  : parse_result (Namespace * list string) :=
  match arg_strings_pattern args with
  | Some arg_strings => consume arg_strings O default_namespace []
  | None => SystemExit 2
  end.

(** [parser.parse_args(args)], which is what [parse_args] returns for the
    command line [args]: strings left over are an error. *)
Definition parse_args (args : list string) : parse_result Namespace :=
  match parse_known_args args with
  | Parsed (namespace, []) => Parsed namespace
  | Parsed (_, _ :: _) => SystemExit 2
  | SystemExit status => SystemExit status
  end.

(** ** Command lines made of settings *)

(** What a user may set on the command line. *)
Inductive setting : Type :=
| SetDataPath (s : string)
| SetOutputDir (s : string)
| SetExperiments (l : list string)
| SetNumUsers (z : Z)
| SetTemporalSplit
| SetTestDays (z : Z)
| SetSeed (z : Z).

(** The strings that say a setting: the full name of the option, then its
    values, numbers in decimal. *)
Definition command_line (x : setting) : list string :=
  match x with
  | SetDataPath s => ["--data_path"; s]
  | SetOutputDir s => ["--output_dir"; s]
  | SetExperiments l => "--experiments" :: l
  | SetNumUsers z => ["--num_users"; int_repr z]
  | SetTemporalSplit => ["--temporal_split"]
  | SetTestDays z => ["--test_days"; int_repr z]
  | SetSeed z => ["--seed"; int_repr z]
  end.

(** A string that does not start with a dash. *)
Definition no_dash (s : string) : bool :=
  match s with
  | String c _ => negb (Ascii.eqb c "-")
  | EmptyString => true
  end.

(** A setting whose values cannot be mistaken for options: strings do not
    start with a dash, the list of experiments is not empty, and a number
    has no more digits than [int] accepts. *)
Definition well_said (x : setting) : Prop :=
  match x with
  | SetDataPath s | SetOutputDir s => no_dash s = true
  | SetExperiments l => l ≠ [] /\ Forall (fun s => no_dash s = true) l
  | SetNumUsers z | SetTestDays z | SetSeed z =>
      (String.length (string_of_N (Z.abs_N z)) <= int_max_str_digits)%nat
  | SetTemporalSplit => True
  end.

(** The arguments after a setting was given. *)
Definition apply_setting (args : Args) (x : setting) : Args :=
  match x with
  | SetDataPath s =>
      {| args_data_path := s; args_output_dir := args_output_dir args;
         args_experiments := args_experiments args;
         args_num_users := args_num_users args;
         args_temporal_split := args_temporal_split args;
         args_test_days := args_test_days args; args_seed := args_seed args |}
  | SetOutputDir s =>
      {| args_data_path := args_data_path args; args_output_dir := s;
         args_experiments := args_experiments args;
         args_num_users := args_num_users args;
         args_temporal_split := args_temporal_split args;
         args_test_days := args_test_days args; args_seed := args_seed args |}
  | SetExperiments l =>
      {| args_data_path := args_data_path args;
         args_output_dir := args_output_dir args;
         args_experiments := l;
         args_num_users := args_num_users args;
         args_temporal_split := args_temporal_split args;
         args_test_days := args_test_days args; args_seed := args_seed args |}
  | SetNumUsers z =>
      {| args_data_path := args_data_path args;
         args_output_dir := args_output_dir args;
         args_experiments := args_experiments args;
         args_num_users := z;
         args_temporal_split := args_temporal_split args;
         args_test_days := args_test_days args; args_seed := args_seed args |}
  | SetTemporalSplit =>
      {| args_data_path := args_data_path args;
         args_output_dir := args_output_dir args;
         args_experiments := args_experiments args;
         args_num_users := args_num_users args;
         args_temporal_split := true;
         args_test_days := args_test_days args; args_seed := args_seed args |}
  | SetTestDays z =>
      {| args_data_path := args_data_path args;
         args_output_dir := args_output_dir args;
         args_experiments := args_experiments args;
         args_num_users := args_num_users args;
         args_temporal_split := args_temporal_split args;
         args_test_days := z; args_seed := args_seed args |}
  | SetSeed z =>
      {| args_data_path := args_data_path args;
         args_output_dir := args_output_dir args;
         args_experiments := args_experiments args;
         args_num_users := args_num_users args;
         args_temporal_split := args_temporal_split args;
         args_test_days := args_test_days args; args_seed := z |}
  end.

(** Whether the option of a setting takes all the arguments that follow. *)
Definition takes_more (x : setting) : bool :=
  match x with
  | SetExperiments _ => true
  | _ => false
  end.

(** The attribute a setting stores. *)
Definition setting_store (x : setting) (namespace : Namespace) : Namespace :=
  match x with
  | SetDataPath s => setattr namespace dest_data_path (ArgStr s)
  | SetOutputDir s => setattr namespace dest_output_dir (ArgStr s)
  | SetExperiments l => setattr namespace dest_experiments (ArgList l)
  | SetNumUsers z => setattr namespace dest_num_users (ArgInt z)
  | SetTemporalSplit => setattr namespace dest_temporal_split (ArgBool true)
  | SetTestDays z => setattr namespace dest_test_days (ArgInt z)
  | SetSeed z => setattr namespace dest_seed (ArgInt z)
  end.

(** The argument strings of a setting with their pattern letters. *)
Definition setting_pattern (x : setting) : list (string * pattern) :=
  match command_line x with
  | option_string :: values =>
      (option_string,
       pattern_O (dict_get option_string option_string_actions) option_string None)
      :: map (fun s => (s, pattern_A)) values
  | [] => []
  end.

(** A string that ends in two dashes. *)
Fixpoint ends_with_dashes (s : string) : bool :=
  match s with
  | EmptyString => false
  | String _ s' => String.eqb s "--" || ends_with_dashes s'
  end.

(** An action stores into the attribute, and with the type, that its
    option declares. *)
Definition action_typed (a : action) : bool :=
  match a with
  | HelpAction => true
  | StoreAction dest_data_path type_str | StoreAction dest_output_dir type_str
  | StoreAction dest_num_users type_int | StoreAction dest_test_days type_int
  | StoreAction dest_seed type_int => true
  | StoreListAction dest_experiments => true
  | StoreTrueAction dest_temporal_split => true
  | _ => false
  end.

(** The attributes have the types their options declare, and the list of
    experiments is not empty: [main] can read them. *)
Definition well_typed (namespace : Namespace) : Prop :=
  exists args, args_of_namespace namespace = Some args /\ args_experiments args ≠ [].

(** An argument string with its pattern letter, when neither the string
    nor an explicit argument split off it ends in two dashes and the
    action is one of the parser. *)
Definition tame (t : string * pattern) : Prop :=
  ends_with_dashes (fst t) = false
  /\ match snd t with
     | pattern_O a _ explicit_arg =>
         (forall a', a = Some a' -> action_typed a' = true)
         /\ (forall e, explicit_arg = Some e -> ends_with_dashes e = false)
     | _ => True
     end.

(** What [take_action] may be called with: an action of the parser,
    strings of which none is the double dash, and at least one string for
    an option that takes any. *)
Definition fair_call (call : action * list string) : Prop :=
  action_typed (fst call) = true
  /\ Forall (fun s => String.eqb s "--" = false) (snd call)
  /\ (takes_argument (fst call) = true -> snd call ≠ []).

(** * Concrete runs *)

(** Modelled from the spec: the runner of section 4.2, which is not part of
    the sources.  It knows the identifiers [known], returns a payload for
    each of them and fails with [UnknownExperimentError] for any other. *)
Definition registry_runner (known : list string) : experiment_runner := {|
  payload := unit;
  runner_state := unit;
  runner_init := fun _ => tt;
  runner_step := fun _ st experiment =>
    if existsb (String.eqb experiment) known then (Ok tt, st)
    else (Raise (UnknownExperimentError experiment), st);
  config_vars := fun _ => "{}"
|}.

(** The registry of the six experiments the command line runs by default. *)
Definition canonical_runner : experiment_runner :=
  registry_runner (args_experiments default_args).

Definition example_config : ForgettingConfig := config_of_args default_args.

(** A fresh world: nothing logged or printed, an empty working directory,
    room for 4096 characters, and a clock whose [n]-th reading is [n * n]
    tenths of a second. *)
Definition example_world : World :=
  {| w_clock := fun n => Z.of_nat n * Z.of_nat n * 100000; w_ticks := 0;
     w_log := []; w_stdout := []; w_fs := ∅; w_disk_free := 4096;
     w_calls := [] |}.

(** [example_world] with the output directory of [example_config] made. *)
Definition ready_world : World :=
  set_fs {[ ["results"] := Dir ]} 4096 example_world.

(** A world in which the output directory holds the report of an earlier
    run and the device has room for 20 more characters. *)
Definition crowded_world : World :=
  set_fs {[ ["results"] := Dir;
            ["experiment_report.json"; "results"] := File "earlier report" ]}
         20 example_world.

(** A request that names one experiment twice, and the dict
    [run_experiments] returns for it with the clock of [example_world]:
    the first and the third invocation take 0.1 and 0.9 seconds, the
    second 0.5. *)
Definition duplicate_request : list string :=
  ["user_segmentation"; "baseline_comparison"; "user_segmentation"].

Definition duplicate_results : pydict :=
  [("user_segmentation", outcome 900000); ("baseline_comparison", outcome 500000)].

(** The worlds after [run_experiments] served [duplicate_request] from
    [example_world] and from [ready_world]. *)
Definition example_world_after_run : World :=
  snd (run_experiments canonical_runner example_config duplicate_request
         example_world).

Definition ready_world_after_run : World :=
  snd (run_experiments canonical_runner example_config duplicate_request
         ready_world).

(** ** Further concrete runs *)

(** The default command line with the request [duplicate_request], and
    with a request whose second identifier the registry does not know. *)
Definition example_args : Args := {|
  args_data_path := "./ml-100k"; args_output_dir := "./results";
  args_experiments := duplicate_request;
  args_num_users := 50; args_temporal_split := false;
  args_test_days := 30; args_seed := 42
|}.

Definition failing_request : list string :=
  ["baseline_comparison"; "unknown_experiment"; "temporal_evaluation"].

Definition failing_args : Args := {|
  args_data_path := "./ml-100k"; args_output_dir := "./results";
  args_experiments := failing_request;
  args_num_users := 50; args_temporal_split := false;
  args_test_days := 30; args_seed := 42
|}.

(** A world in which a regular file stands where the output directory of
    [example_config] should be. *)
Definition blocked_world : World :=
  set_fs {[ ["results"] := File "" ]} 4096 example_world.

(** Two entries as a caller may hand them to [generate_report], the second
    one of an experiment that did not complete. *)
Definition example_rows : list (string * bool * Z) :=
  [("baseline_comparison", true, 1500000); ("privacy_impact", false, 250000)].

(** Settings for a command line: a negative seed that a later one
    replaces, a request that names an experiment twice, the flag, and an
    output directory. *)
Definition example_settings : list setting :=
  [SetSeed (-7);
   SetExperiments ["user_segmentation"; "baseline_comparison"; "user_segmentation"];
   SetTemporalSplit;
   SetOutputDir "out";
   SetSeed 7].

(** * Properties *)

(** ** Dicts *)

Lemma dict_get_set_eq {V : Type} (k : string) (v : V) d :
  dict_get k (dict_set k v d) = Some v.
Proof.
  induction d as [|[k' v'] d IH]; simpl.
  - by rewrite String.eqb_refl.
  - destruct (String.eqb k k') eqn:E; simpl; rewrite E; auto.
Qed.

Lemma dict_get_set_ne {V : Type} (k k' : string) (v : V) d :
  k ≠ k' -> dict_get k' (dict_set k v d) = dict_get k' d.
Proof.
  intros Hne. induction d as [|[k0 v0] d IH]; simpl.
  - destruct (String.eqb_spec k' k); congruence.
  - destruct (String.eqb_spec k k0) as [->|]; simpl.
    + destruct (String.eqb_spec k' k0); congruence.
    + by rewrite IH.
Qed.

Lemma dict_keys_set {V : Type} (k : string) (v : V) d :
  dict_keys (dict_set k v d) =
  if decide (k ∈ dict_keys d) then dict_keys d else dict_keys d ++ [k].
Proof.
  unfold dict_keys. induction d as [|[k' v'] d IH].
  - done.
  - cbn [dict_set map fst] in *.
    destruct (String.eqb_spec k k') as [->|Hne]; cbn [map fst].
    + rewrite decide_True; [done | left].
    + rewrite IH. destruct (decide (k ∈ map fst d)) as [Hin|Hni].
      * rewrite decide_True; [done | by right].
      * rewrite decide_False; [done|]. rewrite not_elem_of_cons. done.
Qed.

Lemma dict_set_NoDup {V : Type} (k : string) (v : V) d :
  NoDup (dict_keys d) -> NoDup (dict_keys (dict_set k v d)).
Proof.
  intros Hd. rewrite dict_keys_set. case_decide; [done|].
  apply NoDup_app. split_and!; [done | | apply NoDup_singleton].
  intros x Hx Hk. apply list_elem_of_singleton in Hk. by subst.
Qed.

Lemma dict_set_values {V : Type} (P : V -> Prop) (k : string) (v : V) d :
  P v -> Forall (fun kv => P (snd kv)) d ->
  Forall (fun kv => P (snd kv)) (dict_set k v d).
Proof.
  intros Hv. induction 1 as [|[k' v'] d Hx Hd IH]; simpl.
  - by repeat constructor.
  - destruct (String.eqb k k'); constructor; auto.
Qed.

Lemma dict_get_elem {V : Type} (k : string) (v : V) d :
  dict_get k d = Some v -> (k, v) ∈ d.
Proof.
  induction d as [|[k' v'] d IH]; simpl; [done|].
  destruct (String.eqb_spec k k') as [->|].
  - intros [= ->]. left.
  - intros. right. auto.
Qed.

Lemma dict_get_None {V : Type} (k : string) (d : list (string * V)) :
  dict_get k d = None <-> k ∉ dict_keys d.
Proof.
  induction d as [|[k' v'] d IH]; simpl.
  - split; [intros _ H; by apply elem_of_nil in H | done].
  - destruct (String.eqb_spec k k') as [->|Hne].
    + split; [done | intros H; exfalso; apply H; left].
    + rewrite IH, not_elem_of_cons. tauto.
Qed.

(** ** The loop of [run_experiments] *)

Lemma stepped_refl w : stepped w w 0 [].
Proof.
  unfold stepped. rewrite Nat.add_0_r, app_nil_r. tauto.
Qed.

Lemma stepped_trans w w1 w2 a b c1 c2 :
  stepped w w1 a c1 -> stepped w1 w2 b c2 -> stepped w w2 (a + b) (c1 ++ c2).
Proof.
  unfold stepped. intros (H1 & H2 & H3 & H4 & H5 & H6) (G1 & G2 & G3 & G4 & G5 & G6).
  rewrite G1, G2, G3, G4, G5, G6, H1, H2, H3, H4, H5, H6.
  rewrite app_assoc. split_and!; try done. lia.
Qed.

Lemma stepped_log msg w : stepped w (log_to msg w) 0 [].
Proof. unfold stepped. cbn. rewrite Nat.add_0_r, app_nil_r. tauto. Qed.

Lemma stepped_tick w : stepped w (tick w) 1 [].
Proof. unfold stepped. cbn. rewrite Nat.add_1_r, app_nil_r. tauto. Qed.

Lemma stepped_call c w : stepped w (record_call c w) 0 [c].
Proof. unfold stepped. cbn. rewrite Nat.add_0_r. tauto. Qed.

(** One pass through the loop body around an invocation that returns. *)
Lemma stepped_iteration c m1 m2 w :
  stepped w (log_to m2 (tick (record_call c (tick (log_to m1 w))))) 2 [c].
Proof.
  unfold stepped. cbn. split_and!; try done. lia.
Qed.

Lemma timing_shift (w w' : World) (i : nat) :
  w_clock w' = w_clock w -> w_ticks w' = (w_ticks w + 2)%nat ->
  timing w' i = timing w (S i).
Proof.
  intros Hc Ht. unfold timing. rewrite Hc, Ht.
  by replace (w_ticks w + 2 + 2 * i + 1)%nat with (w_ticks w + 2 * S i + 1)%nat by lia;
     replace (w_ticks w + 2 + 2 * i)%nat with (w_ticks w + 2 * S i)%nat by lia.
Qed.

Lemma timings_shift (w w' : World) (n : nat) :
  w_clock w' = w_clock w -> w_ticks w' = (w_ticks w + 2)%nat ->
  timings w (S n) = timing w 0 :: timings w' n.
Proof.
  intros Hc Ht. unfold timings. cbn [seq map]. f_equal.
  rewrite <- seq_shift, map_map. apply map_ext. intros i.
  symmetry. by apply timing_shift.
Qed.

Lemma timing_0 w : timing w 0 = w_clock w (S (w_ticks w)) - w_clock w (w_ticks w).
Proof.
  unfold timing. by rewrite Nat.mul_0_r, Nat.add_0_r, Nat.add_1_r.
Qed.

Lemma bind_ok {A B : Type} (m : M A) (f : A -> M B) w a w1 :
  m w = (Ok a, w1) -> bind m f w = f a w1.
Proof. intros H. unfold bind. by rewrite H. Qed.

Lemma bind_raise {A B : Type} (m : M A) (f : A -> M B) w e w1 :
  m w = (Raise e, w1) -> bind m f w = (Raise e, w1).
Proof. intros H. unfold bind. by rewrite H. Qed.

Section LoopFacts.

Variable R : experiment_runner.

Lemma run_experiment_ok (runner : Runner R) e w p st :
  runner_step R (r_config R runner) (r_state R runner) e = (Ok p, st) ->
  run_experiment R runner e w =
    (Ok (p, {| r_config := r_config R runner; r_state := st |}),
     record_call (r_config R runner, e) w).
Proof. intros H. unfold run_experiment. by rewrite H. Qed.

Lemma run_experiment_raise (runner : Runner R) e w err st :
  runner_step R (r_config R runner) (r_state R runner) e = (Raise err, st) ->
  run_experiment R runner e w = (Raise err, record_call (r_config R runner, e) w).
Proof. intros H. unfold run_experiment. by rewrite H. Qed.

(** When no invocation raises, the loop returns the dict with an outcome
    stored for each experiment in turn. *)
Lemma run_loop_ok (runner : Runner R) (experiments : list string)
    (results : pydict) (w : World) :
  first_raise R (r_config R runner) (r_state R runner) experiments = None ->
  exists w',
    run_loop R runner experiments results w =
      (Ok (record_all (combine experiments (timings w (length experiments))) results), w')
    /\ stepped w w' (2 * length experiments)
         (map (pair (r_config R runner)) experiments).
Proof.
  revert runner results w.
  induction experiments as [|e rest IH]; intros runner results w Hok.
  - exists w. split; [done | apply stepped_refl].
  - cbn [first_raise] in Hok.
    destruct (runner_step R (r_config R runner) (r_state R runner) e) as [[p|err] st] eqn:Hstep;
      [|done].
    destruct (first_raise R (r_config R runner) st rest) as [[n err]|] eqn:Hrest; [done|].
    cbn [run_loop bind logger_info time_time].
    rewrite (bind_ok _ _ _ _ _ (run_experiment_ok _ _ _ _ _ Hstep)).
    cbn [bind logger_info time_time].
    match goal with |- context [run_loop R ?r rest ?res ?w2] =>
      destruct (IH r res w2 Hrest) as (w' & Heq & Hst);
      pose proof (stepped_iteration (r_config R runner, e)
                    ("Starting experiment: " +:+ e)
                    ("Completed experiment: " +:+ e +:+ " in "
                     +:+ format_2f_us (w_clock (record_call (r_config R runner, e) (tick (log_to ("Starting experiment: " +:+ e) w))) (w_ticks (record_call (r_config R runner, e) (tick (log_to ("Starting experiment: " +:+ e) w))))
                         - w_clock (log_to ("Starting experiment: " +:+ e) w) (w_ticks (log_to ("Starting experiment: " +:+ e) w))) +:+ " seconds") w) as Hit
    end.
    exists w'. split.
    + rewrite Heq. do 2 f_equal. cbn [length].
      rewrite (timings_shift w _ _ (proj1 Hit) (proj1 (proj2 Hit))).
      cbn [combine]. unfold record_all. cbn [fold_left fst snd].
      by rewrite timing_0.
    + replace (2 * length (e :: rest))%nat with (2 + 2 * length rest)%nat by (cbn [length]; lia).
      apply (stepped_trans _ _ _ _ _ [_] _ Hit Hst).
Qed.

(** When the invocation at position [n] is the first to raise, the loop
    ends there with that exception: the start reading of that invocation
    was taken, its end reading was not, and nothing after it ran. *)
Lemma run_loop_raise (runner : Runner R) (experiments : list string)
    (results : pydict) (w : World) n err :
  first_raise R (r_config R runner) (r_state R runner) experiments = Some (n, err) ->
  exists w',
    run_loop R runner experiments results w = (Raise err, w')
    /\ stepped w w' (2 * n + 1)
         (map (pair (r_config R runner)) (take (S n) experiments)).
Proof.
  revert runner results w n.
  induction experiments as [|e rest IH]; intros runner results w n Hr; [done|].
  cbn [first_raise] in Hr.
  destruct (runner_step R (r_config R runner) (r_state R runner) e) as [[p|err'] st] eqn:Hstep.
  - destruct (first_raise R (r_config R runner) st rest) as [[n' err']|] eqn:Hrest; [|done].
    injection Hr as <- <-.
    cbn [run_loop bind logger_info time_time].
    rewrite (bind_ok _ _ _ _ _ (run_experiment_ok _ _ _ _ _ Hstep)).
    cbn [bind logger_info time_time].
    match goal with |- context [run_loop R ?r rest ?res (log_to ?m2 ?w2)] =>
      destruct (IH r res (log_to m2 w2) _ Hrest) as (w' & Heq & Hst);
      pose proof (stepped_iteration (r_config R runner, e)
                    ("Starting experiment: " +:+ e) m2 w) as Hit
    end.
    exists w'. split; [done|].
    replace (2 * S n' + 1)%nat with (2 + (2 * n' + 1))%nat by lia.
    apply (stepped_trans _ _ _ _ _ [_] _ Hit Hst).
  - injection Hr as <- <-.
    cbn [run_loop bind logger_info time_time].
    rewrite (bind_raise _ _ _ _ _ (run_experiment_raise _ _ _ _ _ Hstep)).
    eexists. split; [done|].
    unfold stepped. cbn. split_and!; try done. lia.
Qed.

End LoopFacts.

(** ** Failures of the runner *)

Section Failures.

Variable R : experiment_runner.

Lemma run_experiments_ok config experiments w :
  first_raise R config (runner_init R config) experiments = None ->
  exists w',
    run_experiments R config experiments w =
      (Ok (record_all (combine experiments (timings w (length experiments))) []), w')
    /\ stepped w w' (2 * length experiments) (map (pair config) experiments).
Proof.
  intros H. unfold run_experiments.
  apply (run_loop_ok R (ForgettingExperimentRunner R config) experiments [] w H).
Qed.

Lemma run_experiments_returns config experiments w results w' :
  run_experiments R config experiments w = (Ok results, w') ->
  first_raise R config (runner_init R config) experiments = None.
Proof.
  intros Hrun.
  destruct (first_raise R config (runner_init R config) experiments) as [[n err]|] eqn:Hf;
    [|done].
  destruct (run_loop_raise R (ForgettingExperimentRunner R config) experiments [] w n err Hf)
    as (w1 & Heq & _).
  unfold run_experiments in Hrun. congruence.
Qed.

(** C1, as amended: when the invocation for an identifier raises,
    [run_experiments] ends with that exception.  The identifiers before it
    were each invoked once and timed, the failing one was invoked after its
    start reading was taken, no end reading follows, the identifiers after
    it are not invoked, and no dict is returned. *)
Theorem run_experiments_propagates config experiments w n err :
  first_raise R config (runner_init R config) experiments = Some (n, err) ->
  exists w',
    run_experiments R config experiments w = (Raise err, w')
    /\ w_calls w' = w_calls w ++ map (pair config) (take (S n) experiments)
    /\ w_ticks w' = (w_ticks w + 2 * n + 1)%nat
    /\ w_stdout w' = w_stdout w /\ w_fs w' = w_fs w.
Proof.
  intros Hf.
  destruct (run_loop_raise R (ForgettingExperimentRunner R config) experiments [] w n err Hf)
    as (w' & Heq & Hst).
  exists w'. unfold stepped in Hst. cbn in Hst.
  destruct Hst as (_ & Ht & Hc & Hs & Hfs & _).
  split_and!; try done. rewrite Ht. lia.
Qed.

End Failures.

(** C1, as the specification states it, fails: with the canonical
    registry the unknown identifier in the middle makes [run_experiments]
    raise, and the third experiment is never invoked. *)
Lemma failure_not_isolated :
  let experiments :=
    ["baseline_comparison"; "unknown_experiment"; "temporal_evaluation"] in
  fst (run_experiments canonical_runner example_config experiments example_world)
    = Raise (UnknownExperimentError "unknown_experiment")
  /\ map snd (w_calls (snd (run_experiments canonical_runner example_config
                              experiments example_world)))
     = ["baseline_comparison"; "unknown_experiment"]
  /\ ~ isolates_failures canonical_runner example_config experiments example_world.
Proof.
  split_and!; [reflexivity | reflexivity |].
  intros (results & w' & Hrun & _). discriminate Hrun.
Qed.

Lemma run_experiments_propagates_witness :
  first_raise canonical_runner example_config
    (runner_init canonical_runner example_config)
    ["baseline_comparison"; "unknown_experiment"; "temporal_evaluation"]
  = Some (1%nat, UnknownExperimentError "unknown_experiment")
  /\ exists w',
       run_experiments canonical_runner example_config
         ["baseline_comparison"; "unknown_experiment"; "temporal_evaluation"]
         example_world
       = (Raise (UnknownExperimentError "unknown_experiment"), w')
       /\ w_calls w' = w_calls example_world ++
            map (pair example_config)
              (take 2 ["baseline_comparison"; "unknown_experiment"; "temporal_evaluation"])
       /\ w_ticks w' = (w_ticks example_world + 2 * 1 + 1)%nat
       /\ w_stdout w' = w_stdout example_world /\ w_fs w' = w_fs example_world.
Proof.
  split; [reflexivity|].
  apply (run_experiments_propagates canonical_runner example_config
           ["baseline_comparison"; "unknown_experiment"; "temporal_evaluation"]
           example_world 1 (UnknownExperimentError "unknown_experiment")).
  reflexivity.
Defined.

(** ** Unknown identifiers *)

Lemma registry_knows (known : list string) (e : string) :
  existsb (String.eqb e) known = true <-> e ∈ known.
Proof.
  rewrite existsb_exists. split.
  - intros (x & Hx & Heq). apply String.eqb_eq in Heq as ->.
    by apply list_elem_of_In.
  - intros H. exists e. split; [by apply list_elem_of_In | apply String.eqb_refl].
Qed.

Lemma first_raise_registry known config st pre e post :
  Forall (fun x => x ∈ known) pre -> e ∉ known ->
  first_raise (registry_runner known) config st (pre ++ e :: post)
  = Some (length pre, UnknownExperimentError e).
Proof.
  intros Hpre He. induction Hpre as [|x pre Hx Hpre IH]; cbn [app first_raise length].
  - cbn. destruct (existsb (String.eqb e) known) eqn:E; [|done].
    apply registry_knows in E. done.
  - cbn [registry_runner runner_step].
    apply registry_knows in Hx. rewrite Hx.
    destruct st. cbn [registry_runner runner_step] in IH. by rewrite IH.
Qed.





(** ** What the loop records *)

Lemma record_all_values (P : pyval -> Prop) pairs results :
  (forall d, d ∈ map snd pairs -> P (outcome d)) ->
  Forall (fun kv => P (snd kv)) results ->
  Forall (fun kv => P (snd kv)) (record_all pairs results).
Proof.
  revert results. induction pairs as [|[e d] pairs IH]; intros results Hp Hr; [done|].
  cbn [record_all fold_left fst snd]. apply IH.
  - intros d' Hd'. apply Hp. cbn [map snd]. by right.
  - apply dict_set_values; [|done]. apply Hp. left.
Qed.

Lemma record_all_NoDup pairs results :
  NoDup (dict_keys results) -> NoDup (dict_keys (record_all pairs results)).
Proof.
  revert results. induction pairs as [|[e d] pairs IH]; intros results Hr; [done|].
  cbn [record_all fold_left fst snd]. apply IH. by apply dict_set_NoDup.
Qed.

Lemma record_all_get_other e pairs results :
  e ∉ map fst pairs ->
  dict_get e (record_all pairs results) = dict_get e results.
Proof.
  revert results. induction pairs as [|[e' d] pairs IH]; intros results Hn; [done|].
  cbn [record_all fold_left fst snd]. cbn [map fst] in Hn.
  apply not_elem_of_cons in Hn as [Hne Hn].
  rewrite (IH _ Hn). by apply dict_get_set_ne.
Qed.

(** The value under a key is the outcome of its last occurrence. *)
Lemma record_all_get_last e d i pairs results :
  pairs !! i = Some (e, d) ->
  (forall j d', (i < j)%nat -> pairs !! j ≠ Some (e, d')) ->
  dict_get e (record_all pairs results) = Some (outcome d).
Proof.
  revert i results. induction pairs as [|[e' d'] pairs IH]; intros i results Hi Hlast; [done|].
  cbn [record_all fold_left fst snd]. destruct i as [|i].
  - injection Hi as -> ->. rewrite record_all_get_other; [apply dict_get_set_eq|].
    intros Hin. apply list_elem_of_fmap in Hin as ([e2 d2] & He2 & Hin). cbn in He2. subst e2.
    apply list_elem_of_lookup in Hin as (j & Hj).
    apply (Hlast (S j) d2); [lia | done].
  - apply (IH i); [done|]. intros j d2 Hij. apply (Hlast (S j) d2). lia.
Qed.

(** The keys are the ones already there, followed by the new identifiers in
    the order of their first occurrence. *)
Lemma record_all_keys pairs results :
  dict_keys (record_all pairs results) =
  dict_keys results
  ++ filter (fun e => e ∉ dict_keys results) (uniq_first (map fst pairs)).
Proof.
  revert results. induction pairs as [|[e d] pairs IH]; intros results.
  - cbn. by rewrite app_nil_r.
  - cbn [record_all fold_left fst snd map uniq_first].
    change (fold_left _ pairs ?r) with (record_all pairs r).
    rewrite IH, dict_keys_set.
    destruct (decide (e ∈ dict_keys results)) as [Hin|Hni].
    + rewrite filter_cons_False by (intros H; by apply H). f_equal.
      rewrite list_filter_filter_l; [done|]. intros x Hx ->. done.
    + rewrite filter_cons_True by done. rewrite <- app_assoc. cbn [app]. do 2 f_equal.
      rewrite list_filter_filter. apply list_filter_iff. intros x.
      rewrite not_elem_of_app, list_elem_of_singleton. tauto.
Qed.

Lemma uniq_first_elem x l : x ∈ uniq_first l <-> x ∈ l.
Proof.
  induction l as [|y l IH]; [done|]. cbn [uniq_first].
  rewrite !elem_of_cons, list_elem_of_filter, IH.
  destruct (decide (x = y)); tauto.
Qed.

Lemma uniq_first_NoDup l : NoDup (uniq_first l).
Proof.
  induction l as [|y l IH]; [constructor|]. cbn [uniq_first].
  constructor; [|by apply NoDup_filter].
  rewrite list_elem_of_filter. tauto.
Qed.

Lemma combine_lookup {A B : Type} (l : list A) (k : list B) i a b :
  l !! i = Some a -> k !! i = Some b -> combine l k !! i = Some (a, b).
Proof.
  revert k i. induction l as [|x l IH]; intros [|y k] [|i]; try done.
  - by intros [= ->] [= ->].
  - cbn. apply IH.
Qed.

Lemma combine_lookup_fst {A B : Type} (l : list A) (k : list B) i a b :
  combine l k !! i = Some (a, b) -> l !! i = Some a.
Proof.
  revert k i. induction l as [|x l IH]; intros [|y k] [|i]; try done.
  - by intros [= -> ->].
  - cbn. apply IH.
Qed.

Lemma map_fst_combine {A B : Type} (l : list A) (k : list B) :
  length l = length k -> map fst (combine l k) = l.
Proof.
  revert k. induction l as [|x l IH]; intros [|y k]; try done.
  cbn. intros [= H]. by rewrite IH.
Qed.

Lemma timings_length w n : length (timings w n) = n.
Proof. unfold timings. by rewrite length_map, length_seq. Qed.

Lemma timings_lookup w n i : (i < n)%nat -> timings w n !! i = Some (timing w i).
Proof.
  intros Hi. unfold timings. rewrite list_lookup_fmap.
  rewrite lookup_seq_lt by done. done.
Qed.

(** ** The outcomes [run_experiments] returns *)

Lemma combine_lookup_snd {A B : Type} (l : list A) (k : list B) i a b :
  combine l k !! i = Some (a, b) -> k !! i = Some b.
Proof.
  revert k i. induction l as [|x l IH]; intros [|y k] [|i]; try done.
  - by intros [= -> ->].
  - cbn. apply IH.
Qed.

Section Outcomes.

Variable R : experiment_runner.

(** C10: every entry of the dict [run_experiments] returns is the
    two-item dict with [completed] true and a float [duration]; no entry
    with [completed] false is ever stored. *)
Theorem outcomes_all_completed config experiments w results w' :
  run_experiments R config experiments w = (Ok results, w') ->
  forall e v, (e, v) ∈ results ->
    exists d, v = PyDict [("completed", PyBool true); ("duration", PyFloat d)].
Proof.
  intros Hrun e v Hin.
  pose proof (run_experiments_returns R _ _ _ _ _ Hrun) as Hf.
  destruct (run_experiments_ok R config experiments w Hf) as (w1 & Heq & _).
  rewrite Hrun in Heq. injection Heq as -> _.
  assert (HF : Forall (fun kv => exists d, snd kv = outcome d)
                 (record_all (combine experiments (timings w (length experiments))) [])).
  { apply (record_all_values (fun v => exists d, v = outcome d)); [|constructor].
    intros d _. by exists d. }
  rewrite Forall_forall in HF. apply (HF (e, v) Hin).
Qed.



End Outcomes.

Lemma outcomes_all_completed_witness :
  run_experiments canonical_runner example_config duplicate_request example_world
  = (Ok [("user_segmentation", outcome 900000);
         ("baseline_comparison", outcome 500000)],
     example_world_after_run)
  /\ forall e v,
       (e, v) ∈ [("user_segmentation", outcome 900000);
                 ("baseline_comparison", outcome 500000)] ->
       exists d, v = PyDict [("completed", PyBool true); ("duration", PyFloat d)].
Proof.
  split; [reflexivity|].
  apply (outcomes_all_completed canonical_runner example_config duplicate_request
           example_world _ example_world_after_run).
  reflexivity.
Defined.



(** ** The file system *)

Lemma fs_lookup_insert fs p x :
  fs_lookup (<[p := x]> fs) p = Some x \/ fs_lookup (<[p := x]> fs) p = Some Dir.
Proof.
  destruct p as [|r [|r' p]]; cbn [fs_lookup]; [by right | | left; apply lookup_insert_eq].
  destruct (String.eqb r "/"); [by right | left; apply lookup_insert_eq].
Qed.

Lemma fs_lookup_insert_ne fs p q x :
  p ≠ q -> fs_lookup (<[p := x]> fs) q = fs_lookup fs q.
Proof.
  intros Hne. destruct q as [|r [|r' q]]; cbn [fs_lookup]; [done | |by apply lookup_insert_ne].
  destruct (String.eqb r "/"); [done | by apply lookup_insert_ne].
Qed.

Lemma mkdir_exist_ok_true name p w :
  mkdir_exist_ok name p true w
  = match fs_lookup (w_fs w) p with
    | Some Dir => (Ok tt, w)
    | Some (File _) => (Raise (FileExistsError name), w)
    | None =>
        match fs_lookup (w_fs w) (tail p) with
        | Some Dir => (Ok tt, set_fs (<[p := Dir]> (w_fs w)) (w_disk_free w) w)
        | Some (File _) => (Raise (NotADirectoryError name), w)
        | None => (Raise (FileNotFoundError name), w)
        end
    end.
Proof.
  unfold mkdir_exist_ok, os_mkdir, path_isdir. cbn [negb].
  destruct (fs_lookup (w_fs w) p) as [[|c]|] eqn:Hp; rewrite ?Hp; try done.
  destruct (fs_lookup (w_fs w) (tail p)) as [[|c]|] eqn:Ht; rewrite ?Hp; done.
Qed.

(** What [mkdir] with [exist_ok] leaves behind. *)
Lemma mkdir_exist_ok_result name p w r w' :
  parent_exists (w_fs w) p ->
  mkdir_exist_ok name p true w = (r, w') ->
  match r with
  | Ok _ => fs_lookup (w_fs w') p = Some Dir /\ parent_exists (w_fs w') p
  | Raise e => is_FileExistsError e = true -> fs_lookup (w_fs w') p ≠ None
  end.
Proof.
  intros Hpar. rewrite mkdir_exist_ok_true.
  destruct (fs_lookup (w_fs w) p) as [[|c]|] eqn:Hp.
  - intros [= <- <-]. done.
  - intros [= <- <-]. intros _. by rewrite Hp.
  - destruct (fs_lookup (w_fs w) (tail p)) as [[|c]|] eqn:Ht; intros [= <- <-]; try done.
    cbn [set_fs w_fs]. split.
    + destruct (fs_lookup_insert (w_fs w) p Dir) as [H|H]; exact H.
    + destruct p as [|c [|c' head]]; cbn [parent_exists]; try done.
      rewrite fs_lookup_insert_ne; [done|].
      intros Heq. apply (f_equal length) in Heq. cbn in Heq. lia.
Qed.

Lemma makedirs_path_unfold name c c' head exist_ok :
  makedirs_path name (c :: c' :: head) exist_ok
  = ((head_exists <- path_exists (c' :: head) ;;
      if head_exists then ret tt
      else try_pass is_FileExistsError (makedirs_path name (c' :: head) exist_ok)) ;;;
     mkdir_exist_ok name (c :: c' :: head) exist_ok).
Proof. reflexivity. Qed.

Lemma makedirs_path_result name p w r w' :
  makedirs_path name p true w = (r, w') ->
  match r with
  | Ok _ => fs_lookup (w_fs w') p = Some Dir /\ parent_exists (w_fs w') p
  | Raise e => is_FileExistsError e = true -> fs_lookup (w_fs w') p ≠ None
  end.
Proof.
  revert w r w'. induction p as [|c head IH]; intros w r w'.
  - cbn [makedirs_path bind ret]. by apply mkdir_exist_ok_result.
  - destruct head as [|c' head'].
    + cbn [makedirs_path bind ret]. by apply mkdir_exist_ok_result.
    + rewrite makedirs_path_unfold. unfold bind at 1. unfold bind at 1.
      unfold path_exists at 1.
      destruct (fs_lookup (w_fs w) (c' :: head')) as [n|] eqn:Hhead.
      * cbn [ret]. apply mkdir_exist_ok_result. cbn [parent_exists]. by rewrite Hhead.
      * unfold try_pass.
        destruct (makedirs_path name (c' :: head') true w) as [[[]|e] w1] eqn:Hrec.
        -- apply mkdir_exist_ok_result. cbn [parent_exists].
           destruct (IH _ _ _ Hrec) as [-> _]. done.
        -- pose proof (IH _ _ _ Hrec) as Hex. cbn beta iota in Hex.
           destruct (is_FileExistsError e) eqn:He.
           ++ apply mkdir_exist_ok_result. cbn [parent_exists]. by apply Hex.
           ++ intros [= <- <-]. intros He'. congruence.
Qed.

(** A directory that is there, below a directory that is there, is left
    alone. *)
Lemma makedirs_path_exists name p w :
  fs_lookup (w_fs w) p = Some Dir -> parent_exists (w_fs w) p ->
  makedirs_path name p true w = (Ok tt, w).
Proof.
  intros Hp Hpar.
  assert (Hfinal : mkdir_exist_ok name p true w = (Ok tt, w))
    by (by rewrite mkdir_exist_ok_true, Hp).
  destruct p as [|c [|c' head]]; [done | done |].
  rewrite makedirs_path_unfold.
  unfold bind at 1. unfold bind at 1. unfold path_exists at 1.
  cbn [parent_exists] in Hpar.
  destruct (fs_lookup (w_fs w) (c' :: head)); [done | congruence].
Qed.

(** C9: making the output directory a second time succeeds and changes
    nothing; the directory is in place. *)
Theorem makedirs_idempotent (name : string) (w w' : World) :
  os_makedirs name true w = (Ok tt, w') ->
  os_makedirs name true w' = (Ok tt, w')
  /\ fs_lookup (w_fs w') (resolve name) = Some Dir.
Proof.
  unfold os_makedirs. destruct (String.eqb name ""); [done|].
  intros H. pose proof (makedirs_path_result _ _ _ _ _ H) as [Hdir Hpar].
  split; [by apply makedirs_path_exists | done].
Qed.

Lemma makedirs_idempotent_witness :
  os_makedirs "./results/run1" true example_world
  = (Ok tt, set_fs {[ ["results"] := Dir; ["run1"; "results"] := Dir ]} 4096 example_world)
  /\ os_makedirs "./results/run1" true
       (set_fs {[ ["results"] := Dir; ["run1"; "results"] := Dir ]} 4096 example_world)
     = (Ok tt, set_fs {[ ["results"] := Dir; ["run1"; "results"] := Dir ]} 4096 example_world)
  /\ fs_lookup {[ ["results"] := Dir; ["run1"; "results"] := Dir ]}
       (resolve "./results/run1") = Some Dir.
Proof.
  assert (H : os_makedirs "./results/run1" true example_world
  = (Ok tt, set_fs {[ ["results"] := Dir; ["run1"; "results"] := Dir ]} 4096 example_world)).
  { vm_compute. reflexivity. }
  split; [exact H|].
  exact (makedirs_idempotent "./results/run1" example_world _ H).
Defined.

(** ** Strings *)

Lemma str_app_cons (x : ascii) (a b : string) :
  String x a +:+ b = String x (a +:+ b).
Proof. reflexivity. Qed.

Lemma str_app_nil_l (a : string) : "" +:+ a = a.
Proof. reflexivity. Qed.

Lemma str_app_assoc (a b c : string) : (a +:+ b) +:+ c = a +:+ (b +:+ c).
Proof. induction a as [|x a IH]; [done|]. rewrite !str_app_cons. by f_equal. Qed.

Lemma str_app_nil_r (a : string) : a +:+ "" = a.
Proof. induction a as [|x a IH]; [done|]. rewrite !str_app_cons. by f_equal. Qed.

Lemma str_length_app (a b : string) :
  String.length (a +:+ b) = (String.length a + String.length b)%nat.
Proof.
  induction a as [|x a IH]; [done|].
  rewrite str_app_cons. cbn [String.length]. by rewrite IH.
Qed.

Lemma take_str_all (n : nat) (a : string) :
  (String.length a <= n)%nat -> take_str n a = a.
Proof.
  revert n. induction a as [|x a IH]; intros [|n]; cbn [String.length take_str];
    intros H; try done; [lia|].
  rewrite IH; [done | lia].
Qed.

Lemma take_str_app_le (n : nat) (a b : string) :
  (String.length a <= n)%nat ->
  take_str n (a +:+ b) = a +:+ take_str (n - String.length a) b.
Proof.
  revert n. induction a as [|x a IH]; intros n; cbn [String.length]; intros H.
  - by rewrite !str_app_nil_l, Nat.sub_0_r.
  - destruct n as [|n]; [lia|]. rewrite !str_app_cons. cbn [take_str Nat.sub].
    rewrite IH; [done | lia].
Qed.

Lemma take_str_app_ge (n : nat) (a b : string) :
  (n <= String.length a)%nat -> take_str n (a +:+ b) = take_str n a.
Proof.
  revert n. induction a as [|x a IH]; intros [|n]; cbn [String.length];
    intros H; rewrite ?str_app_cons, ?str_app_nil_l; cbn [take_str]; try done.
  - lia.
  - rewrite IH; [done | lia].
Qed.

Lemma take_str_length (n : nat) (a : string) :
  String.length (take_str n a) = Nat.min n (String.length a).
Proof.
  revert n. induction a as [|x a IH]; intros [|n]; cbn; try done. by rewrite IH.
Qed.

(** ** Writing the report *)

Lemma set_fs_set_fs fs1 n1 fs2 n2 w :
  set_fs fs2 n2 (set_fs fs1 n1 w) = set_fs fs2 n2 w.
Proof. reflexivity. Qed.

(** Writing chunks to an open file appends their concatenation when the
    device has room for it, and as much of it as fits otherwise. *)
Lemma write_chunks (f : file) (chunks : list string) (content : string) (w : World) :
  w_fs w !! f_path f = Some (File content) ->
  for_each chunks (fun chunk => file_write f chunk) w =
  let doc := str_join chunks in
  if (String.length doc <=? w_disk_free w)%nat
  then (Ok tt, set_fs (<[f_path f := File (content +:+ doc)]> (w_fs w))
                      (w_disk_free w - String.length doc) w)
  else (Raise (NoSpaceError (f_name f)),
        set_fs (<[f_path f := File (content +:+ take_str (w_disk_free w) doc)]> (w_fs w))
               0 w).
Proof.
  revert content w. induction chunks as [|chunk chunks IH]; intros content w Hf.
  - cbn. rewrite str_app_nil_r, Nat.sub_0_r.
    rewrite insert_id by done. by destruct w.
  - cbn [for_each str_join fold_right]. fold (str_join chunks).
    unfold bind. unfold file_write at 1. rewrite Hf.
    rewrite str_length_app.
    destruct (String.length chunk <=? w_disk_free w)%nat eqn:Hfit.
    + apply Nat.leb_le in Hfit.
      rewrite (IH (content +:+ chunk)) by (cbn; apply lookup_insert_eq).
      cbn [set_fs w_fs w_disk_free]. cbv zeta.
      rewrite !insert_insert_eq, !set_fs_set_fs.
      destruct (String.length (str_join chunks) <=? w_disk_free w - String.length chunk)%nat eqn:Hrest.
      * apply Nat.leb_le in Hrest.
        destruct (Nat.leb_spec (String.length chunk + String.length (str_join chunks))
                    (w_disk_free w)) as [_|Hlt]; [|lia].
        rewrite str_app_assoc. do 2 f_equal. lia.
      * apply Nat.leb_gt in Hrest.
        destruct (Nat.leb_spec (String.length chunk + String.length (str_join chunks))
                    (w_disk_free w)) as [Hle|_]; [lia|].
        rewrite take_str_app_le by done. by rewrite str_app_assoc.
    + apply Nat.leb_gt in Hfit.
      destruct (Nat.leb_spec (String.length chunk + String.length (str_join chunks))
                  (w_disk_free w)) as [Hle|_]; [lia|].
      rewrite take_str_app_ge by lia. done.
Qed.


Lemma preserves_ret {A X : Type} (proj : World -> X) (a : A) : preserves proj (ret a).
Proof. by intros w. Qed.

Lemma preserves_raise {A X : Type} (proj : World -> X) e : preserves proj (@raise A e).
Proof. by intros w. Qed.

Lemma preserves_bind {A B X : Type} (proj : World -> X) (m : M A) (f : A -> M B) :
  preserves proj m -> (forall a, preserves proj (f a)) -> preserves proj (bind m f).
Proof.
  intros Hm Hf w. unfold bind. specialize (Hm w).
  destruct (m w) as [[a|e] w1]; cbn [snd] in *; [|done].
  by rewrite (Hf a w1).
Qed.

Lemma preserves_for_each {A X : Type} (proj : World -> X) (xs : list A) body :
  (forall x, preserves proj (body x)) -> preserves proj (for_each xs body).
Proof.
  intros Hb. induction xs as [|x xs IH]; cbn [for_each].
  - apply preserves_ret.
  - apply preserves_bind; [apply Hb | by intros _].
Qed.

Lemma summary_line_pure experiment results w :
  snd (summary_line experiment results w) = w.
Proof.
  unfold summary_line, subscript.
  destruct results as [b|z|us|s|items]; try done.
  unfold bind at 1.
  destruct (dict_get "completed" items) as [c|]; [|done]. cbn [ret].
  unfold bind at 1.
  destruct (dict_get "duration" items) as [d|]; [|done]. cbn [ret].
  unfold bind. destruct d; done.
Qed.

(** The log record and the summary leave the file system alone. *)
Lemma report_summary_fs report_path experiment_results :
  preserves w_fs (report_summary report_path experiment_results).
Proof.
  unfold report_summary.
  repeat (apply preserves_bind; [|intros _]); try (by intros w).
  apply preserves_for_each. intros [experiment results].
  apply preserves_bind; [|by intros line w].
  intros w. by rewrite summary_line_pure.
Qed.

Lemma generate_report_unfold config experiment_results :
  generate_report config experiment_results =
  (with_open_w (os_path_join (output_dir config) "experiment_report.json")
     (fun f => json_dump (report_of config experiment_results) f 4) ;;;
   report_summary (os_path_join (output_dir config) "experiment_report.json")
     experiment_results).
Proof. reflexivity. Qed.

Lemma open_w_cases name w :
  (exists e, open_w name w = (Raise e, w) /\ is_IOError e = true)
  \/ open_w name w =
       (Ok {| f_name := name; f_path := resolve name |},
        set_fs (<[resolve name := File ""]> (w_fs w)) (w_disk_free w) w).
Proof.
  unfold open_w. destruct (String.eqb name ""); [left; by eexists|].
  destruct (fs_lookup (w_fs w) (resolve name)) as [[|c]|]; [left; by eexists | by right |].
  destruct (fs_lookup (w_fs w) (tail (resolve name))) as [[|c]|];
    [by right | left; by eexists | left; by eexists].
Qed.

(** Dumping into a file that was just opened. *)
Lemma json_dump_fresh o name p indent fs w :
  json_dump o {| f_name := name; f_path := p |} indent
    (set_fs (<[p := File ""]> fs) (w_disk_free w) w) =
  if (String.length (json_dumps indent o) <=? w_disk_free w)%nat
  then (Ok tt, set_fs (<[p := File (json_dumps indent o)]> fs)
                      (w_disk_free w - String.length (json_dumps indent o)) w)
  else (Raise (NoSpaceError name),
        set_fs (<[p := File (take_str (w_disk_free w) (json_dumps indent o))]> fs) 0 w).
Proof.
  unfold json_dump.
  rewrite (write_chunks _ _ "") by (cbn; apply lookup_insert_eq).
  cbn [set_fs w_fs w_disk_free f_path f_name]. cbv zeta. fold (json_dumps indent o).
  by rewrite !insert_insert_eq, !str_app_nil_l.
Qed.

(** C3, as amended: [generate_report] writes the report in place.  After
    it either the complete document is at the report path, or it failed
    with an [IOError]-class exception; in that case either the file system
    is as it was (the file could not be opened) or the file at the report
    path holds only the part of the document that the device had room for,
    a proper prefix, and whatever report was there before is gone. *)
Theorem report_write_not_atomic config experiment_results w :
  let run := generate_report config experiment_results w in
  w_fs (snd run)
    = <[report_entry config := File (report_text config experiment_results)]> (w_fs w)
  \/ exists e, fst run = Raise e /\ is_IOError e = true
       /\ (w_fs (snd run) = w_fs w
           \/ (w_disk_free w < String.length (report_text config experiment_results))%nat
              /\ w_fs (snd run)
                 = <[report_entry config :=
                       File (take_str (w_disk_free w)
                               (report_text config experiment_results))]> (w_fs w)).
Proof.
  cbv zeta. rewrite generate_report_unfold. unfold with_open_w.
  set (name := os_path_join (output_dir config) "experiment_report.json").
  destruct (open_w_cases name w) as [(e & Hopen & He)|Hopen].
  - rewrite (bind_raise _ _ _ _ _ (bind_raise _ _ _ _ _ Hopen)).
    right. exists e. cbn [fst snd]. split_and!; [done | done | by left].
  - pose proof (bind_ok _ (fun f => json_dump (report_of config experiment_results) f 4)
                  _ _ _ Hopen) as Hdump.
    cbv beta in Hdump. rewrite json_dump_fresh in Hdump. fold (report_text config experiment_results) in Hdump.
    destruct (Nat.leb_spec (String.length (report_text config experiment_results))
                (w_disk_free w)) as [Hle|Hlt].
    + left. rewrite (bind_ok _ _ _ _ _ Hdump). by rewrite report_summary_fs.
    + right. rewrite (bind_raise _ _ _ _ _ Hdump).
      eexists. cbn [fst snd]. split_and!; [done | done |]. by right.
Qed.

(** C3, as the specification states it, fails: on a device with room for
    20 characters [generate_report] fails with an [IOError]-class
    exception and leaves at the report path the first 20 characters of the
    document, which is no JSON document, in place of the earlier report. *)
Lemma report_left_truncated :
  let run := generate_report example_config [] crowded_world in
  w_fs crowded_world !! report_entry example_config = Some (File "earlier report")
  /\ fst run = Raise (NoSpaceError "./results/experiment_report.json")
  /\ is_IOError (NoSpaceError "./results/experiment_report.json") = true
  /\ w_fs (snd run) !! report_entry example_config
     = Some (File (take_str 20 (report_text example_config [])))
  /\ String.length (take_str 20 (report_text example_config [])) = 20%nat
  /\ String.length (report_text example_config []) = 226%nat
  /\ json_loads (take_str 20 (report_text example_config [])) = None.
Proof.
  split_and!; vm_compute; reflexivity.
Qed.

(** ** The configuration a run works with *)

Lemma preserves_try_pass {X : Type} (proj : World -> X) handles m :
  preserves proj m -> preserves proj (try_pass handles m).
Proof.
  intros Hm w. unfold try_pass. specialize (Hm w).
  destruct (m w) as [[a|e] w1]; [done|]. by destruct (handles e).
Qed.

Lemma mkdir_exist_ok_calls name p exist_ok :
  preserves w_calls (mkdir_exist_ok name p exist_ok).
Proof.
  intros w. unfold mkdir_exist_ok, os_mkdir, path_isdir.
  destruct (fs_lookup (w_fs w) p) as [[|c]|] eqn:Hp; cbn [negb snd]; rewrite ?Hp.
  - by destruct exist_ok.
  - by destruct exist_ok.
  - destruct (fs_lookup (w_fs w) (tail p)) as [[|c]|]; try done;
      destruct exist_ok; cbn [negb snd]; rewrite ?Hp; done.
Qed.

Lemma makedirs_path_calls name p exist_ok :
  preserves w_calls (makedirs_path name p exist_ok).
Proof.
  induction p as [|c head IH].
  - apply preserves_bind; [by intros w | intros _; apply mkdir_exist_ok_calls].
  - destruct head as [|c' head'].
    + apply preserves_bind; [by intros w | intros _; apply mkdir_exist_ok_calls].
    + rewrite makedirs_path_unfold.
      apply preserves_bind; [|intros _; apply mkdir_exist_ok_calls].
      apply preserves_bind; [by intros w|]. intros [|]; [by intros w|].
      by apply preserves_try_pass.
Qed.

Lemma os_makedirs_calls name exist_ok : preserves w_calls (os_makedirs name exist_ok).
Proof.
  unfold os_makedirs. destruct (String.eqb name ""); [by intros w|].
  apply makedirs_path_calls.
Qed.

Lemma file_write_calls f chunk : preserves w_calls (file_write f chunk).
Proof.
  intros w. unfold file_write.
  destruct (w_fs w !! f_path f) as [[|content]|]; try done.
  by destruct (String.length chunk <=? w_disk_free w)%nat.
Qed.

Lemma generate_report_calls config experiment_results :
  preserves w_calls (generate_report config experiment_results).
Proof.
  rewrite generate_report_unfold. apply preserves_bind; [|intros _].
  - unfold with_open_w. apply preserves_bind.
    + intros w.
      destruct (open_w_cases (os_path_join (output_dir config) "experiment_report.json") w)
        as [(e & -> & _)| ->]; done.
    + intros f. unfold json_dump. apply preserves_for_each. intros chunk.
      apply file_write_calls.
  - unfold report_summary.
    repeat (apply preserves_bind; [|intros _]); try (by intros w).
    apply preserves_for_each. intros [experiment results].
    apply preserves_bind; [|by intros line w].
    intros w. by rewrite summary_line_pure.
Qed.

Section Configuration.

Variable R : experiment_runner.

Lemma run_experiments_calls config experiments w :
  exists n,
    w_calls (snd (run_experiments R config experiments w))
    = w_calls w ++ map (pair config) (take n experiments).
Proof.
  unfold run_experiments.
  destruct (first_raise R config (runner_init R config) experiments) as [[n err]|] eqn:Hf.
  - destruct (run_loop_raise R (ForgettingExperimentRunner R config) experiments [] w n err Hf)
      as (w' & -> & Hst).
    exists (S n). cbn [snd]. by destruct Hst as (_ & _ & -> & _).
  - destruct (run_loop_ok R (ForgettingExperimentRunner R config) experiments [] w Hf)
      as (w' & -> & Hst).
    exists (length experiments). rewrite firstn_all. cbn [snd].
    by destruct Hst as (_ & _ & -> & _).
Qed.


End Configuration.

(** ** Decimal digits *)

Lemma below_ten (d : N) :
  (d < 10)%N -> d ∈ [0; 1; 2; 3; 4; 5; 6; 7; 8; 9]%N.
Proof.
  intros H.
  assert (d = 0 \/ d = 1 \/ d = 2 \/ d = 3 \/ d = 4 \/ d = 5 \/ d = 6 \/ d = 7
          \/ d = 8 \/ d = 9)%N as Hd by lia.
  repeat (destruct Hd as [->|Hd]; [repeat (first [left | right])|]).
  subst. repeat (first [left | right]).
Qed.

Lemma digit_char_is_digit (d : N) : (d < 10)%N -> is_digit (digit_char d) = true.
Proof.
  intros Hc%below_ten.
  repeat (apply elem_of_cons in Hc as [->|Hc]; [reflexivity|]). by apply elem_of_nil in Hc.
Qed.

Lemma digit_val_char (d : N) : (d < 10)%N -> digit_val (digit_char d) = d.
Proof.
  intros Hc%below_ten.
  repeat (apply elem_of_cons in Hc as [->|Hc]; [reflexivity|]). by apply elem_of_nil in Hc.
Qed.

Lemma all_digits_app (a b : string) :
  all_digits (a +:+ b) = all_digits a && all_digits b.
Proof.
  induction a as [|x a IH]; [done|].
  rewrite str_app_cons. cbn [all_digits]. by rewrite IH, andb_assoc.
Qed.

Lemma digits_acc_app (acc : N) (a b : string) :
  digits_acc acc (a +:+ b) = digits_acc (digits_acc acc a) b.
Proof.
  revert acc. induction a as [|x a IH]; intros acc; [done|].
  rewrite str_app_cons. cbn [digits_acc]. apply IH.
Qed.

Lemma fixed_digits_all (k : nat) (n : N) : all_digits (fixed_digits k n) = true.
Proof.
  revert n. induction k as [|k IH]; intros n; [done|].
  cbn [fixed_digits]. rewrite all_digits_app, IH. cbn [all_digits str1].
  rewrite digit_char_is_digit; [done|]. apply N.mod_lt. done.
Qed.

Lemma fixed_digits_length (k : nat) (n : N) : String.length (fixed_digits k n) = k.
Proof.
  revert n. induction k as [|k IH]; intros n; [done|].
  cbn [fixed_digits]. rewrite str_length_app, IH. cbn. lia.
Qed.

Lemma fixed_digits_value (k : nat) (acc n : N) :
  digits_acc acc (fixed_digits k n) = (acc * 10 ^ N.of_nat k + n mod 10 ^ N.of_nat k)%N.
Proof.
  revert acc n. induction k as [|k IH]; intros acc n.
  - cbn [fixed_digits digits_acc N.of_nat]. rewrite N.pow_0_r, N.mod_1_r. lia.
  - cbn [fixed_digits]. rewrite digits_acc_app, IH. cbn [digits_acc str1].
    rewrite digit_val_char by (by apply N.mod_lt).
    rewrite Nat2N.inj_succ, N.pow_succ_r'.
    rewrite (N.Div0.mod_mul_r n 10 (10 ^ N.of_nat k)). lia.
Qed.

Lemma lstrip_zeros_all (s : string) : all_digits s = true -> all_digits (lstrip_zeros s) = true.
Proof.
  induction s as [|c s IH]; [done|]. intros H.
  cbn [lstrip_zeros]. destruct s as [|c' s']; [done|].
  destruct (Ascii.eqb c "0"); [|done].
  apply IH. cbn [all_digits] in H. by apply andb_prop in H as [_ H].
Qed.

Lemma lstrip_zeros_value (s : string) : digits_acc 0 (lstrip_zeros s) = digits_acc 0 s.
Proof.
  induction s as [|c s IH]; [done|].
  cbn [lstrip_zeros]. destruct s as [|c' s']; [done|].
  destruct (Ascii.eqb_spec c "0") as [->|]; [|done].
  rewrite IH. reflexivity.
Qed.

Lemma lstrip_zeros_nonempty (s : string) : s ≠ "" -> lstrip_zeros s ≠ "".
Proof.
  induction s as [|c s IH]; [done|]. intros _.
  cbn [lstrip_zeros]. destruct s as [|c' s']; [done|].
  destruct (Ascii.eqb c "0"); [by apply IH | done].
Qed.

Lemma lstrip_zeros_leading (s : string) : leading_zero (lstrip_zeros s) = false.
Proof.
  induction s as [|c s IH]; [done|].
  cbn [lstrip_zeros]. destruct s as [|c' s']; [done|].
  destruct (Ascii.eqb c "0") eqn:E; [done|]. cbn [leading_zero]. done.
Qed.

Lemma string_of_N_all (n : N) : all_digits (string_of_N n) = true.
Proof. apply lstrip_zeros_all, fixed_digits_all. Qed.

Lemma string_of_N_nonempty (n : N) : string_of_N n ≠ "".
Proof.
  apply lstrip_zeros_nonempty. intros H. apply (f_equal String.length) in H.
  by rewrite fixed_digits_length in H.
Qed.

Lemma string_of_N_leading (n : N) : leading_zero (string_of_N n) = false.
Proof. apply lstrip_zeros_leading. Qed.

Lemma string_of_N_value (n : N) : digits_acc 0 (string_of_N n) = n.
Proof.
  unfold string_of_N. rewrite lstrip_zeros_value, fixed_digits_value.
  rewrite N.mul_0_l, N.add_0_l. apply N.mod_small.
  rewrite Nat2N.inj_succ, N2Nat.id.
  destruct (N.eq_dec n 0%N) as [->|Hn]; [done|].
  pose proof (N.log2_spec n ltac:(lia)) as [_ Hlt].
  eapply N.lt_le_trans; [exact Hlt|].
  apply N.pow_le_mono_l. lia.
Qed.

(** ** Reading numbers back *)

Lemma ends_number_not_digit (rest : string) :
  ends_number rest = true -> span_digits rest = ("", rest).
Proof.
  destruct rest as [|c r]; [done|]. cbn [ends_number span_digits].
  destruct (is_digit c); [done | done].
Qed.

Lemma span_digits_app (ds rest : string) :
  all_digits ds = true -> span_digits rest = ("", rest) ->
  span_digits (ds +:+ rest) = (ds, rest).
Proof.
  intros Hds Hrest. induction ds as [|c ds IH]; [done|].
  cbn [all_digits] in Hds. apply andb_prop in Hds as [Hc Hds].
  rewrite str_app_cons. cbn [span_digits]. rewrite Hc, (IH Hds). done.
Qed.

Lemma span_digits_stop (c : ascii) (r : string) :
  is_digit c = false -> span_digits (String c r) = ("", String c r).
Proof. intros H. cbn [span_digits]. by rewrite H. Qed.

Lemma scan_frac_none (rest : string) :
  ends_number rest = true -> scan_frac rest = (None, rest).
Proof.
  destruct rest as [|c r]; [done|]. cbn [ends_number scan_frac].
  destruct (Ascii.eqb c "."); [|done]. by rewrite !andb_false_r.
Qed.

Lemma scan_exp_none (rest : string) :
  ends_number rest = true -> scan_exp rest = (None, rest).
Proof.
  destruct rest as [|c r]; [done|]. cbn [ends_number scan_exp].
  destruct (Ascii.eqb c "e"), (Ascii.eqb c "E"); rewrite ?andb_false_r; done.
Qed.

Lemma string_eqb_nonempty (s : string) : s ≠ "" -> String.eqb s "" = false.
Proof. intros H. by apply String.eqb_neq. Qed.

Lemma string_of_N_first (n : N) :
  exists c r, string_of_N n = String c r /\ is_digit c = true.
Proof.
  pose proof (string_of_N_nonempty n) as Hne. pose proof (string_of_N_all n) as Hall.
  destruct (string_of_N n) as [|c r]; [done|]. exists c, r. split; [done|].
  cbn [all_digits] in Hall. by apply andb_prop in Hall as [? _].
Qed.

Lemma digit_not_minus (c : ascii) : is_digit c = true -> Ascii.eqb c "-" = false.
Proof.
  intros H. destruct (Ascii.eqb_spec c "-") as [->|]; [done | done].
Qed.

Lemma scan_sign_digits (n : N) (rest : string) :
  scan_sign (string_of_N n +:+ rest) = (false, string_of_N n +:+ rest).
Proof.
  destruct (string_of_N_first n) as (c & r & -> & Hc).
  rewrite str_app_cons. cbn [scan_sign]. by rewrite digit_not_minus.
Qed.

Lemma scan_number_pieces s neg s1 ip s2 fp s3 ex s4 :
  scan_sign s = (neg, s1) -> span_digits s1 = (ip, s2) ->
  ip ≠ "" -> leading_zero ip = false ->
  scan_frac s2 = (fp, s3) -> scan_exp s3 = (ex, s4) ->
  scan_number s = match number_value neg ip fp ex with
                  | Some v => Some (v, s4)
                  | None => None
                  end.
Proof.
  intros H1 H2 H3 H4 H5 H6. unfold scan_number.
  rewrite H1, H2, (string_eqb_nonempty _ H3), H4. cbn [orb]. by rewrite H5, H6.
Qed.

Lemma scan_sign_minus (a rest : string) :
  scan_sign (("-" +:+ a) +:+ rest) = (true, a +:+ rest).
Proof. reflexivity. Qed.

Lemma scan_number_int (z : Z) (rest : string) :
  ends_number rest = true ->
  scan_number (int_repr z +:+ rest) = Some (PyInt z, rest).
Proof.
  intros Hrest. unfold int_repr.
  assert (Hspan : span_digits (string_of_N (Z.abs_N z) +:+ rest)
                  = (string_of_N (Z.abs_N z), rest)).
  { apply span_digits_app; [apply string_of_N_all | by apply ends_number_not_digit]. }
  destruct (Z.ltb_spec z 0) as [Hneg|Hpos].
  - rewrite (scan_number_pieces _ _ _ _ _ _ _ _ _ (scan_sign_minus _ _) Hspan
               (string_of_N_nonempty _) (string_of_N_leading _)
               (scan_frac_none _ Hrest) (scan_exp_none _ Hrest)).
    unfold number_value. rewrite string_of_N_value. do 3 f_equal. lia.
  - rewrite str_app_nil_l.
    rewrite (scan_number_pieces _ _ _ _ _ _ _ _ _ (scan_sign_digits _ _) Hspan
               (string_of_N_nonempty _) (string_of_N_leading _)
               (scan_frac_none _ Hrest) (scan_exp_none _ Hrest)).
    unfold number_value. rewrite string_of_N_value. do 3 f_equal. lia.
Qed.

Lemma rstrip_zeros_all (s : string) :
  all_digits s = true -> all_digits (rstrip_zeros s) = true.
Proof.
  induction s as [|c s IH]; [done|]. cbn [all_digits rstrip_zeros].
  intros [Hc Hs]%andb_prop. specialize (IH Hs).
  destruct (rstrip_zeros s) as [|c' r].
  - destruct (Ascii.eqb c "0"); [done|]. cbn [all_digits str1]. by rewrite Hc.
  - cbn [all_digits] in *. by rewrite Hc, IH.
Qed.

Lemma rstrip_zeros_length (s : string) :
  (String.length (rstrip_zeros s) <= String.length s)%nat.
Proof.
  induction s as [|c s IH]; [done|]. cbn [rstrip_zeros].
  destruct (rstrip_zeros s) as [|c' r].
  - destruct (Ascii.eqb c "0"); cbn; lia.
  - cbn [String.length] in *. lia.
Qed.

(** Dropping trailing zeros divides by the matching power of ten. *)
Lemma rstrip_zeros_value (acc : N) (s : string) :
  digits_acc acc s
  = (digits_acc acc (rstrip_zeros s)
     * 10 ^ N.of_nat (String.length s - String.length (rstrip_zeros s)))%N.
Proof.
  revert acc. induction s as [|c s IH]; intros acc.
  - cbn. lia.
  - cbn [digits_acc rstrip_zeros]. rewrite IH.
    pose proof (rstrip_zeros_length s) as Hlen.
    destruct (rstrip_zeros s) as [|c' r].
    + cbn [digits_acc String.length] in *. rewrite Nat.sub_0_r.
      destruct (Ascii.eqb_spec c "0") as [->|Hc].
      * cbn [digits_acc String.length]. rewrite Nat.sub_0_r, Nat2N.inj_succ, N.pow_succ_r'.
        change (digit_val "0") with 0%N. lia.
      * cbn [digits_acc str1 String.length].
        replace (S (String.length s) - 1)%nat with (String.length s) by lia. done.
    + cbn [digits_acc String.length] in *.
      replace (S (String.length s) - S (S (String.length r)))%nat
        with (String.length s - S (String.length r))%nat by lia. done.
Qed.

Lemma frac_digits_all (f : N) : all_digits (frac_digits f) = true.
Proof.
  unfold frac_digits.
  pose proof (rstrip_zeros_all _ (fixed_digits_all 6 f)) as H.
  by destruct (rstrip_zeros (fixed_digits 6 f)).
Qed.

Lemma frac_digits_nonempty (f : N) : frac_digits f ≠ "".
Proof. unfold frac_digits. by destruct (rstrip_zeros (fixed_digits 6 f)). Qed.

Lemma frac_digits_length (f : N) : (String.length (frac_digits f) <= 6)%nat.
Proof.
  unfold frac_digits.
  pose proof (rstrip_zeros_length (fixed_digits 6 f)) as H.
  rewrite fixed_digits_length in H.
  destruct (rstrip_zeros (fixed_digits 6 f)); cbn [String.length] in *; lia.
Qed.

(** The fraction digits, read after an integer part worth [acc], and
    scaled to microseconds. *)
Lemma frac_digits_value (acc f : N) :
  (f < 1000000)%N ->
  (digits_acc acc (frac_digits f) * 10 ^ N.of_nat (6 - String.length (frac_digits f))
   = acc * 1000000 + f)%N.
Proof.
  intros Hf. unfold frac_digits.
  pose proof (rstrip_zeros_value acc (fixed_digits 6 f)) as Hv.
  rewrite fixed_digits_value, fixed_digits_length in Hv.
  rewrite (N.mod_small f) in Hv by (cbn; lia).
  change (10 ^ N.of_nat 6)%N with 1000000%N in Hv.
  destruct (rstrip_zeros (fixed_digits 6 f)) as [|c r].
  - cbn [digits_acc String.length] in *. change (digit_val "0") with 0%N.
    change (10 ^ N.of_nat (6 - 0))%N with 1000000%N in Hv.
    change (10 ^ N.of_nat (6 - 1))%N with 100000%N. lia.
  - by rewrite Hv.
Qed.

Lemma span_digits_one (d : N) (c : ascii) (r : string) :
  (d < 10)%N -> is_digit c = false ->
  span_digits (str1 (digit_char d) +:+ String c r) = (str1 (digit_char d), String c r).
Proof.
  intros Hd Hc. apply span_digits_app.
  - cbn [all_digits str1]. by rewrite digit_char_is_digit.
  - by apply span_digits_stop.
Qed.

Lemma scan_exp_minus (k : ascii) (rest : string) :
  is_digit k = true -> ends_number rest = true ->
  scan_exp ("e-0" +:+ String k rest) = (Some (true, String "0" (str1 k)), rest).
Proof.
  intros Hk Hrest.
  change ("e-0" +:+ String k rest) with (String "e" (String "-" (String "0" (String k rest)))).
  cbn [scan_exp Ascii.eqb Bool.eqb orb].
  change (String "0" (String k rest)) with (String "0" (str1 k) +:+ rest).
  rewrite span_digits_app; [done | | by apply ends_number_not_digit].
  cbn [all_digits str1]. by rewrite Hk.
Qed.

Lemma digits_acc_one (acc d : N) :
  (d < 10)%N -> digits_acc acc (str1 (digit_char d)) = (acc * 10 + d)%N.
Proof. intros H. cbn [digits_acc str1]. by rewrite digit_val_char. Qed.

(** The three shapes of a float below [1e-4]. *)
Lemma scan_number_sci (m : N) (neg : bool) (s rest : string) :
  (0 < m < 100)%N -> ends_number rest = true ->
  scan_sign s = (neg, sci_small m +:+ rest) ->
  scan_number s = Some (PyFloat ((if neg then (-1) else 1) * Z.of_N m), rest).
Proof.
  intros Hm Hrest Hsign. unfold sci_small in Hsign.
  assert (Hq : (m / 10 < 10)%N) by (apply N.Div0.div_lt_upper_bound; lia).
  assert (Hr : (m mod 10 < 10)%N) by (by apply N.mod_lt).
  pose proof (N.div_mod m 10 ltac:(done)) as Hdm.
  destruct (N.ltb_spec m 10) as [Hlt|Hge].
  - rewrite str_app_assoc in Hsign.
    rewrite (scan_number_pieces _ _ _ _ _ None _ _ _ Hsign
               (span_digits_one m "e" _ Hlt eq_refl) ltac:(done) eq_refl eq_refl
               (scan_exp_minus "6" rest eq_refl Hrest)).
    unfold number_value, float_of_decimal.
    rewrite str_app_nil_r, digits_acc_one by done.
    change (String.eqb (String "0" (str1 "6")) "") with false. cbv iota.
    change (-1 * Z.of_N (digits_acc 0 (String "0" (str1 "6"))) + 6 - Z.of_nat (String.length ""))
      with 0.
    cbn [Z.leb Z.compare Z.pow]. do 3 f_equal. lia.
  - destruct (N.eqb_spec (m mod 10) 0) as [Hz|Hnz].
    + rewrite str_app_assoc in Hsign.
      rewrite (scan_number_pieces _ _ _ _ _ None _ _ _ Hsign
                 (span_digits_one (m / 10) "e" _ Hq eq_refl) ltac:(done) eq_refl eq_refl
                 (scan_exp_minus "5" rest eq_refl Hrest)).
      unfold number_value, float_of_decimal.
      rewrite str_app_nil_r, digits_acc_one by done.
      change (String.eqb (String "0" (str1 "5")) "") with false. cbv iota.
      change (-1 * Z.of_N (digits_acc 0 (String "0" (str1 "5"))) + 6 - Z.of_nat (String.length ""))
        with 1.
      change (0 <=? 1) with true. cbv iota. change (10 ^ 1) with 10.
      do 3 f_equal. lia.
    + rewrite !str_app_assoc in Hsign.
      assert (Hfrac : scan_frac ("." +:+ str1 (digit_char (m mod 10)) +:+ "e-05" +:+ rest)
                      = (Some (str1 (digit_char (m mod 10))), "e-05" +:+ rest)).
      { change ("." +:+ ?x) with (String "." x). cbn [scan_frac Ascii.eqb Bool.eqb].
        change ("e-05" +:+ rest) with (String "e" ("-05" +:+ rest)).
        by rewrite (span_digits_one (m mod 10) "e" _ Hr eq_refl). }
      rewrite (scan_number_pieces _ _ _ _ _ _ _ _ _ Hsign
                 (span_digits_one (m / 10) "." _ Hq eq_refl) ltac:(done) eq_refl Hfrac
                 (scan_exp_minus "5" rest eq_refl Hrest)).
      unfold number_value, float_of_decimal.
      rewrite digits_acc_app, !digits_acc_one by done.
      change (String.eqb (str1 ?c) "") with false.
      change (String.eqb (String "0" (str1 "5")) "") with false. cbv iota.
      change (-1 * Z.of_N (digits_acc 0 (String "0" (str1 "5"))) + 6
              - Z.of_nat (String.length (str1 (digit_char (m mod 10)))))
        with 0.
      cbn [Z.leb Z.compare Z.pow]. do 3 f_equal. lia.
Qed.

(** A float from [1e-4] on, or zero: integer digits, point, fraction. *)
Lemma scan_number_positional (m : N) (neg : bool) (s rest : string) :
  ends_number rest = true ->
  scan_sign s
  = (neg, (string_of_N (m / 1000000) +:+ "." +:+ frac_digits (m mod 1000000)) +:+ rest) ->
  scan_number s = Some (PyFloat ((if neg then (-1) else 1) * Z.of_N m), rest).
Proof.
  intros Hrest Hsign. rewrite !str_app_assoc in Hsign.
  assert (Hspan : span_digits (string_of_N (m / 1000000) +:+ "." +:+
                               frac_digits (m mod 1000000) +:+ rest)
                  = (string_of_N (m / 1000000),
                     String "." (frac_digits (m mod 1000000) +:+ rest))).
  { apply span_digits_app; [apply string_of_N_all | done]. }
  assert (Hfrac : scan_frac (String "." (frac_digits (m mod 1000000) +:+ rest))
                  = (Some (frac_digits (m mod 1000000)), rest)).
  { cbn [scan_frac Ascii.eqb Bool.eqb].
    rewrite span_digits_app;
      [done | apply frac_digits_all | by apply ends_number_not_digit]. }
  rewrite (scan_number_pieces _ _ _ _ _ _ _ _ _ Hsign Hspan
             (string_of_N_nonempty _) (string_of_N_leading _) Hfrac
             (scan_exp_none _ Hrest)).
  unfold number_value, float_of_decimal.
  rewrite (string_eqb_nonempty _ (frac_digits_nonempty _)).
  pose proof (frac_digits_length (m mod 1000000)) as Hlen.
  pose proof (frac_digits_value (m / 1000000) (m mod 1000000)
                ltac:(by apply N.mod_lt)) as Hval.
  rewrite digits_acc_app, string_of_N_value.
  destruct (Z.leb_spec 0 (0 + 6 - Z.of_nat (String.length (frac_digits (m mod 1000000)))))
    as [_|Hneg]; [|lia].
  do 3 f_equal.
  replace (0 + 6 - Z.of_nat (String.length (frac_digits (m mod 1000000))))
    with (Z.of_N (N.of_nat (6 - String.length (frac_digits (m mod 1000000))))) by lia.
  change 10 with (Z.of_N 10) at 1. rewrite <- N2Z.inj_pow, <- N2Z.inj_mul, Hval.
  pose proof (N.div_mod m 1000000 ltac:(done)). lia.
Qed.

Lemma digits_acc_bound (acc : N) (s : string) :
  all_digits s = true ->
  (digits_acc acc s < (acc + 1) * 10 ^ N.of_nat (String.length s))%N.
Proof.
  revert acc. induction s as [|c s IH]; intros acc Hs.
  - cbn. lia.
  - cbn [all_digits] in Hs. apply andb_prop in Hs as [Hc Hs].
    cbn [digits_acc String.length]. specialize (IH (acc * 10 + digit_val c)%N Hs).
    rewrite Nat2N.inj_succ, N.pow_succ_r'.
    assert (digit_val c < 10)%N.
    { unfold is_digit in Hc. unfold digit_val.
      apply andb_prop in Hc as [H1%N.leb_le H2%N.leb_le]. lia. }
    nia.
Qed.

Lemma scan_exp_plus (e : N) (rest : string) :
  ends_number rest = true ->
  scan_exp ("e+" +:+ string_of_N e +:+ rest) = (Some (false, string_of_N e), rest).
Proof.
  intros Hrest.
  change ("e+" +:+ ?x) with (String "e" (String "+" x)).
  cbn [scan_exp Ascii.eqb Bool.eqb orb].
  rewrite span_digits_app;
    [done | apply string_of_N_all | by apply ends_number_not_digit].
Qed.

(** A float from [1e16] on. *)
Lemma scan_number_large (m : N) (neg : bool) (s rest : string) :
  (10 ^ 22 <= m)%N -> ends_number rest = true ->
  scan_sign s = (neg, sci_large m +:+ rest) ->
  scan_number s = Some (PyFloat ((if neg then (-1) else 1) * Z.of_N m), rest).
Proof.
  intros Hm Hrest Hsign. unfold sci_large in Hsign. cbv zeta in Hsign.
  pose proof (string_of_N_all m) as Hall.
  pose proof (string_of_N_value m) as Hval.
  pose proof (digits_acc_bound 0 _ Hall) as Hbound. rewrite Hval in Hbound.
  pose proof (rstrip_zeros_value 0 (string_of_N m)) as Hstrip. rewrite Hval in Hstrip.
  pose proof (rstrip_zeros_all _ Hall) as Hsig.
  pose proof (rstrip_zeros_length (string_of_N m)) as Hlen.
  set (ds := string_of_N m) in *. set (k := String.length ds) in *.
  assert (Hk : (23 <= k)%nat).
  { destruct (Nat.le_gt_cases 23 k) as [|Hlt]; [done|]. exfalso.
    assert (10 ^ N.of_nat k <= 10 ^ 22)%N by (apply N.pow_le_mono_r; lia). lia. }
  destruct (rstrip_zeros ds) as [|d sig] eqn:Hrs.
  { cbn [digits_acc] in Hstrip. lia. }
  cbn [all_digits] in Hsig. apply andb_prop in Hsig as [Hd Hsig].
  cbn [String.length] in Hlen.
  assert (Hexp : scan_exp ("e+" +:+ string_of_N (N.of_nat k - 7) +:+ rest)
                 = (Some (false, string_of_N (N.of_nat k - 7)), rest))
    by (by apply scan_exp_plus).
  assert (Hvalue : forall fp,
    (fp = None /\ sig = "" \/ fp = Some sig /\ sig ≠ "") ->
    number_value neg (str1 d) fp (Some (false, string_of_N (N.of_nat k - 7)))
    = Some (PyFloat ((if neg then -1 else 1) * Z.of_N m))).
  { intros fp Hfp. unfold number_value, float_of_decimal.
    rewrite (string_eqb_nonempty _ (string_of_N_nonempty _)), string_of_N_value.
    assert (Hf : match fp with Some f => f | None => "" end = sig)
      by (destruct Hfp as [[-> ->]|[-> _]]; done).
    rewrite Hf.
    assert (Hne : match fp with Some f' => String.eqb f' "" | None => false end = false).
    { destruct Hfp as [[-> _]|[-> Hne]]; [done | by apply string_eqb_nonempty]. }
    rewrite Hne. cbv iota.
    change (str1 d +:+ sig) with (String d sig).
    destruct (Z.leb_spec 0 (1 * Z.of_N (N.of_nat k - 7) + 6 - Z.of_nat (String.length sig)))
      as [_|Hneg]; [|lia].
    assert (Hm' : Z.of_N m
                  = Z.of_N (digits_acc 0 (String d sig))
                    * 10 ^ (1 * Z.of_N (N.of_nat k - 7) + 6
                            - Z.of_nat (String.length sig))).
    { rewrite Hstrip at 1. cbn [String.length].
      rewrite N2Z.inj_mul, N2Z.inj_pow. do 2 f_equal. lia. }
    rewrite <- Hm'. by destruct fp. }
  destruct sig as [|c sig'].
  - cbv iota in Hsign. rewrite str_app_nil_l, !str_app_assoc in Hsign.
    assert (Hd1 : all_digits (str1 d) = true) by (cbn; by rewrite Hd).
    rewrite (scan_number_pieces _ _ _ _ _ None _ _ _ Hsign
               (span_digits_app (str1 d)
                  (String "e" (String "+" (string_of_N (N.of_nat k - 7) +:+ rest)))
                  Hd1 eq_refl)
               ltac:(done) eq_refl eq_refl Hexp).
    rewrite Hvalue; [done | by left].
  - cbv iota in Hsign. rewrite !str_app_assoc in Hsign.
    assert (Hfrac : scan_frac ("." +:+ String c sig' +:+ "e+"
                               +:+ string_of_N (N.of_nat k - 7) +:+ rest)
                    = (Some (String c sig'),
                       "e+" +:+ string_of_N (N.of_nat k - 7) +:+ rest)).
    { change ("." +:+ ?x) with (String "." x). cbn [scan_frac Ascii.eqb Bool.eqb].
      by rewrite span_digits_app. }
    assert (Hd1 : all_digits (str1 d) = true) by (cbn; by rewrite Hd).
    rewrite (scan_number_pieces _ _ _ _ _ _ _ _ _ Hsign
               (span_digits_app (str1 d)
                  (String "." (String c sig' +:+ "e+"
                               +:+ string_of_N (N.of_nat k - 7) +:+ rest))
                  Hd1 eq_refl)
               ltac:(done) eq_refl Hfrac Hexp).
    rewrite Hvalue; [done | by right].
Qed.

Lemma scan_sign_digit (c : ascii) (r : string) :
  is_digit c = true -> scan_sign (String c r) = (false, String c r).
Proof. intros H. cbn [scan_sign]. by rewrite digit_not_minus. Qed.

Lemma sci_large_first (m : N) :
  exists c r, sci_large m = String c r /\ is_digit c = true.
Proof.
  unfold sci_large. cbv zeta.
  pose proof (rstrip_zeros_all _ (string_of_N_all m)) as Hsig.
  destruct (rstrip_zeros (string_of_N m)) as [|d sig].
  - apply string_of_N_first.
  - cbn [all_digits] in Hsig. apply andb_prop in Hsig as [Hd _].
    exists d. eexists. split; [|done]. rewrite ?str_app_assoc. reflexivity.
Qed.

Lemma sci_small_first (m : N) :
  (m < 100)%N -> exists c r, sci_small m = String c r /\ is_digit c = true.
Proof.
  intros Hm. unfold sci_small.
  assert (Hq : (m / 10 < 10)%N) by (apply N.Div0.div_lt_upper_bound; lia).
  destruct (N.ltb_spec m 10); [|destruct (m mod 10 =? 0)%N];
    rewrite ?str_app_assoc; eexists _, _;
    (split; [reflexivity | by apply digit_char_is_digit]).
Qed.

(** The digits of a float start with a digit. *)
Lemma float_digits_first (m : N) :
  exists c r,
    (if ((0 <? m) && (m <? 100))%N then sci_small m
     else if (10 ^ 22 <=? m)%N then sci_large m
     else string_of_N (m / 1000000) +:+ "." +:+ frac_digits (m mod 1000000))
    = String c r /\ is_digit c = true.
Proof.
  destruct ((0 <? m)%N && (m <? 100)%N) eqn:Hsmall.
  - apply andb_prop in Hsmall as [_ H100%N.ltb_lt]. by apply sci_small_first.
  - destruct (10 ^ 22 <=? m)%N; [apply sci_large_first|].
    destruct (string_of_N_first (m / 1000000)) as (c & r & Hc & Hd).
    exists c. eexists. rewrite Hc, str_app_cons. done.
Qed.

(** [float_repr] reads back as the float it was made from. *)
Lemma scan_number_float (us : Z) (rest : string) :
  ends_number rest = true ->
  scan_number (float_repr us +:+ rest) = Some (PyFloat us, rest).
Proof.
  intros Hrest. unfold float_repr. cbv zeta.
  set (m := Z.abs_N us).
  assert (Hsign : (if us <? 0 then -1 else 1) * Z.of_N m = us).
  { subst m. destruct (Z.ltb_spec us 0); lia. }
  replace (PyFloat us) with (PyFloat ((if us <? 0 then -1 else 1) * Z.of_N m))
    by (by rewrite Hsign).
  assert (Hscan : forall body,
    (exists c r, body = String c r /\ is_digit c = true) ->
    scan_sign (((if us <? 0 then "-" else "") +:+ body) +:+ rest)
    = (us <? 0, body +:+ rest)).
  { intros body (c & r & -> & Hc). destruct (us <? 0).
    - apply scan_sign_minus.
    - rewrite str_app_nil_l, str_app_cons. by apply scan_sign_digit. }
  pose proof (Hscan _ (float_digits_first m)) as Hs.
  destruct ((0 <? m)%N && (m <? 100)%N) eqn:Hsmall.
  - apply andb_prop in Hsmall as [H0%N.ltb_lt H100%N.ltb_lt].
    by apply scan_number_sci.
  - destruct (N.leb_spec (10 ^ 22) m).
    + by apply scan_number_large.
    + by apply scan_number_positional.
Qed.

(** ** Reading strings back *)

Lemma scanstring_escape_char (c : ascii) (tail : string) :
  scanstring (escape_char c +:+ tail) = cons_fst c (scanstring tail).
Proof.
  destruct c as [[] [] [] [] [] [] [] []]; reflexivity.
Qed.

Lemma scanstring_escape_string (s rest : string) :
  scanstring (escape_string s +:+ String dquote rest) = Some (s, rest).
Proof.
  induction s as [|c s IH]; [reflexivity|].
  cbn [escape_string]. rewrite str_app_assoc, scanstring_escape_char, IH. done.
Qed.

Lemma encode_basestring_app (s rest : string) :
  encode_basestring_ascii s +:+ rest
  = String dquote (escape_string s +:+ String dquote rest).
Proof.
  unfold encode_basestring_ascii. rewrite str_app_cons, str_app_assoc. done.
Qed.

(** ** Reading a document back *)

(** Induction over values, with the hypothesis for every value of a dict. *)
Lemma pyval_nested_ind (P : pyval -> Prop) :
  (forall b, P (PyBool b)) -> (forall z, P (PyInt z)) ->
  (forall us, P (PyFloat us)) -> (forall s, P (PyStr s)) ->
  (forall items, Forall (fun kv => P (snd kv)) items -> P (PyDict items)) ->
  forall v, P v.
Proof.
  intros Hb Hi Hf Hs Hd.
  refine (fix IH (v : pyval) : P v :=
            match v with
            | PyBool b => Hb b
            | PyInt z => Hi z
            | PyFloat us => Hf us
            | PyStr s => Hs s
            | PyDict items =>
                Hd items
                  ((fix all (l : pydict) : Forall (fun kv => P (snd kv)) l :=
                      match l with
                      | [] => List.Forall_nil _
                      | kv :: l' => List.Forall_cons _ kv l' (IH (snd kv)) (all l')
                      end) items)
            end).
Qed.

Lemma well_formed_dict (items : pydict) :
  well_formed (PyDict items)
  <-> NoDup (map fst items) /\ Forall (fun kv => well_formed (snd kv)) items.
Proof.
  cbn [well_formed]. apply and_iff_compat_l.
  induction items as [|kv items IH]; cbn [fold_right].
  - split; [constructor | done].
  - rewrite Forall_cons, IH. done.
Qed.

Lemma size_dict_cons key value (items : pydict) :
  size (PyDict ((key, value) :: items)) = S (size value + size (PyDict items)).
Proof. cbn [size fold_right snd]. lia. Qed.

Lemma skip_ws_stop (c : ascii) (r : string) :
  is_ws c = false -> skip_ws (String c r) = String c r.
Proof. intros H. cbn [skip_ws]. by rewrite H. Qed.

Lemma skip_ws_spaces (n : nat) (s : string) :
  skip_ws (repeat_str " " n +:+ s) = skip_ws s.
Proof.
  induction n as [|n IH]; [done|].
  cbn [repeat_str]. rewrite str_app_assoc. exact IH.
Qed.

Lemma skip_ws_indent (n : nat) (s : string) :
  skip_ws (String newline (repeat_str " " n) +:+ s) = skip_ws s.
Proof. rewrite str_app_cons. cbn [skip_ws]. apply skip_ws_spaces. Qed.

(** The first character of a number is a digit or the minus sign. *)
Lemma scan_value_number fuel (c : ascii) (r : string) :
  is_digit c = true \/ c = "-"%char ->
  scan_value (S fuel) (String c r) = scan_number (String c r).
Proof.
  intros Hc. cbn [scan_value].
  assert (Ascii.eqb c dquote = false /\ Ascii.eqb c "{" = false
          /\ Ascii.eqb c "t" = false /\ Ascii.eqb c "f" = false) as (-> & -> & -> & ->);
    [|done].
  destruct Hc as [Hc| ->]; [|done].
  repeat split;
    match goal with
    | |- Ascii.eqb c ?x = false => destruct (Ascii.eqb_spec c x) as [->|]; done
    end.
Qed.

Lemma int_repr_first (z : Z) :
  exists c r, int_repr z = String c r /\ (is_digit c = true \/ c = "-"%char).
Proof.
  unfold int_repr. destruct (z <? 0).
  - exists "-"%char, (string_of_N (Z.abs_N z)). split; [done | by right].
  - destruct (string_of_N_first (Z.abs_N z)) as (c & r & -> & Hc).
    exists c, r. split; [done | by left].
Qed.

Lemma float_repr_first (us : Z) :
  exists c r, float_repr us = String c r /\ (is_digit c = true \/ c = "-"%char).
Proof.
  unfold float_repr. cbv zeta. destruct (us <? 0).
  - eexists "-"%char, _. split; [reflexivity | by right].
  - rewrite str_app_nil_l.
    destruct (float_digits_first (Z.abs_N us)) as (c & r & -> & Hc).
    exists c, r. split; [done | by left].
Qed.

Lemma ends_value_number (rest : string) : ends_value rest = true -> ends_number rest = true.
Proof.
  destruct rest as [|c r]; [done|]. cbn [ends_value ends_number].
  intros [H|H]%orb_prop; apply Ascii.eqb_eq in H as ->; done.
Qed.

Lemma str_join_app (a b : list string) : str_join (a ++ b) = str_join a +:+ str_join b.
Proof.
  induction a as [|x a IH]; [done|].
  cbn [app str_join fold_right]. fold (str_join (a ++ b)). fold (str_join a).
  by rewrite IH, str_app_assoc.
Qed.

Lemma str_join_cons (x : string) (a : list string) : str_join (x :: a) = x +:+ str_join a.
Proof. reflexivity. Qed.

Lemma encode_items_text (indent level : nat) (items : pydict) :
  str_join (encode_items (iterencode indent (S level))
              ("," +:+ String newline (repeat_str " " (indent * S level))) false items)
  = members_text indent level items.
Proof.
  induction items as [|[key value] items IH]; [done|].
  cbn [encode_items members_text].
  rewrite !str_join_app, IH. cbn [str_join fold_right]. unfold value_text.
  rewrite !str_app_nil_r, !str_app_assoc. done.
Qed.

Lemma value_text_dict (indent level : nat) key value (items : pydict) :
  value_text indent level (PyDict ((key, value) :: items))
  = String "{" (String newline (repeat_str " " (indent * S level))
     +:+ String dquote (escape_string key +:+ String dquote
          (": " +:+ value_text indent (S level) value
           +:+ members_text indent level items
           +:+ String newline (repeat_str " " (indent * level)) +:+ "}"))).
Proof.
  unfold value_text at 1. cbn [iterencode encode_items]. cbv zeta.
  cbn [app]. rewrite !str_join_cons, !str_join_app, encode_items_text.
  rewrite encode_basestring_app. cbn [str_join fold_right]. unfold value_text.
  rewrite !str_app_nil_r, !str_app_assoc. reflexivity.
Qed.

Lemma number_first_not_ws (c : ascii) :
  is_digit c = true \/ c = "-"%char -> is_ws c = false.
Proof.
  intros [Hc| ->]; [|done]. unfold is_digit in Hc. unfold is_ws. cbv zeta.
  apply andb_prop in Hc as [H1%N.leb_le H2%N.leb_le].
  destruct (N.eqb_spec (N_of_ascii c) 32); [lia|].
  destruct (N.eqb_spec (N_of_ascii c) 9); [lia|].
  destruct (N.eqb_spec (N_of_ascii c) 10); [lia|].
  destruct (N.eqb_spec (N_of_ascii c) 13); [lia|]. done.
Qed.

(** The text of a value starts with a character that is no white space. *)
Lemma value_text_first (indent level : nat) (v : pyval) :
  exists c r, value_text indent level v = String c r /\ is_ws c = false.
Proof.
  destruct v as [[]|z|us|s|[|[key value] items]]; unfold value_text.
  - by eexists _, _.
  - by eexists _, _.
  - destruct (int_repr_first z) as (c & r & Hz & Hc).
    exists c, r. cbn [iterencode str_join fold_right]. rewrite str_app_nil_r.
    split; [done | by apply number_first_not_ws].
  - destruct (float_repr_first us) as (c & r & Hz & Hc).
    exists c, r. cbn [iterencode str_join fold_right]. rewrite str_app_nil_r.
    split; [done | by apply number_first_not_ws].
  - by eexists _, _.
  - by eexists _, _.
  - fold (value_text indent level (PyDict ((key, value) :: items))).
    rewrite value_text_dict. by eexists _, _.
Qed.

Lemma skip_ws_value_text (indent level : nat) (v : pyval) (rest : string) :
  skip_ws (value_text indent level v +:+ rest) = value_text indent level v +:+ rest.
Proof.
  destruct (value_text_first indent level v) as (c & r & -> & Hc).
  rewrite str_app_cons. by apply skip_ws_stop.
Qed.

(** What follows a value inside a dict ends the value. *)
Lemma ends_value_members (indent level : nat) (items : pydict) (rest : string) :
  ends_value (members_text indent level items
              +:+ String newline (repeat_str " " (indent * level)) +:+ rest) = true.
Proof. destruct items as [|[key value] items]; reflexivity. Qed.

Lemma dict_update_cons key value (items d : pydict) :
  dict_update d ((key, value) :: items) = dict_update (dict_set key value d) items.
Proof. reflexivity. Qed.

Lemma scan_pairs_last fuel pairs s key tail value s3 rest :
  scanstring s = Some (key, String ":" tail) ->
  scan_value fuel (skip_ws tail) = Some (value, s3) ->
  skip_ws s3 = String "}" rest ->
  scan_pairs (S fuel) pairs s = Some (PyDict (dict_set key value pairs), rest).
Proof.
  intros H1 H2 H3. cbn [scan_pairs]. rewrite H1, (skip_ws_stop ":" _ eq_refl).
  change (negb (Ascii.eqb ":" ":")) with false. cbv iota. by rewrite H2, H3.
Qed.

Lemma scan_pairs_more fuel pairs s key tail value s3 s4 s5 :
  scanstring s = Some (key, String ":" tail) ->
  scan_value fuel (skip_ws tail) = Some (value, s3) ->
  skip_ws s3 = String "," s4 ->
  skip_ws s4 = String dquote s5 ->
  scan_pairs (S fuel) pairs s = scan_pairs fuel (dict_set key value pairs) s5.
Proof.
  intros H1 H2 H3 H4. cbn [scan_pairs]. rewrite H1, (skip_ws_stop ":" _ eq_refl).
  change (negb (Ascii.eqb ":" ":")) with false. cbv iota. rewrite H2, H3.
  change (Ascii.eqb "," "}") with false. change (Ascii.eqb "," ",") with true.
  cbv iota. rewrite H4. by rewrite Ascii.eqb_refl.
Qed.

Lemma skip_ws_space (s : string) : skip_ws (String " " s) = skip_ws s.
Proof. reflexivity. Qed.

(** The loop of the decoder over the members of a dict, entered just
    after the opening quote of a key. *)
Lemma scan_pairs_members (indent level : nat) (items : pydict) :
  Forall (fun kv => reads_back indent (snd kv)) items ->
  forall pairs key value fuel rest,
    reads_back indent value ->
    (size value + size (PyDict items) <= fuel)%nat ->
    scan_pairs fuel pairs
      (escape_string key +:+ String dquote
         (": " +:+ value_text indent (S level) value
          +:+ members_text indent level items
          +:+ String newline (repeat_str " " (indent * level)) +:+ "}" +:+ rest))
    = Some (PyDict (dict_update pairs ((key, value) :: items)), rest).
Proof.
  induction 1 as [|[key' value'] items Hv' Hitems IH];
    intros pairs key value fuel rest Hv Hfuel.
  - destruct fuel as [|fuel]; [cbn [size fold_right] in Hfuel; lia|].
    eapply scan_pairs_last.
    + rewrite scanstring_escape_string. reflexivity.
    + rewrite skip_ws_space, ?str_app_assoc, skip_ws_value_text.
      apply (Hv (S level) fuel); [cbn [size fold_right] in Hfuel; lia|].
      apply (ends_value_members indent level []).
    + cbn [members_text]. rewrite str_app_nil_l, skip_ws_indent. reflexivity.
  - destruct fuel as [|fuel]; [cbn [size fold_right] in Hfuel; lia|].
    rewrite size_dict_cons in Hfuel.
    rewrite dict_update_cons.
    erewrite scan_pairs_more.
    + apply (IH _ key' value' fuel rest Hv'). lia.
    + rewrite scanstring_escape_string. reflexivity.
    + rewrite skip_ws_space, ?str_app_assoc, skip_ws_value_text.
      apply (Hv (S level) fuel); [lia|]. apply ends_value_members.
    + cbn [members_text]. rewrite ?str_app_assoc.
      change ("," +:+ ?x) with (String "," x). apply (skip_ws_stop "," _ eq_refl).
    + rewrite skip_ws_indent, encode_basestring_app.
      rewrite (skip_ws_stop dquote _ eq_refl). rewrite ?str_app_assoc. reflexivity.
Qed.

Lemma dict_set_fresh {V : Type} (k : string) (v : V) d :
  k ∉ dict_keys d -> dict_set k v d = d ++ [(k, v)].
Proof.
  unfold dict_keys. induction d as [|[k' v'] d IH]; [done|].
  cbn [map fst dict_set app]. intros [Hne Hni]%not_elem_of_cons.
  destruct (String.eqb_spec k k'); [done|]. by rewrite IH.
Qed.

(** Building a dict from pairs with distinct new keys appends them. *)
Lemma dict_update_fresh (d items : pydict) :
  NoDup (map fst items) -> (forall k, k ∈ map fst items -> k ∉ dict_keys d) ->
  dict_update d items = d ++ items.
Proof.
  revert d. induction items as [|[k v] items IH]; intros d Hnd Hfresh.
  - by rewrite app_nil_r.
  - rewrite dict_update_cons. cbn [map fst] in Hnd. apply NoDup_cons in Hnd as [Hk Hnd].
    rewrite dict_set_fresh by (apply Hfresh; left).
    rewrite IH; [by rewrite <- app_assoc | done |].
    intros k' Hk'. unfold dict_keys. rewrite map_app, not_elem_of_app. split.
    + apply Hfresh. by right.
    + cbn [map fst]. rewrite list_elem_of_singleton. by intros ->.
Qed.

Lemma strip_prefix_app (p rest : string) : strip_prefix p (p +:+ rest) = Some rest.
Proof.
  induction p as [|c p IH]; [by destruct rest|].
  rewrite str_app_cons. cbn [strip_prefix]. by rewrite Ascii.eqb_refl.
Qed.

(** The decoder reads every well-formed value back from its text. *)
Lemma reads_back_all (indent : nat) (v : pyval) : well_formed v -> reads_back indent v.
Proof.
  induction v as [b|z|us|s|items IH] using pyval_nested_ind; intros Hwf level fuel rest Hfuel Hrest.
  - destruct fuel as [|fuel]; [cbn in Hfuel; lia|].
    destruct b; unfold value_text; cbn [iterencode str_join fold_right];
      rewrite str_app_nil_r.
    + change (scan_value (S fuel) ("true" +:+ rest))
        with (match strip_prefix "true" ("true" +:+ rest) with
              | Some r => Some (PyBool true, r) | None => None end).
      by rewrite strip_prefix_app.
    + change (scan_value (S fuel) ("false" +:+ rest))
        with (match strip_prefix "false" ("false" +:+ rest) with
              | Some r => Some (PyBool false, r) | None => None end).
      by rewrite strip_prefix_app.
  - destruct fuel as [|fuel]; [cbn in Hfuel; lia|].
    unfold value_text; cbn [iterencode str_join fold_right]. rewrite str_app_nil_r.
    destruct (int_repr_first z) as (c & r & Hz & Hc).
    pose proof (scan_number_int z rest (ends_value_number _ Hrest)) as Hn.
    rewrite Hz in *. rewrite str_app_cons in *. by rewrite scan_value_number.
  - destruct fuel as [|fuel]; [cbn in Hfuel; lia|].
    unfold value_text; cbn [iterencode str_join fold_right]. rewrite str_app_nil_r.
    destruct (float_repr_first us) as (c & r & Hz & Hc).
    pose proof (scan_number_float us rest (ends_value_number _ Hrest)) as Hn.
    rewrite Hz in *. rewrite str_app_cons in *. by rewrite scan_value_number.
  - destruct fuel as [|fuel]; [cbn in Hfuel; lia|].
    unfold value_text; cbn [iterencode str_join fold_right]. rewrite str_app_nil_r.
    rewrite encode_basestring_app. cbn [scan_value]. rewrite Ascii.eqb_refl.
    by rewrite scanstring_escape_string.
  - destruct fuel as [|fuel]; [cbn in Hfuel; lia|].
    apply well_formed_dict in Hwf as [Hnd Hwfs].
    assert (Hrb : Forall (fun kv => reads_back indent (snd kv)) items).
    { rewrite Forall_forall in *. intros kv Hkv. apply IH; [done|]. by apply Hwfs. }
    destruct items as [|[key value] items]; [reflexivity|].
    pose proof (scan_pairs_members indent level items) as Hp.
    apply Forall_cons in Hrb as [Hv Hrb].
    specialize (Hp Hrb [] key value fuel rest Hv).
    rewrite dict_update_fresh in Hp;
      [|done|intros k _ Hk; by apply elem_of_nil in Hk].
    rewrite value_text_dict, str_app_cons.
    cbn [scan_value]. change (Ascii.eqb "{" dquote) with false.
    change (Ascii.eqb "{" "{") with true. cbv iota.
    rewrite str_app_assoc, skip_ws_indent, str_app_cons.
    rewrite (skip_ws_stop dquote _ eq_refl).
    change (Ascii.eqb dquote "}") with false. rewrite Ascii.eqb_refl. cbv iota.
    repeat first [rewrite str_app_assoc in * | rewrite str_app_cons in *
                 | rewrite str_app_nil_l in *].
    apply Hp. rewrite size_dict_cons in Hfuel. lia.
Qed.

Lemma members_text_size (indent level : nat) (items : pydict) :
  Forall (fun kv => forall level,
            (size (snd kv) <= S (String.length (value_text indent level (snd kv))))%nat)
         items ->
  (fold_right (fun kv n => S (size (snd kv) + n)) O items
   <= String.length (members_text indent level items))%nat.
Proof.
  induction 1 as [|[key value] items Hv Hitems IH]; [done|].
  cbn [fold_right members_text snd] in *. specialize (Hv (S level)).
  rewrite !str_length_app. cbn [String.length]. lia.
Qed.

(** The fuel [json_loads] starts with is enough for the text of a value. *)
Lemma size_le_text (indent : nat) (v : pyval) :
  forall level, (size v <= S (String.length (value_text indent level v)))%nat.
Proof.
  induction v as [b|z|us|s|items IH] using pyval_nested_ind; intros level;
    try (cbn [size]; lia).
  destruct items as [|[key value] items]; [cbn; lia|].
  apply Forall_cons in IH as [Hv Hitems]. cbn [snd] in Hv. specialize (Hv (S level)).
  pose proof (members_text_size indent level items Hitems) as Hm.
  rewrite value_text_dict. cbn [size fold_right snd String.length].
  repeat first [rewrite str_length_app | progress cbn [String.length]]. lia.
Qed.

(** Reading back what [json.dumps] wrote gives the value that was
    written. *)
Lemma json_loads_dumps (indent : nat) (v : pyval) :
  well_formed v -> json_loads (json_dumps indent v) = Some v.
Proof.
  intros Hwf. unfold json_loads. change (json_dumps indent v) with (value_text indent 0 v).
  pose proof (skip_ws_value_text indent 0 v "") as Hskip.
  rewrite str_app_nil_r in Hskip. rewrite Hskip.
  pose proof (reads_back_all indent v Hwf 0%nat
                (S (String.length (value_text indent 0 v))) ""
                (size_le_text indent v 0%nat) eq_refl) as Hread.
  rewrite str_app_nil_r in Hread. by rewrite Hread.
Qed.

(** ** The path of the report *)

Lemma split_slash_app (cur x y : string) :
  split_slash cur (x +:+ String "/" y) = split_slash cur x ++ split_slash "" y.
Proof.
  revert cur. induction x as [|c x IH]; intros cur.
  - rewrite str_app_nil_l. reflexivity.
  - rewrite str_app_cons. cbn [split_slash].
    destruct (Ascii.eqb c "/"); [cbn [app]; f_equal; apply IH | apply IH].
Qed.

Lemma ends_with_slash_split (a : string) :
  ends_with_slash a = true -> exists a', a = a' +:+ "/".
Proof.
  induction a as [|c a IH]; [done|]. cbn [ends_with_slash].
  destruct a as [|c' a'].
  - intros ->%Ascii.eqb_eq. by exists "".
  - intros H. destruct (IH H) as (x & ->). exists (String c x). by rewrite str_app_cons.
Qed.

Lemma starts_slash_app (a b : string) :
  a ≠ "" ->
  match a +:+ b with String c _ => Ascii.eqb c "/" | EmptyString => false end
  = match a with String c _ => Ascii.eqb c "/" | EmptyString => false end.
Proof. by destruct a. Qed.

Lemma resolve_child (x a : string) :
  a ≠ "" ->
  match x with String c _ => Ascii.eqb c "/" | EmptyString => false end
  = match a with String c _ => Ascii.eqb c "/" | EmptyString => false end ->
  x ≠ "" ->
  filter (fun piece => is_name piece = true) (split_slash "" x)
  = filter (fun piece => is_name piece = true) (split_slash "" a) ->
  resolve (x +:+ String "/" "experiment_report.json")
  = "experiment_report.json" :: resolve a.
Proof.
  intros Ha Hfirst Hx Hnames. unfold resolve.
  rewrite split_slash_app, filter_app, Hnames.
  change (filter _ (split_slash "" "experiment_report.json"))
    with ["experiment_report.json"].
  destruct x as [|cx x]; [done|]. destruct a as [|ca a]; [done|].
  rewrite str_app_cons. rewrite Hfirst.
  destruct (Ascii.eqb ca "/").
  - rewrite app_comm_cons. apply rev_unit.
  - apply rev_unit.
Qed.

(** The report file lies directly in the output directory. *)
Lemma report_entry_in_output_dir (config : ForgettingConfig) :
  report_entry config = "experiment_report.json" :: resolve (output_dir config).
Proof.
  unfold report_entry. generalize (output_dir config). intros a.
  unfold os_path_join.
  change (Ascii.eqb "e" "/") with false. cbv iota.
  destruct (String.eqb_spec a "") as [->|Hne]; [reflexivity|].
  cbn [orb]. destruct (ends_with_slash a) eqn:Hslash.
  - destruct (ends_with_slash_split a Hslash) as (a' & ->).
    rewrite str_app_assoc. change ("/" +:+ ?b) with (String "/" b).
    destruct (String.eqb_spec a' "") as [->|Hne'].
    + reflexivity.
    + apply resolve_child; [done | by rewrite starts_slash_app | done |].
      change (a' +:+ "/") with (a' +:+ String "/" "").
      rewrite split_slash_app, filter_app. cbn. by rewrite app_nil_r.
  - change ("/" +:+ ?b) with (String "/" b). by apply resolve_child.
Qed.

Lemma os_path_join_nonempty (a b : string) : b ≠ "" -> os_path_join a b ≠ "".
Proof.
  intros Hb. unfold os_path_join. destruct b as [|c b]; [done|].
  destruct (Ascii.eqb c "/"); [done|].
  destruct (String.eqb a "" || ends_with_slash a); destruct a; done.
Qed.

(** ** The report and the summary *)

Lemma say_all_stdout lines w : w_stdout (say_all lines w) = w_stdout w ++ lines.
Proof.
  revert w. induction lines as [|l lines IH]; intros w.
  - by rewrite app_nil_r.
  - cbn [say_all fold_left]. fold (say_all lines (say l w)).
    rewrite IH. cbn [say w_stdout]. by rewrite <- app_assoc.
Qed.

Lemma say_all_fs lines w : w_fs (say_all lines w) = w_fs w.
Proof.
  revert w. induction lines as [|l lines IH]; intros w; [done|].
  cbn [say_all fold_left]. fold (say_all lines (say l w)). by rewrite IH.
Qed.

Lemma summary_line_outcome experiment d w :
  summary_line experiment (outcome d) w = (Ok (completed_line experiment d), w).
Proof.
  unfold summary_line, outcome, completed_line.
  cbn [subscript dict_get String.eqb Ascii.eqb Bool.eqb bind ret format_2f truthy].
  reflexivity.
Qed.

(** On a dict of outcomes the summary loop prints one line per entry, in
    the order of the dict. *)
Lemma summary_loop (experiment_results : pydict) (w : World) :
  Forall (fun kv => exists d, snd kv = outcome d) experiment_results ->
  for_each experiment_results
    (fun '(experiment, results) =>
       line <- summary_line experiment results ;; print line) w
  = (Ok tt, say_all (summary_lines experiment_results) w).
Proof.
  intros H. revert w. induction H as [|[e v] l (d & Hd) Hl IH]; intros w; [done|].
  cbn [snd] in Hd. subst v.
  cbn [for_each summary_lines map fst snd outcome_duration outcome say_all fold_left].
  fold (outcome d).
  rewrite (bind_ok _ _ _ _ _ (bind_ok _ _ _ _ _ (summary_line_outcome e d w))).
  cbn [print]. apply IH.
Qed.

Lemma open_w_ok (name : string) (w : World) :
  name ≠ "" ->
  fs_lookup (w_fs w) (tail (resolve name)) = Some Dir ->
  fs_lookup (w_fs w) (resolve name) ≠ Some Dir ->
  open_w name w
  = (Ok {| f_name := name; f_path := resolve name |},
     set_fs (<[resolve name := File ""]> (w_fs w)) (w_disk_free w) w).
Proof.
  intros Hname Hparent Hnodir. unfold open_w.
  rewrite (string_eqb_nonempty _ Hname).
  destruct (fs_lookup (w_fs w) (resolve name)) as [[|c]|]; [done | done |].
  by rewrite Hparent.
Qed.

(** When the output directory is there, no directory stands at the report
    path and the device has room, [generate_report] writes the whole
    document and prints the summary. *)
Lemma generate_report_ok config (experiment_results : pydict) (w : World) :
  Forall (fun kv => exists d, snd kv = outcome d) experiment_results ->
  fs_lookup (w_fs w) (resolve (output_dir config)) = Some Dir ->
  fs_lookup (w_fs w) (report_entry config) ≠ Some Dir ->
  (String.length (report_text config experiment_results) <= w_disk_free w)%nat ->
  generate_report config experiment_results w
  = (Ok tt,
     say ("==============================" +:+ str1 newline)
       (say_all (summary_lines experiment_results)
          (say (String newline "===== Experiment Summary =====")
             (log_to ("Report generated and saved to "
                      +:+ os_path_join (output_dir config) "experiment_report.json")
                (set_fs (<[report_entry config :=
                             File (report_text config experiment_results)]> (w_fs w))
                   (w_disk_free w
                    - String.length (report_text config experiment_results)) w))))).
Proof.
  intros Hres Hdir Hnodir Hroom.
  rewrite generate_report_unfold. unfold with_open_w.
  set (name := os_path_join (output_dir config) "experiment_report.json").
  assert (Hname : name ≠ "") by (by apply os_path_join_nonempty).
  assert (Hopen := open_w_ok name w Hname).
  change (resolve name) with (report_entry config) in Hopen.
  assert (Hparent : fs_lookup (w_fs w) (tail (report_entry config)) = Some Dir)
    by (by rewrite report_entry_in_output_dir).
  specialize (Hopen Hparent Hnodir).
  pose proof (bind_ok _ (fun f => json_dump (report_of config experiment_results) f 4)
                _ _ _ Hopen) as Hdump.
  cbv beta in Hdump. rewrite json_dump_fresh in Hdump.
  fold (report_text config experiment_results) in Hdump.
  rewrite (proj2 (Nat.leb_le _ _) Hroom) in Hdump.
  rewrite (bind_ok _ _ _ _ _ Hdump).
  unfold report_summary. cbn [bind logger_info print].
  rewrite (bind_ok _ _ _ _ _ (summary_loop _ _ Hres)). reflexivity.
Qed.

Lemma record_all_get_some e pairs results :
  e ∈ map fst pairs \/ (exists d, dict_get e results = Some (outcome d)) ->
  exists d, dict_get e (record_all pairs results) = Some (outcome d).
Proof.
  revert results. induction pairs as [|[e' d'] pairs IH]; intros results H.
  - destruct H as [H|H]; [by apply elem_of_nil in H | done].
  - cbn [record_all fold_left fst snd]. apply IH.
    destruct (decide (e ∈ map fst pairs)) as [Hin|Hni]; [by left | right].
    destruct (decide (e = e')) as [->|Hne].
    + exists d'. apply dict_get_set_eq.
    + rewrite dict_get_set_ne by done.
      destruct H as [H|H]; [|done]. cbn [map fst] in H.
      apply elem_of_cons in H as [H|H]; done.
Qed.

Lemma outcome_well_formed d : well_formed (outcome d).
Proof.
  apply well_formed_dict. split.
  - cbn. apply NoDup_cons. split; [|apply NoDup_singleton].
    rewrite list_elem_of_singleton. done.
  - by repeat constructor.
Qed.

Lemma report_well_formed config (experiment_results : pydict) :
  NoDup (dict_keys experiment_results) ->
  Forall (fun kv => exists d, snd kv = outcome d) experiment_results ->
  well_formed (report_of config experiment_results).
Proof.
  intros Hnd Hres. unfold report_of.
  apply well_formed_dict. split.
  { apply (bool_decide_unpack _). by vm_compute. }
  apply Forall_cons; split; [|apply Forall_cons; split; [|constructor]]; cbn [snd].
  - apply well_formed_dict. split.
    + apply (bool_decide_unpack _). by vm_compute.
    + repeat (apply Forall_cons; split; [done|]). constructor.
  - apply well_formed_dict. split; [done|].
    eapply Forall_impl; [exact Hres|]. intros kv (d & ->). apply outcome_well_formed.
Qed.

Section Report.

Variable R : experiment_runner.

(** What [run_experiments] returns, when it returns. *)
Lemma run_experiments_results config experiments w results w' :
  run_experiments R config experiments w = (Ok results, w') ->
  NoDup (dict_keys results)
  /\ Forall (fun kv => exists d, snd kv = outcome d) results
  /\ dict_keys results = uniq_first experiments
  /\ (forall e, e ∈ experiments -> exists d, dict_get e results = Some (outcome d)).
Proof.
  intros Hrun.
  pose proof (run_experiments_returns R _ _ _ _ _ Hrun) as Hf.
  destruct (run_experiments_ok R config experiments w Hf) as (w1 & Heq & _).
  rewrite Hrun in Heq. injection Heq as -> _.
  split_and!.
  - apply record_all_NoDup. constructor.
  - apply (record_all_values (fun v => exists d, v = outcome d)); [|constructor].
    intros d _. by exists d.
  - rewrite record_all_keys. cbn [dict_keys map app].
    rewrite map_fst_combine by (by rewrite timings_length).
    rewrite (list_filter_iff _ (fun _ => True));
      [|intros x; split; [done | intros _ H; by apply elem_of_nil in H]].
    induction (uniq_first experiments) as [|x l IH]; [done|].
    rewrite filter_cons_True by done. by rewrite IH.
  - intros e He. apply record_all_get_some. left.
    by rewrite map_fst_combine by (by rewrite timings_length).
Qed.


End Report.


(** ** The console summary *)

Lemma format_2f_us_two_decimals (us : Z) : two_decimals (format_2f_us us).
Proof.
  unfold format_2f_us, two_decimals. cbv zeta.
  set (c := round_half_even (Z.abs_N us) 10000).
  exists ((if us <? 0 then "-" else "") +:+ string_of_N (c / 100)),
         (digit_char ((c mod 100 / 10) mod 10)), (digit_char ((c mod 100) mod 10)).
  split_and!.
  - by rewrite !str_app_assoc.
  - apply digit_char_is_digit. by apply N.mod_lt.
  - apply digit_char_is_digit. by apply N.mod_lt.
Qed.

Section Summary.

Variable R : experiment_runner.

(** C6, as amended: after [run_experiments] returned, in a world where
    the report can be written, [generate_report] prints a header, then one
    line for each distinct requested identifier, in the order of first
    request, then a footer.  A line shows the identifier, the status
    [Completed] and the duration the dict holds for it, with two decimal
    places. *)
Theorem summary_lists_outcomes config experiments w0 results w :
  run_experiments R config experiments w0 = (Ok results, w) ->
  fs_lookup (w_fs w) (resolve (output_dir config)) = Some Dir ->
  fs_lookup (w_fs w) (report_entry config) ≠ Some Dir ->
  (String.length (report_text config results) <= w_disk_free w)%nat ->
  exists w',
    generate_report config results w = (Ok tt, w')
    /\ w_stdout w'
       = w_stdout w
         ++ [String newline "===== Experiment Summary ====="]
         ++ map (fun kv => "- " +:+ fst kv +:+ ": Completed in "
                           +:+ format_2f_us (outcome_duration (snd kv))
                           +:+ " seconds") results
         ++ ["==============================" +:+ str1 newline]
    /\ map fst results = uniq_first experiments
    /\ forall e v, (e, v) ∈ results ->
         v = PyDict [("completed", PyBool true);
                     ("duration", PyFloat (outcome_duration v))]
         /\ two_decimals (format_2f_us (outcome_duration v)).
Proof.
  intros Hrun Hdir Hnodir Hroom.
  destruct (run_experiments_results R _ _ _ _ _ Hrun) as (Hnd & Hres & Hkeys & Hget).
  eexists. split; [by apply generate_report_ok|].
  split_and!.
  - cbn [say w_stdout]. rewrite say_all_stdout. cbn [say log_to set_fs w_stdout].
    rewrite <- !app_assoc. reflexivity.
  - exact Hkeys.
  - intros e v Hin. rewrite Forall_forall in Hres.
    destruct (Hres _ Hin) as (d & Hd). cbn [snd] in Hd. subst v.
    split; [reflexivity | apply format_2f_us_two_decimals].
Qed.

End Summary.

(** C6, as the specification states it, fails on two counts.  When an
    invocation raises, [main] ends before anything is printed, so the
    summary lists none of the three requested experiments; and a request
    that names an experiment twice gets one line for it, two lines for
    three requests. *)
Lemma summary_not_always_complete :
  let args :=
    {| args_data_path := "./ml-100k"; args_output_dir := "./results";
       args_experiments :=
         ["baseline_comparison"; "unknown_experiment"; "temporal_evaluation"];
       args_num_users := 50; args_temporal_split := false;
       args_test_days := 30; args_seed := 42 |} in
  let twice :=
    {| args_data_path := "./ml-100k"; args_output_dir := "./results";
       args_experiments := duplicate_request;
       args_num_users := 50; args_temporal_split := false;
       args_test_days := 30; args_seed := 42 |} in
  (fst (main canonical_runner args example_world)
   = Raise (UnknownExperimentError "unknown_experiment")
   /\ w_stdout (snd (main canonical_runner args example_world)) = [])
  /\ (fst (main canonical_runner twice example_world) = Ok tt
      /\ w_stdout (snd (main canonical_runner twice example_world))
         = [String newline "===== Experiment Summary =====";
            "- user_segmentation: Completed in 0.90 seconds";
            "- baseline_comparison: Completed in 0.50 seconds";
            "==============================" +:+ str1 newline]).
Proof.
  split_and!; vm_compute; reflexivity.
Qed.

Lemma summary_lists_outcomes_witness :
  run_experiments canonical_runner example_config duplicate_request ready_world
  = (Ok duplicate_results, ready_world_after_run)
  /\ fs_lookup (w_fs ready_world_after_run) (resolve (output_dir example_config))
     = Some Dir
  /\ fs_lookup (w_fs ready_world_after_run) (report_entry example_config) ≠ Some Dir
  /\ (String.length (report_text example_config duplicate_results)
      <= w_disk_free ready_world_after_run)%nat
  /\ exists w',
    generate_report example_config duplicate_results ready_world_after_run = (Ok tt, w')
    /\ w_stdout w'
       = w_stdout ready_world_after_run
         ++ [String newline "===== Experiment Summary ====="]
         ++ map (fun kv => "- " +:+ fst kv +:+ ": Completed in "
                           +:+ format_2f_us (outcome_duration (snd kv))
                           +:+ " seconds") duplicate_results
         ++ ["==============================" +:+ str1 newline]
    /\ map fst duplicate_results = uniq_first duplicate_request
    /\ forall e v, (e, v) ∈ duplicate_results ->
         v = PyDict [("completed", PyBool true);
                     ("duration", PyFloat (outcome_duration v))]
         /\ two_decimals (format_2f_us (outcome_duration v)).
Proof.
  assert (H1 : run_experiments canonical_runner example_config duplicate_request
                 ready_world = (Ok duplicate_results, ready_world_after_run))
    by reflexivity.
  assert (H2 : fs_lookup (w_fs ready_world_after_run)
                 (resolve (output_dir example_config)) = Some Dir)
    by (vm_compute; reflexivity).
  assert (H3 : fs_lookup (w_fs ready_world_after_run) (report_entry example_config)
               ≠ Some Dir)
    by (vm_compute; discriminate).
  assert (H4 : (String.length (report_text example_config duplicate_results)
                <= w_disk_free ready_world_after_run)%nat)
    by (apply Nat.leb_le; vm_compute; reflexivity).
  split_and!; [exact H1 | exact H2 | exact H3 | exact H4 |].
  exact (summary_lists_outcomes canonical_runner example_config duplicate_request
           ready_world duplicate_results ready_world_after_run H1 H2 H3 H4).
Defined.

(** ** The log of the loop *)

Section LoopLog.

Variable R : experiment_runner.

Lemma run_loop_log (runner : Runner R) (experiments : list string)
    (results : pydict) (w : World) :
  first_raise R (r_config R runner) (r_state R runner) experiments = None ->
  w_log (snd (run_loop R runner experiments results w))
  = w_log w ++ loop_records (combine experiments (timings w (length experiments))).
Proof.
  revert runner results w.
  induction experiments as [|e rest IH]; intros runner results w Hok.
  - cbn. by rewrite app_nil_r.
  - cbn [first_raise] in Hok.
    destruct (runner_step R (r_config R runner) (r_state R runner) e) as [[p|err] st] eqn:Hstep;
      [|done].
    destruct (first_raise R (r_config R runner) st rest) as [[n err]|] eqn:Hrest; [done|].
    cbn [run_loop bind logger_info time_time].
    rewrite (bind_ok _ _ _ _ _ (run_experiment_ok R _ _ _ _ _ Hstep)).
    cbn [bind logger_info time_time].
    match goal with |- context [run_loop R ?r rest ?res (log_to ?m2 ?w2)] =>
      rewrite (IH r res (log_to m2 w2) Hrest);
      pose proof (stepped_iteration (r_config R runner, e) (starting_record e) m2 w) as Hit
    end.
    cbn [length].
    rewrite (timings_shift w _ _ (proj1 Hit) (proj1 (proj2 Hit))).
    cbn [combine loop_records flat_map fst snd log_to record_call tick w_log w_clock w_ticks].
    rewrite timing_0. unfold starting_record, completed_record.
    by rewrite <- !app_assoc.
Qed.

Lemma run_loop_log_raise (runner : Runner R) (experiments : list string)
    (results : pydict) (w : World) n err :
  first_raise R (r_config R runner) (r_state R runner) experiments = Some (n, err) ->
  exists e,
    experiments !! n = Some e
    /\ w_log (snd (run_loop R runner experiments results w))
       = w_log w ++ loop_records (combine (take n experiments) (timings w n))
         ++ [starting_record e].
Proof.
  revert runner results w n.
  induction experiments as [|e rest IH]; intros runner results w n Hr; [done|].
  cbn [first_raise] in Hr.
  destruct (runner_step R (r_config R runner) (r_state R runner) e) as [[p|err'] st] eqn:Hstep.
  - destruct (first_raise R (r_config R runner) st rest) as [[n' err']|] eqn:Hrest; [|done].
    injection Hr as <- <-.
    cbn [run_loop bind logger_info time_time].
    rewrite (bind_ok _ _ _ _ _ (run_experiment_ok R _ _ _ _ _ Hstep)).
    cbn [bind logger_info time_time].
    match goal with |- context [run_loop R ?r rest ?res (log_to ?m2 ?w2)] =>
      destruct (IH r res (log_to m2 w2) _ Hrest) as (e' & He' & Hlog);
      pose proof (stepped_iteration (r_config R runner, e) (starting_record e) m2 w) as Hit
    end.
    exists e'. split; [done|]. rewrite Hlog.
    rewrite (timings_shift w _ _ (proj1 Hit) (proj1 (proj2 Hit))).
    cbn [take combine loop_records flat_map fst snd log_to record_call tick w_log w_clock w_ticks].
    rewrite timing_0. unfold starting_record, completed_record.
    by rewrite <- !app_assoc.
  - injection Hr as <- <-. exists e. split; [done|].
    cbn [run_loop bind logger_info time_time].
    rewrite (bind_raise _ _ _ _ _ (run_experiment_raise R _ _ _ _ _ Hstep)).
    done.
Qed.

(** X1: when no invocation raises, [run_experiments] adds to the log, for
    each element of the request in order, the record that the experiment
    starts and the record that it completed, the latter with the duration
    measured for that invocation to two decimal places; it logs nothing
    else. *)
Theorem loop_logs_every_pass config experiments w :
  first_raise R config (runner_init R config) experiments = None ->
  w_log (snd (run_experiments R config experiments w))
  = w_log w
    ++ flat_map (fun p => ["Starting experiment: " +:+ fst p;
                           "Completed experiment: " +:+ fst p +:+ " in "
                           +:+ format_2f_us (snd p) +:+ " seconds"])
         (combine experiments (timings w (length experiments))).
Proof.
  intros Hf. unfold run_experiments.
  by rewrite (run_loop_log (ForgettingExperimentRunner R config) experiments [] w Hf).
Qed.

(** X2: when the invocation at position [n] is the first to raise, the
    last record [run_experiments] logged says that this experiment starts;
    before it stand the records of the [n] passes that ran to their end,
    and no record says that the failing experiment completed or failed. *)
Theorem loop_log_ends_at_failure config experiments w n err :
  first_raise R config (runner_init R config) experiments = Some (n, err) ->
  exists e,
    experiments !! n = Some e
    /\ w_log (snd (run_experiments R config experiments w))
       = w_log w
         ++ flat_map (fun p => ["Starting experiment: " +:+ fst p;
                                "Completed experiment: " +:+ fst p +:+ " in "
                                +:+ format_2f_us (snd p) +:+ " seconds"])
              (combine (take n experiments) (timings w n))
         ++ ["Starting experiment: " +:+ e].
Proof.
  intros Hf. unfold run_experiments.
  apply (run_loop_log_raise (ForgettingExperimentRunner R config) experiments [] w n err Hf).
Qed.

End LoopLog.


Lemma loop_logs_every_pass_witness :
  first_raise canonical_runner example_config
    (runner_init canonical_runner example_config) duplicate_request = None
  /\ w_log (snd (run_experiments canonical_runner example_config duplicate_request
                   example_world))
     = w_log example_world
       ++ flat_map (fun p => ["Starting experiment: " +:+ fst p;
                              "Completed experiment: " +:+ fst p +:+ " in "
                              +:+ format_2f_us (snd p) +:+ " seconds"])
            (combine duplicate_request
               (timings example_world (length duplicate_request))).
Proof.
  split; [reflexivity|].
  apply (loop_logs_every_pass canonical_runner example_config duplicate_request
           example_world).
  reflexivity.
Defined.

Lemma loop_log_ends_at_failure_witness :
  first_raise canonical_runner example_config
    (runner_init canonical_runner example_config) failing_request
  = Some (1%nat, UnknownExperimentError "unknown_experiment")
  /\ exists e,
       failing_request !! 1%nat = Some e
       /\ w_log (snd (run_experiments canonical_runner example_config failing_request
                        example_world))
          = w_log example_world
            ++ flat_map (fun p => ["Starting experiment: " +:+ fst p;
                                   "Completed experiment: " +:+ fst p +:+ " in "
                                   +:+ format_2f_us (snd p) +:+ " seconds"])
                 (combine (take 1 failing_request) (timings example_world 1))
            ++ ["Starting experiment: " +:+ e].
Proof.
  split; [reflexivity|].
  apply (loop_log_ends_at_failure canonical_runner example_config failing_request
           example_world 1 (UnknownExperimentError "unknown_experiment")).
  reflexivity.
Defined.


(** ** [generate_report] on any dict *)

(** Once the file can be opened and the device has room, the document is
    written in full before anything is logged or printed. *)
Lemma generate_report_writes config (experiment_results : pydict) (w : World) :
  fs_lookup (w_fs w) (resolve (output_dir config)) = Some Dir ->
  fs_lookup (w_fs w) (report_entry config) ≠ Some Dir ->
  (String.length (report_text config experiment_results) <= w_disk_free w)%nat ->
  generate_report config experiment_results w
  = report_summary (os_path_join (output_dir config) "experiment_report.json")
      experiment_results (report_written config experiment_results w).
Proof.
  intros Hdir Hnodir Hroom.
  rewrite generate_report_unfold. unfold with_open_w.
  set (name := os_path_join (output_dir config) "experiment_report.json").
  assert (Hname : name ≠ "") by (by apply os_path_join_nonempty).
  assert (Hopen := open_w_ok name w Hname).
  change (resolve name) with (report_entry config) in Hopen.
  assert (Hparent : fs_lookup (w_fs w) (tail (report_entry config)) = Some Dir)
    by (by rewrite report_entry_in_output_dir).
  specialize (Hopen Hparent Hnodir).
  pose proof (bind_ok _ (fun f => json_dump (report_of config experiment_results) f 4)
                _ _ _ Hopen) as Hdump.
  cbv beta in Hdump. rewrite json_dump_fresh in Hdump.
  fold (report_text config experiment_results) in Hdump.
  rewrite (proj2 (Nat.leb_le _ _) Hroom) in Hdump.
  by rewrite (bind_ok _ _ _ _ _ Hdump).
Qed.

Lemma summary_line_row (row : string * bool * Z) w :
  summary_line (fst (fst row)) (outcome_of (snd (fst row)) (snd row)) w
  = (Ok (status_line row), w).
Proof.
  destruct row as [[e b] d]. unfold summary_line, outcome_of, status_line.
  cbn [fst snd subscript dict_get String.eqb Ascii.eqb Bool.eqb bind ret format_2f truthy].
  reflexivity.
Qed.

Lemma summary_loop_rows (rows : list (string * bool * Z)) (rest : pydict) (w : World) :
  for_each (outcome_rows rows ++ rest)
    (fun '(experiment, results) =>
       line <- summary_line experiment results ;; print line) w
  = for_each rest
      (fun '(experiment, results) =>
         line <- summary_line experiment results ;; print line)
      (say_all (map status_line rows) w).
Proof.
  revert w. induction rows as [|row rows IH]; intros w; [done|].
  cbn [outcome_rows map app for_each say_all fold_left].
  rewrite (bind_ok _ _ _ _ _ (bind_ok _ _ _ _ _ (summary_line_row row w))).
  cbn [print]. apply IH.
Qed.


(** X5: [generate_report] takes the status of a summary line from the
    entry: given a dict whose entries hold a [completed] flag of either
    value, it writes the report and prints, between the header and the
    footer, one line per entry in the order of the dict, with [Completed]
    where the flag is set and [Failed] where it is not. *)
Theorem summary_status_follows_flag config (rows : list (string * bool * Z)) (w : World) :
  fs_lookup (w_fs w) (resolve (output_dir config)) = Some Dir ->
  fs_lookup (w_fs w) (report_entry config) ≠ Some Dir ->
  (String.length (report_text config (outcome_rows rows)) <= w_disk_free w)%nat ->
  exists w',
    generate_report config (outcome_rows rows) w = (Ok tt, w')
    /\ w_stdout w'
       = w_stdout w
         ++ [String newline "===== Experiment Summary ====="]
         ++ map status_line rows
         ++ ["==============================" +:+ str1 newline]
    /\ w_fs w' = <[report_entry config := File (report_text config (outcome_rows rows))]>
                   (w_fs w).
Proof.
  intros Hdir Hnodir Hroom.
  rewrite (generate_report_writes _ _ _ Hdir Hnodir Hroom).
  unfold report_summary. cbn [bind logger_info print].
  match goal with |- context [bind (for_each _ ?body) _ ?v] =>
    assert (Hloop : for_each (outcome_rows rows) body v
                    = (Ok tt, say_all (map status_line rows) v))
      by (rewrite <- (app_nil_r (outcome_rows rows)); apply summary_loop_rows)
  end.
  rewrite (bind_ok _ _ _ _ _ Hloop).
  eexists. split; [reflexivity|].
  cbn [say w_stdout w_fs]. rewrite say_all_stdout, say_all_fs.
  cbn [say log_to report_written set_fs w_stdout w_fs].
  split; [|done]. by rewrite <- !app_assoc.
Qed.

(** X6: an entry without the key [completed], or with it and without the
    key [duration], makes [generate_report] fail with [KeyError] for that
    key.  By then the report is written in full and the header and the
    lines of the entries before it are printed; the footer is not. *)
Theorem summary_stops_at_missing_key config (rows : list (string * bool * Z))
    (experiment : string) (items rest : pydict) (key : string) (w : World) :
  let experiment_results := outcome_rows rows ++ (experiment, PyDict items) :: rest in
  fs_lookup (w_fs w) (resolve (output_dir config)) = Some Dir ->
  fs_lookup (w_fs w) (report_entry config) ≠ Some Dir ->
  (String.length (report_text config experiment_results) <= w_disk_free w)%nat ->
  (key = "completed" \/ key = "duration" /\ dict_get "completed" items ≠ None) ->
  dict_get key items = None ->
  exists w',
    generate_report config experiment_results w = (Raise (KeyError key), w')
    /\ w_fs w' = <[report_entry config := File (report_text config experiment_results)]>
                   (w_fs w)
    /\ w_stdout w'
       = w_stdout w
         ++ [String newline "===== Experiment Summary ====="]
         ++ map status_line rows.
Proof.
  intros results Hdir Hnodir Hroom Hkey Hmiss.
  rewrite (generate_report_writes _ _ _ Hdir Hnodir Hroom).
  unfold report_summary. cbn [bind logger_info print].
  subst results.
  assert (Hline : forall v, summary_line experiment (PyDict items) v = (Raise (KeyError key), v)).
  { intros v. unfold summary_line. cbn [subscript].
    destruct Hkey as [->|[-> Hc]].
    - by rewrite Hmiss.
    - destruct (dict_get "completed" items) as [c|]; [|done].
      cbn [bind ret]. by rewrite Hmiss. }
  match goal with |- context [bind (for_each ?l ?body) _ ?v] =>
    assert (Hloop : for_each l body v
                    = (Raise (KeyError key), say_all (map status_line rows) v))
  end.
  { rewrite summary_loop_rows. cbn [for_each].
    apply bind_raise with (w1 := say_all (map status_line rows) _).
    apply bind_raise, Hline. }
  rewrite (bind_raise _ _ _ _ _ Hloop).
  eexists. split; [reflexivity|].
  rewrite say_all_stdout, say_all_fs.
  cbn [say log_to report_written set_fs w_stdout w_fs].
  split; [done|]. by rewrite <- !app_assoc.
Qed.

Lemma outcome_of_well_formed b d : well_formed (outcome_of b d).
Proof.
  apply well_formed_dict. split.
  - apply (bool_decide_unpack _). by vm_compute.
  - by repeat constructor.
Qed.

Lemma report_of_well_formed config (experiment_results : pydict) :
  well_formed (PyDict experiment_results) ->
  well_formed (report_of config experiment_results).
Proof.
  intros Hres. unfold report_of.
  apply well_formed_dict. split.
  { apply (bool_decide_unpack _). by vm_compute. }
  apply Forall_cons; split; [|apply Forall_cons; split; [|constructor]]; cbn [snd].
  - apply well_formed_dict. split.
    + apply (bool_decide_unpack _). by vm_compute.
    + repeat (apply Forall_cons; split; [done|]). constructor.
  - exact Hres.
Qed.



Lemma summary_status_follows_flag_witness :
  fs_lookup (w_fs ready_world) (resolve (output_dir example_config)) = Some Dir
  /\ fs_lookup (w_fs ready_world) (report_entry example_config) ≠ Some Dir
  /\ (String.length (report_text example_config (outcome_rows example_rows))
      <= w_disk_free ready_world)%nat
  /\ exists w',
       generate_report example_config (outcome_rows example_rows) ready_world
       = (Ok tt, w')
       /\ w_stdout w'
          = w_stdout ready_world
            ++ [String newline "===== Experiment Summary ====="]
            ++ map status_line example_rows
            ++ ["==============================" +:+ str1 newline]
       /\ w_fs w'
          = <[report_entry example_config :=
                File (report_text example_config (outcome_rows example_rows))]>
              (w_fs ready_world).
Proof.
  assert (H1 : fs_lookup (w_fs ready_world) (resolve (output_dir example_config))
               = Some Dir)
    by (vm_compute; reflexivity).
  assert (H2 : fs_lookup (w_fs ready_world) (report_entry example_config) ≠ Some Dir)
    by (vm_compute; discriminate).
  assert (H3 : (String.length (report_text example_config (outcome_rows example_rows))
                <= w_disk_free ready_world)%nat)
    by (apply Nat.leb_le; vm_compute; reflexivity).
  split_and!; [exact H1 | exact H2 | exact H3 |].
  exact (summary_status_follows_flag example_config example_rows ready_world H1 H2 H3).
Defined.

Lemma summary_stops_at_missing_key_witness :
  let experiment_results :=
    outcome_rows example_rows
    ++ [("scalability_test", PyDict [("completed", PyBool true)]);
        ("user_segmentation", outcome 100000)] in
  fs_lookup (w_fs ready_world) (resolve (output_dir example_config)) = Some Dir
  /\ fs_lookup (w_fs ready_world) (report_entry example_config) ≠ Some Dir
  /\ (String.length (report_text example_config experiment_results)
      <= w_disk_free ready_world)%nat
  /\ dict_get "completed" [("completed", PyBool true)] ≠ None
  /\ dict_get "duration" [("completed", PyBool true)] = None
  /\ exists w',
       generate_report example_config experiment_results ready_world
       = (Raise (KeyError "duration"), w')
       /\ w_fs w'
          = <[report_entry example_config :=
                File (report_text example_config experiment_results)]>
              (w_fs ready_world)
       /\ w_stdout w'
          = w_stdout ready_world
            ++ [String newline "===== Experiment Summary ====="]
            ++ map status_line example_rows.
Proof.
  intros experiment_results.
  assert (H1 : fs_lookup (w_fs ready_world) (resolve (output_dir example_config))
               = Some Dir)
    by (vm_compute; reflexivity).
  assert (H2 : fs_lookup (w_fs ready_world) (report_entry example_config) ≠ Some Dir)
    by (vm_compute; discriminate).
  assert (H3 : (String.length (report_text example_config experiment_results)
                <= w_disk_free ready_world)%nat)
    by (apply Nat.leb_le; vm_compute; reflexivity).
  assert (H4 : dict_get "completed" [("completed", PyBool true)] ≠ None)
    by (vm_compute; discriminate).
  assert (H5 : dict_get "duration" [("completed", PyBool true)] = None)
    by reflexivity.
  split_and!; [exact H1 | exact H2 | exact H3 | exact H4 | exact H5 |].
  exact (summary_stops_at_missing_key example_config example_rows "scalability_test"
           [("completed", PyBool true)] [("user_segmentation", outcome 100000)]
           "duration" ready_world H1 H2 H3 (or_intror (conj eq_refl H4)) H5).
Defined.


(** ** The characters of the report *)

Lemma plain_ascii_app (a b : string) :
  plain_ascii (a +:+ b) = plain_ascii a && plain_ascii b.
Proof.
  induction a as [|c a IH]; [done|].
  rewrite str_app_cons. cbn [plain_ascii]. by rewrite IH, andb_assoc.
Qed.

Lemma all_digits_plain (s : string) : all_digits s = true -> plain_ascii s = true.
Proof.
  induction s as [|c s IH]; [done|]. cbn [all_digits plain_ascii].
  intros [Hc Hs]%andb_prop. rewrite (IH Hs), andb_true_r.
  unfold is_digit in Hc. apply andb_prop in Hc as [H1 H2].
  apply N.leb_le in H1, H2. apply orb_true_intro. right.
  apply andb_true_intro. split; apply N.leb_le; lia.
Qed.

Lemma escape_char_plain (c : ascii) : plain_ascii (escape_char c) = true.
Proof. destruct c as [[] [] [] [] [] [] [] []]; reflexivity. Qed.

Lemma escape_string_plain (s : string) : plain_ascii (escape_string s) = true.
Proof.
  induction s as [|c s IH]; [done|]. cbn [escape_string].
  by rewrite plain_ascii_app, escape_char_plain, IH.
Qed.

Lemma encode_basestring_plain (s : string) :
  plain_ascii (encode_basestring_ascii s) = true.
Proof.
  unfold encode_basestring_ascii. cbn [plain_ascii].
  by rewrite plain_ascii_app, escape_string_plain.
Qed.

Lemma repeat_str_plain (n : nat) : plain_ascii (repeat_str " " n) = true.
Proof. induction n as [|n IH]; [done|]. cbn [repeat_str]. by rewrite plain_ascii_app, IH. Qed.

Lemma int_repr_plain (z : Z) : plain_ascii (int_repr z) = true.
Proof.
  unfold int_repr. rewrite plain_ascii_app, (all_digits_plain _ (string_of_N_all _)).
  by destruct (z <? 0).
Qed.

Lemma digit_char_plain (d : N) : (d < 10)%N -> plain_ascii (str1 (digit_char d)) = true.
Proof.
  intros Hd. apply all_digits_plain. cbn [str1 all_digits].
  by rewrite digit_char_is_digit.
Qed.

Lemma rstrip_zeros_cons_all (s : string) (d : ascii) (rest : string) :
  all_digits s = true -> rstrip_zeros s = String d rest ->
  all_digits (str1 d) = true /\ all_digits rest = true.
Proof.
  intros Hs Hr. pose proof (rstrip_zeros_all s Hs) as Hall.
  rewrite Hr in Hall. unfold str1. cbn [all_digits] in *.
  apply andb_prop in Hall as [Hd Hrest]. split; [by rewrite Hd | done].
Qed.

Lemma float_repr_plain (us : Z) : plain_ascii (float_repr us) = true.
Proof.
  unfold float_repr. rewrite plain_ascii_app.
  apply andb_true_intro. split; [by destruct (us <? 0)|].
  set (m := Z.abs_N us).
  destruct ((0 <? m) && (m <? 100))%N eqn:Hsmall.
  - apply andb_prop in Hsmall as [_ Hm%N.ltb_lt].
    assert (m / 10 < 10)%N by (apply N.Div0.div_lt_upper_bound; lia).
    assert (m mod 10 < 10)%N by (by apply N.mod_lt).
    unfold sci_small.
    destruct (N.ltb_spec m 10); [|destruct (m mod 10 =? 0)%N];
      rewrite !plain_ascii_app, ?digit_char_plain by done; done.
  - destruct (10 ^ 22 <=? m)%N.
    + unfold sci_large.
      destruct (rstrip_zeros (string_of_N m)) as [|d rest] eqn:Hr.
      * apply all_digits_plain, string_of_N_all.
      * destruct (rstrip_zeros_cons_all _ _ _ (string_of_N_all m) Hr) as [Hd Hrest].
        rewrite !plain_ascii_app, (all_digits_plain _ Hd),
          (all_digits_plain _ (string_of_N_all _)).
        destruct rest; [done|].
        by rewrite plain_ascii_app, (all_digits_plain _ Hrest).
    + by rewrite !plain_ascii_app, (all_digits_plain _ (string_of_N_all _)),
        (all_digits_plain _ (frac_digits_all _)).
Qed.

Lemma str_join_plain (chunks : list string) :
  Forall (fun chunk => plain_ascii chunk = true) chunks ->
  plain_ascii (str_join chunks) = true.
Proof.
  induction 1 as [|c l Hc Hl IH]; [done|].
  rewrite str_join_cons, plain_ascii_app, Hc, IH. done.
Qed.

Lemma encode_items_plain (encode_value : pyval -> list string) (sep : string)
    (items : pydict) :
  plain_ascii sep = true ->
  Forall (fun kv => Forall (fun chunk => plain_ascii chunk = true)
                      (encode_value (snd kv))) items ->
  forall first,
    Forall (fun chunk => plain_ascii chunk = true)
      (encode_items encode_value sep first items).
Proof.
  intros Hsep. induction 1 as [|[k v] l Hv Hl IH]; intros first; [constructor|].
  cbn [encode_items snd] in *.
  repeat (apply Forall_app; split); try done.
  - destruct first; repeat constructor; done.
  - repeat constructor. apply encode_basestring_plain.
Qed.

Lemma iterencode_plain (indent : nat) (o : pyval) :
  forall level,
    Forall (fun chunk => plain_ascii chunk = true) (iterencode indent level o).
Proof.
  induction o as [b|z|us|s|items IH] using pyval_nested_ind; intros level.
  - destruct b; by repeat constructor.
  - repeat constructor. apply int_repr_plain.
  - repeat constructor. apply float_repr_plain.
  - repeat constructor. apply encode_basestring_plain.
  - destruct items as [|kv items]; [by repeat constructor|].
    cbn [iterencode].
    assert (Hnl : forall n, plain_ascii (String newline (repeat_str " " n)) = true).
    { intros n. cbn [plain_ascii]. by rewrite repeat_str_plain. }
    repeat (apply Forall_app; split).
    + repeat constructor. apply Hnl.
    + apply encode_items_plain.
      * rewrite plain_ascii_app, Hnl. done.
      * eapply Forall_impl; [exact IH|]. intros kv' H. apply H.
    + repeat constructor. apply Hnl.
Qed.

(** X8: the text of the report consists of line breaks and of characters
    from space to tilde only, whatever characters the identifiers, the
    paths of the configuration and the strings of the dict hold. *)
Theorem report_is_plain_ascii config (experiment_results : pydict) :
  plain_ascii (report_text config experiment_results) = true.
Proof.
  unfold report_text, json_dumps. apply str_join_plain, iterencode_plain.
Qed.

(** ** What [os.makedirs] touches *)

Lemma mkdir_exist_ok_frame {X : Type} (proj : World -> X) name p exist_ok :
  (forall fs w, proj (set_fs fs (w_disk_free w) w) = proj w) ->
  preserves proj (mkdir_exist_ok name p exist_ok).
Proof.
  intros Hproj w. unfold mkdir_exist_ok, os_mkdir, path_isdir.
  destruct (fs_lookup (w_fs w) p) as [[|c]|] eqn:Hp; cbn [negb snd]; rewrite ?Hp.
  - by destruct exist_ok.
  - by destruct exist_ok.
  - destruct (fs_lookup (w_fs w) (tail p)) as [[|c]|]; cbn [snd]; try done;
      destruct exist_ok; cbn [negb snd]; rewrite ?Hp; done.
Qed.

Lemma makedirs_path_frame {X : Type} (proj : World -> X) name p exist_ok :
  (forall fs w, proj (set_fs fs (w_disk_free w) w) = proj w) ->
  preserves proj (makedirs_path name p exist_ok).
Proof.
  intros Hproj. induction p as [|c head IH].
  - apply preserves_bind; [by intros w | intros _; by apply mkdir_exist_ok_frame].
  - destruct head as [|c' head'].
    + apply preserves_bind; [by intros w | intros _; by apply mkdir_exist_ok_frame].
    + rewrite makedirs_path_unfold.
      apply preserves_bind; [|intros _; by apply mkdir_exist_ok_frame].
      apply preserves_bind; [by intros w|]. intros [|]; [by intros w|].
      by apply preserves_try_pass.
Qed.

Lemma os_makedirs_frame {X : Type} (proj : World -> X) name exist_ok :
  (forall fs w, proj (set_fs fs (w_disk_free w) w) = proj w) ->
  preserves proj (os_makedirs name exist_ok).
Proof.
  intros Hproj. unfold os_makedirs. destruct (String.eqb name ""); [by intros w|].
  by apply makedirs_path_frame.
Qed.

Lemma log_blind_ret {A : Type} (a : A) : log_blind (ret a).
Proof. by intros msg w. Qed.

Lemma log_blind_bind {A B : Type} (m : M A) (f : A -> M B) :
  log_blind m -> (forall a, log_blind (f a)) -> log_blind (bind m f).
Proof.
  intros Hm Hf msg w. unfold bind. rewrite Hm.
  destruct (m w) as [[a|e] w1]; cbn [fst snd]; [apply Hf | done].
Qed.

Lemma log_blind_try_pass handles m : log_blind m -> log_blind (try_pass handles m).
Proof.
  intros Hm msg w. unfold try_pass. rewrite Hm.
  destruct (m w) as [[a|e] w1]; cbn [fst snd]; [done|]. by destruct (handles e).
Qed.

Lemma log_blind_mkdir name p exist_ok : log_blind (mkdir_exist_ok name p exist_ok).
Proof.
  intros msg w. unfold mkdir_exist_ok, os_mkdir, path_isdir. cbn [log_to w_fs].
  destruct (fs_lookup (w_fs w) p) as [[|c]|] eqn:Hp.
  - destruct exist_ok; cbn [negb fst snd log_to w_fs]; rewrite ?Hp; done.
  - destruct exist_ok; cbn [negb fst snd log_to w_fs]; rewrite ?Hp; done.
  - destruct (fs_lookup (w_fs w) (tail p)) as [[|c]|]; [done| |];
      destruct exist_ok; cbn [negb fst snd log_to w_fs]; rewrite ?Hp; done.
Qed.

Lemma log_blind_makedirs_path name p exist_ok : log_blind (makedirs_path name p exist_ok).
Proof.
  induction p as [|c head IH].
  - apply log_blind_bind; [apply log_blind_ret | intros _; apply log_blind_mkdir].
  - destruct head as [|c' head'].
    + apply log_blind_bind; [apply log_blind_ret | intros _; apply log_blind_mkdir].
    + rewrite makedirs_path_unfold.
      apply log_blind_bind; [|intros _; apply log_blind_mkdir].
      apply log_blind_bind; [by intros msg w|]. intros [|]; [apply log_blind_ret|].
      by apply log_blind_try_pass.
Qed.

Lemma log_blind_makedirs name exist_ok : log_blind (os_makedirs name exist_ok).
Proof.
  unfold os_makedirs. destruct (String.eqb name ""); [by intros msg w|].
  apply log_blind_makedirs_path.
Qed.

Lemma fs_lookup_map fs p : fs_lookup fs p = None -> fs !! p = None.
Proof.
  unfold fs_lookup. destruct p as [|r [|r' p']]; try done.
  by destruct (String.eqb r "/").
Qed.

Lemma fs_lookup_file fs p c : fs_lookup fs p = Some (File c) -> fs !! p = Some (File c).
Proof.
  unfold fs_lookup. destruct p as [|r [|r' p']]; try done.
  by destruct (String.eqb r "/").
Qed.

Lemma grown_towards_refl p fs : grown_towards p fs fs.
Proof. split; [done|]. intros q n H1 H2. congruence. Qed.

Lemma grown_towards_trans p p' fs1 fs2 fs3 :
  p `suffix_of` p' ->
  grown_towards p fs1 fs2 -> grown_towards p' fs2 fs3 -> grown_towards p' fs1 fs3.
Proof.
  intros Hp [K1 N1] [K2 N2]. split; [auto|].
  intros q n Hq1 Hq3. destruct (fs2 !! q) as [n2|] eqn:Hq2.
  - rewrite (K2 _ _ Hq2) in Hq3. injection Hq3 as <-.
    destruct (N1 _ _ Hq1 Hq2) as [-> Hs]. split; [done|]. by etrans.
  - by apply N2.
Qed.

Lemma mkdir_exist_ok_grows name p exist_ok w :
  grown_towards p (w_fs w) (w_fs (snd (mkdir_exist_ok name p exist_ok w))).
Proof.
  unfold mkdir_exist_ok, os_mkdir, path_isdir.
  destruct (fs_lookup (w_fs w) p) as [[|c]|] eqn:Hp; cbn [negb snd]; rewrite ?Hp.
  - destruct exist_ok; apply grown_towards_refl.
  - destruct exist_ok; apply grown_towards_refl.
  - apply fs_lookup_map in Hp as Hmap.
    destruct (fs_lookup (w_fs w) (tail p)) as [[|c]|]; cbn [snd];
      try (destruct exist_ok; cbn [negb snd]; rewrite ?Hp; apply grown_towards_refl).
    cbn [set_fs w_fs]. split.
    + intros q n Hq. rewrite lookup_insert_ne; [done|]. congruence.
    + intros q n Hq Hq'. destruct (decide (p = q)) as [<-|Hne].
      * rewrite lookup_insert_eq in Hq'. by injection Hq' as <-.
      * rewrite lookup_insert_ne in Hq' by done. congruence.
Qed.

Lemma makedirs_path_grows name p exist_ok w :
  grown_towards p (w_fs w) (w_fs (snd (makedirs_path name p exist_ok w))).
Proof.
  revert w. induction p as [|c head IH]; intros w.
  - apply mkdir_exist_ok_grows.
  - destruct head as [|c' head'].
    + apply mkdir_exist_ok_grows.
    + rewrite makedirs_path_unfold.
      assert (Hsuf : (c' :: head') `suffix_of` (c :: c' :: head')) by (by exists [c]).
      unfold bind at 1. unfold bind at 1. cbn [path_exists].
      destruct (fs_lookup (w_fs w) (c' :: head')) as [x|]; cbn [ret].
      * apply mkdir_exist_ok_grows.
      * unfold try_pass. specialize (IH w).
        destruct (makedirs_path name (c' :: head') exist_ok w) as [[[]|e] w1];
          cbn [snd] in *.
        -- eapply grown_towards_trans; [exact Hsuf | exact IH | apply mkdir_exist_ok_grows].
        -- destruct (is_FileExistsError e); cbn [snd].
           ++ eapply grown_towards_trans; [exact Hsuf | exact IH | apply mkdir_exist_ok_grows].
           ++ eapply grown_towards_trans; [exact Hsuf | exact IH | apply grown_towards_refl].
Qed.


(** ** Runs of [main] *)

Lemma say_all_log lines w : w_log (say_all lines w) = w_log w.
Proof.
  revert w. induction lines as [|l lines IH]; intros w; [done|].
  cbn [say_all fold_left]. fold (say_all lines (say l w)). by rewrite IH.
Qed.

Lemma say_all_calls lines w : w_calls (say_all lines w) = w_calls w.
Proof.
  revert w. induction lines as [|l lines IH]; intros w; [done|].
  cbn [say_all fold_left]. fold (say_all lines (say l w)). by rewrite IH.
Qed.

Lemma timings_same (w w' : World) (n : nat) :
  w_clock w' = w_clock w -> w_ticks w' = w_ticks w -> timings w' n = timings w n.
Proof.
  intros Hc Ht. unfold timings, timing. by rewrite Hc, Ht.
Qed.

Lemma os_makedirs_made name w w1 :
  os_makedirs name true w = (Ok tt, w1) ->
  fs_lookup (w_fs w1) (resolve name) = Some Dir.
Proof.
  unfold os_makedirs. destruct (String.eqb name ""); [done|].
  intros H. by destruct (makedirs_path_result _ _ _ _ _ H).
Qed.

Section MainFacts.

Variable R : experiment_runner.

Lemma main_unfold (args : Args) (w : World) :
  main R args w =
  match os_makedirs (args_output_dir args) true (log_to startup_record w) with
  | (Ok _, w1) =>
      match run_experiments R (config_of_args args) (args_experiments args)
              (log_to ("Configuration: " +:+ config_vars R (config_of_args args)) w1)
      with
      | (Ok experiment_results, w2) =>
          match generate_report (config_of_args args) experiment_results w2 with
          | (Ok _, w3) => (Ok tt, log_to success_record w3)
          | (Raise e, w3) => (Raise e, w3)
          end
      | (Raise e, w2) => (Raise e, w2)
      end
  | (Raise e, w1) => (Raise e, w1)
  end.
Proof. reflexivity. Qed.

(** The world in which the loop of [run_experiments] starts when
    [os.makedirs] took [w] to [w1]. *)
Lemma main_reaches_loop (args : Args) (w w1 : World) :
  os_makedirs (args_output_dir args) true w = (Ok tt, w1) ->
  let w2 := log_to ("Configuration: " +:+ config_vars R (config_of_args args))
              (log_to startup_record w1) in
  main R args w =
  match run_experiments R (config_of_args args) (args_experiments args) w2 with
  | (Ok experiment_results, w3) =>
      match generate_report (config_of_args args) experiment_results w3 with
      | (Ok _, w4) => (Ok tt, log_to success_record w4)
      | (Raise e, w4) => (Raise e, w4)
      end
  | (Raise e, w3) => (Raise e, w3)
  end
  /\ w_clock w2 = w_clock w /\ w_ticks w2 = w_ticks w
  /\ w_log w2 = w_log w ++ [startup_record;
                            "Configuration: " +:+ config_vars R (config_of_args args)]
  /\ w_stdout w2 = w_stdout w /\ w_calls w2 = w_calls w
  /\ w_fs w2 = w_fs w1 /\ w_disk_free w2 = w_disk_free w.
Proof.
  intros Hmk w2. subst w2. split.
  - rewrite main_unfold, log_blind_makedirs, Hmk. reflexivity.
  - cbn [log_to w_clock w_ticks w_log w_stdout w_calls w_fs w_disk_free].
    pose proof (os_makedirs_frame w_clock (args_output_dir args) true
                  (fun _ _ => eq_refl) w) as H1.
    pose proof (os_makedirs_frame w_ticks (args_output_dir args) true
                  (fun _ _ => eq_refl) w) as H2.
    pose proof (os_makedirs_frame w_log (args_output_dir args) true
                  (fun _ _ => eq_refl) w) as H3.
    pose proof (os_makedirs_frame w_stdout (args_output_dir args) true
                  (fun _ _ => eq_refl) w) as H4.
    pose proof (os_makedirs_frame w_calls (args_output_dir args) true
                  (fun _ _ => eq_refl) w) as H5.
    pose proof (os_makedirs_frame w_disk_free (args_output_dir args) true
                  (fun _ _ => eq_refl) w) as H6.
    rewrite Hmk in H1, H2, H3, H4, H5, H6. cbn [snd] in *.
    rewrite H1, H2, H3, H4, H5, H6. rewrite <- app_assoc. done.
Qed.



End MainFacts.



(** ** What [main] logs *)

Lemma logs_preserves {A : Type} (P : string -> Prop) (m : M A) :
  preserves w_log m -> logs P m.
Proof. intros Hm w. exists []. by rewrite Hm, app_nil_r. Qed.

Lemma logs_logger_info (P : string -> Prop) (msg : string) :
  P msg -> logs P (logger_info msg).
Proof. intros Hmsg w. exists [msg]. split; [done | by repeat constructor]. Qed.

Lemma logs_bind {A B : Type} (P : string -> Prop) (m : M A) (f : A -> M B) :
  logs P m -> (forall a, logs P (f a)) -> logs P (bind m f).
Proof.
  intros Hm Hf w. unfold bind. destruct (Hm w) as (r1 & E1 & F1).
  destruct (m w) as [[a|e] w1]; cbn [snd] in *; [|by exists r1].
  destruct (Hf a w1) as (r2 & E2 & F2). exists (r1 ++ r2).
  rewrite E2, E1, app_assoc. split; [done | by apply Forall_app].
Qed.

Lemma starting_record_ne (e : string) : starting_record e ≠ success_record.
Proof. unfold starting_record, success_record. rewrite str_app_cons. discriminate. Qed.

Lemma completed_record_ne (e : string) (d : Z) : completed_record e d ≠ success_record.
Proof. unfold completed_record, success_record. rewrite str_app_cons. discriminate. Qed.

Lemma run_loop_logs (R : experiment_runner) (runner : Runner R)
    (experiments : list string) (results : pydict) :
  logs (fun r => r ≠ success_record) (run_loop R runner experiments results).
Proof.
  revert runner results.
  induction experiments as [|e rest IH]; intros runner results.
  - apply logs_preserves. by intros w.
  - cbn [run_loop].
    apply logs_bind; [apply logs_logger_info, starting_record_ne | intros _].
    apply logs_bind; [apply logs_preserves; by intros w | intros start_time].
    apply logs_bind.
    { apply logs_preserves. intros w. unfold run_experiment.
      by destruct (runner_step R _ _ _) as [[p|err] st]. }
    intros [p runner']. apply logs_bind; [apply logs_preserves; by intros w | intros end_time].
    apply logs_bind; [apply logs_logger_info, completed_record_ne | intros _].
    apply IH.
Qed.

Lemma file_write_log f chunk : preserves w_log (file_write f chunk).
Proof.
  intros w. unfold file_write.
  destruct (w_fs w !! f_path f) as [[|content]|]; try done.
  by destruct (String.length chunk <=? w_disk_free w)%nat.
Qed.

Lemma generate_report_logs config (experiment_results : pydict) :
  logs (fun r => r ≠ success_record) (generate_report config experiment_results).
Proof.
  rewrite generate_report_unfold. apply logs_bind; [|intros _].
  - apply logs_preserves. unfold with_open_w. apply preserves_bind.
    + intros w.
      destruct (open_w_cases (os_path_join (output_dir config) "experiment_report.json") w)
        as [(e & -> & _)| ->]; done.
    + intros f. unfold json_dump. apply preserves_for_each. intros chunk.
      apply file_write_log.
  - unfold report_summary. apply logs_bind; [|intros _].
    + apply logs_logger_info. rewrite str_app_cons. discriminate.
    + apply logs_preserves.
      repeat (apply preserves_bind; [|intros _]); try (by intros w).
      apply preserves_for_each. intros [experiment results].
      apply preserves_bind; [|by intros line w].
      intros w. by rewrite summary_line_pure.
Qed.

Lemma not_elem_of_Forall_ne (x : string) (l : list string) :
  Forall (fun r => r ≠ x) l -> x ∉ l.
Proof. rewrite Forall_forall. intros H Hin. by apply (H x). Qed.

Section MainLog.

Variable R : experiment_runner.

(** X10: the record that all experiments completed successfully is among
    the records [main] logged exactly when [main] returned; a run that
    ended with an exception, wherever it was raised, did not log it. *)
Theorem success_logged_iff_returned (args : Args) (w : World) :
  exists records,
    w_log (snd (main R args w)) = w_log w ++ records
    /\ ("All experiments completed successfully" ∈ records
        <-> fst (main R args w) = Ok tt).
Proof.
  rewrite main_unfold.
  pose proof (os_makedirs_frame w_log (args_output_dir args) true
                (fun _ _ => eq_refl) (log_to startup_record w)) as Hmk.
  destruct (os_makedirs _ _ _) as [[[]|e1] w1]; cbn [snd log_to w_log] in Hmk.
  2:{ exists [startup_record]. split; [done|]. split; [|done].
      intros H%list_elem_of_singleton. discriminate. }
  set (w2 := log_to _ w1).
  destruct (run_loop_logs R (ForgettingExperimentRunner R (config_of_args args))
              (args_experiments args) [] w2) as (r2 & E2 & F2).
  fold (run_experiments R (config_of_args args) (args_experiments args) w2) in E2.
  destruct (run_experiments _ _ _ _) as [[results|e2] w3]; cbn [snd] in E2.
  2:{ exists ([startup_record; "Configuration: " +:+ config_vars R (config_of_args args)] ++ r2).
      cbn [snd fst]. split.
      - rewrite E2. subst w2. cbn [log_to w_log]. rewrite Hmk, <- !app_assoc. done.
      - split; [|done]. intros H. exfalso. revert H. apply not_elem_of_Forall_ne.
        apply Forall_app. split; [|done].
        repeat constructor; [done|]. rewrite str_app_cons. discriminate. }
  destruct (generate_report_logs (config_of_args args) results w3) as (r3 & E3 & F3).
  destruct (generate_report _ _ _) as [[[]|e3] w4]; cbn [snd] in E3.
  - exists ([startup_record; "Configuration: " +:+ config_vars R (config_of_args args)]
            ++ r2 ++ r3 ++ [success_record]).
    cbn [snd fst log_to w_log]. split.
    + rewrite E3, E2. subst w2. cbn [log_to w_log]. rewrite Hmk, <- !app_assoc. done.
    + split; [done|]. intros _. rewrite !elem_of_app. do 3 right.
      apply list_elem_of_singleton. done.
  - exists ([startup_record; "Configuration: " +:+ config_vars R (config_of_args args)]
            ++ r2 ++ r3).
    cbn [snd fst]. split.
    + rewrite E3, E2. subst w2. cbn [log_to w_log]. rewrite Hmk, <- !app_assoc. done.
    + split; [|done]. intros H. exfalso. revert H. apply not_elem_of_Forall_ne.
      repeat (apply Forall_app; split); try done.
      repeat constructor; [done|]. rewrite str_app_cons. discriminate.
Qed.

End MainLog.

(** ** When the output directory cannot be made *)

Lemma mkdir_exist_ok_raises name p exist_ok w e w' :
  mkdir_exist_ok name p exist_ok w = (Raise e, w') -> is_IOError e = true.
Proof.
  unfold mkdir_exist_ok, os_mkdir, path_isdir.
  destruct (fs_lookup (w_fs w) p) as [[|c]|] eqn:Hp.
  - destruct exist_ok; cbn [negb]; rewrite ?Hp; by intros [= <- _].
  - destruct exist_ok; cbn [negb]; rewrite ?Hp; by intros [= <- _].
  - destruct (fs_lookup (w_fs w) (tail p)) as [[|c]|]; [done| |];
      destruct exist_ok; cbn [negb]; rewrite ?Hp; by intros [= <- _].
Qed.

Lemma makedirs_path_raises name p exist_ok w e w' :
  makedirs_path name p exist_ok w = (Raise e, w') -> is_IOError e = true.
Proof.
  revert w e w'. induction p as [|c head IH]; intros w e w'.
  - apply mkdir_exist_ok_raises.
  - destruct head as [|c' head'].
    + apply mkdir_exist_ok_raises.
    + rewrite makedirs_path_unfold.
      unfold bind at 1. unfold bind at 1. cbn [path_exists].
      destruct (fs_lookup (w_fs w) (c' :: head')) as [x|]; cbn [ret].
      * apply mkdir_exist_ok_raises.
      * unfold try_pass.
        destruct (makedirs_path name (c' :: head') exist_ok w) as [[[]|e1] w1] eqn:Hm.
        -- apply mkdir_exist_ok_raises.
        -- destruct (is_FileExistsError e1) eqn:He1.
           ++ apply mkdir_exist_ok_raises.
           ++ intros [= <- <-]. apply (IH _ _ _ Hm).
Qed.

Lemma os_makedirs_raises name exist_ok w e w' :
  os_makedirs name exist_ok w = (Raise e, w') -> is_IOError e = true.
Proof.
  unfold os_makedirs. destruct (String.eqb name "").
  - by intros [= <- _].
  - apply makedirs_path_raises.
Qed.

Lemma resolve_nonempty name : resolve name ≠ [] -> name ≠ "".
Proof. by intros H ->. Qed.

Section MainStops.

Variable R : experiment_runner.


End MainStops.




(** * Properties of [parse_args] *)

(** ** [int] *)

Lemma digit_not_space (c : ascii) : is_digit c = true -> int_space c = false.
Proof. destruct c as [[] [] [] [] [] [] [] []]; (discriminate || reflexivity). Qed.

Lemma digit_not_underscore (c : ascii) : is_digit c = true -> Ascii.eqb c "_" = false.
Proof. destruct c as [[] [] [] [] [] [] [] []]; (discriminate || reflexivity). Qed.

Lemma digit_not_plus (c : ascii) : is_digit c = true -> Ascii.eqb c "+" = false.
Proof. destruct c as [[] [] [] [] [] [] [] []]; (discriminate || reflexivity). Qed.

Lemma scan_int_digits_all (ds : string) :
  all_digits ds = true ->
  forall prev acc digits,
    Ascii.eqb prev "_" = false ->
    scan_int_digits prev acc digits ds
    = Some (digits_acc acc ds, (digits + String.length ds)%nat, "").
Proof.
  induction ds as [|c ds IH]; intros Hall prev acc digits Hprev.
  - cbn [scan_int_digits digits_acc String.length]. rewrite Hprev, Nat.add_0_r. done.
  - cbn [all_digits] in Hall. apply andb_prop in Hall as [Hc Hds].
    cbn [scan_int_digits digits_acc String.length].
    rewrite (digit_not_underscore _ Hc), Hc.
    rewrite (IH Hds) by (by apply digit_not_underscore).
    do 3 f_equal. lia.
Qed.

Lemma lstrip_space_stop (c : ascii) (s : string) :
  int_space c = false -> lstrip_space (String c s) = String c s.
Proof. intros H. cbn [lstrip_space]. by rewrite H. Qed.

(** [int] reads back the decimal text of a number, as long as the text has
    no more digits than the limit allows. *)
Lemma py_int_repr (z : Z) :
  (String.length (string_of_N (Z.abs_N z)) <= int_max_str_digits)%nat ->
  py_int (int_repr z) = Some z.
Proof.
  intros Hlen. unfold py_int, int_repr.
  destruct (string_of_N_first (Z.abs_N z)) as (c & r & Hs & Hc).
  pose proof (string_of_N_all (Z.abs_N z)) as Hall.
  pose proof (string_of_N_value (Z.abs_N z)) as Hval.
  assert (Hscan : scan_int_digits zero 0 0 (string_of_N (Z.abs_N z))
                  = Some (Z.abs_N z, String.length (string_of_N (Z.abs_N z)), "")).
  { rewrite (scan_int_digits_all _ Hall) by done. by rewrite Hval. }
  rewrite Hs in *.
  assert (Hpos : (String.length (String c r) =? 0)%nat = false) by done.
  assert (Hmax : (int_max_str_digits <? String.length (String c r))%nat = false)
    by (apply Nat.ltb_ge; exact Hlen).
  destruct (Z.ltb_spec z 0) as [Hneg|Hnn].
  - rewrite str_app_cons, str_app_nil_l.
    rewrite lstrip_space_stop by reflexivity. cbv zeta.
    change (Ascii.eqb "-" "-") with true. change (Ascii.eqb "-" "+") with false.
    cbn [orb]. rewrite (digit_not_underscore _ Hc), Hscan, Hpos, Hmax.
    cbn [lstrip_space String.eqb negb]. f_equal. lia.
  - rewrite str_app_nil_l.
    rewrite lstrip_space_stop by (by apply digit_not_space). cbv zeta.
    rewrite (digit_not_minus _ Hc), (digit_not_plus _ Hc). cbn [orb].
    rewrite (digit_not_underscore _ Hc), Hscan, Hpos, Hmax.
    cbn [lstrip_space String.eqb negb]. f_equal. lia.
Qed.

(** ** How argument strings are classified *)

Lemma no_dash_not_dashes (s : string) : no_dash s = true -> String.eqb s "--" = false.
Proof.
  destruct s as [|c s]; [done|]. cbn [no_dash String.eqb].
  intros H. apply negb_true_iff in H. by rewrite H.
Qed.

Lemma parse_optional_no_dash (s : string) : no_dash s = true -> parse_optional s = Positional.
Proof.
  destruct s as [|c s]; [done|]. cbn [no_dash parse_optional]. by intros ->.
Qed.

Lemma option_lookup_digit (c : ascii) (r : string) :
  is_digit c = true -> dict_get (String "-" (String c r)) option_string_actions = None.
Proof. destruct c as [[] [] [] [] [] [] [] []]; (discriminate || reflexivity). Qed.

Lemma option_tuples_digit (c : ascii) (r : string) :
  is_digit c = true -> get_option_tuples (String "-" (String c r)) = [].
Proof. destruct c as [[] [] [] [] [] [] [] []]; (discriminate || reflexivity). Qed.

Lemma contains_char_digits (ch : ascii) (ds : string) :
  is_digit ch = false -> all_digits ds = true -> contains_char ch ds = false.
Proof.
  intros Hch. induction ds as [|c ds IH]; [done|].
  cbn [all_digits contains_char]. intros [Hc Hds]%andb_prop.
  rewrite (IH Hds), orb_false_r.
  destruct (Ascii.eqb_spec ch c) as [->|]; [congruence | done].
Qed.

Lemma chomp_newline_digits (ds : string) : all_digits ds = true -> chomp_newline ds = ds.
Proof.
  induction ds as [|c ds IH]; [done|].
  cbn [all_digits]. intros [Hc Hds]%andb_prop.
  cbn [chomp_newline]. destruct ds as [|c' ds'].
  - destruct (Ascii.eqb_spec c newline) as [->|]; [discriminate | done].
  - by rewrite (IH Hds).
Qed.

Lemma span_digits_all (ds : string) : all_digits ds = true -> span_digits ds = (ds, "").
Proof.
  induction ds as [|c ds IH]; [done|].
  cbn [all_digits span_digits]. intros [Hc Hds]%andb_prop.
  by rewrite Hc, (IH Hds).
Qed.

Lemma negative_number_digits (c : ascii) (r : string) :
  all_digits (String c r) = true -> negative_number (String "-" (String c r)) = true.
Proof.
  intros Hall. unfold negative_number.
  change (chomp_newline (String "-" (String c r)))
    with (String "-" (chomp_newline (String c r))).
  rewrite (chomp_newline_digits _ Hall), (span_digits_all _ Hall). done.
Qed.

(** The decimal text of a number, negative or not, is taken for an
    argument, not for an option. *)
Lemma parse_optional_int (z : Z) : parse_optional (int_repr z) = Positional.
Proof.
  unfold int_repr.
  destruct (string_of_N_first (Z.abs_N z)) as (c & r & Hs & Hc).
  pose proof (string_of_N_all (Z.abs_N z)) as Hall. rewrite Hs in *.
  destruct (z <? 0).
  - rewrite str_app_cons, str_app_nil_l.
    unfold parse_optional. change (Ascii.eqb "-" "-") with true. cbn [negb].
    rewrite (option_lookup_digit _ _ Hc). cbn [String.eqb].
    assert (Heq : contains_char "=" (String "-" (String c r)) = false).
    { cbn [contains_char]. change (Ascii.eqb "=" "-") with false. cbn [orb].
      by apply (contains_char_digits "=" (String c r)). }
    rewrite Heq, (option_tuples_digit _ _ Hc), (negative_number_digits _ _ Hall). done.
  - rewrite str_app_nil_l. apply parse_optional_no_dash.
    cbn [no_dash]. by rewrite (digit_not_minus _ Hc).
Qed.

Lemma int_repr_not_dashes (z : Z) : String.eqb (int_repr z) "--" = false.
Proof.
  unfold int_repr.
  destruct (string_of_N_first (Z.abs_N z)) as (c & r & Hs & Hc). rewrite Hs.
  destruct (z <? 0).
  - rewrite str_app_cons, str_app_nil_l. cbn [String.eqb].
    change (Ascii.eqb "-" "-") with true. by rewrite (digit_not_minus _ Hc).
  - rewrite str_app_nil_l. cbn [String.eqb]. by rewrite (digit_not_minus _ Hc).
Qed.

(** ** The pattern of a command line of settings *)

Lemma pattern_of_argument (s : string) (rest : list string) :
  String.eqb s "--" = false -> parse_optional s = Positional ->
  arg_strings_pattern (s :: rest)
  = option_map (cons (s, pattern_A)) (arg_strings_pattern rest).
Proof. intros H1 H2. cbn [arg_strings_pattern]. by rewrite H1, H2. Qed.

Lemma pattern_of_arguments (l rest : list string) :
  Forall (fun s => no_dash s = true) l ->
  arg_strings_pattern (l ++ rest)
  = option_map (app (map (fun s => (s, pattern_A)) l)) (arg_strings_pattern rest).
Proof.
  induction 1 as [|s l Hs Hl IH]; cbn [app map].
  - by destruct (arg_strings_pattern rest).
  - rewrite pattern_of_argument
      by (by apply no_dash_not_dashes || by apply parse_optional_no_dash).
    rewrite IH. by destruct (arg_strings_pattern rest).
Qed.

Lemma pattern_of_setting (x : setting) (rest : list string) :
  well_said x ->
  arg_strings_pattern (command_line x ++ rest)
  = option_map (app (setting_pattern x)) (arg_strings_pattern rest).
Proof.
  intros Hx.
  assert (Hint : forall o z,
            String.eqb o "--" = false ->
            (exists a, parse_optional o = Optional (Some a) o None
                       /\ dict_get o option_string_actions = Some a) ->
            arg_strings_pattern ([o; int_repr z] ++ rest)
            = option_map
                (app [(o, pattern_O (dict_get o option_string_actions) o None);
                      (int_repr z, pattern_A)])
                (arg_strings_pattern rest)).
  { intros o z Ho (a & Hp & Hd). cbn [app arg_strings_pattern].
    rewrite Ho, Hp, Hd, (int_repr_not_dashes z), (parse_optional_int z).
    by destruct (arg_strings_pattern rest). }
  assert (Hstr : forall o s,
            String.eqb o "--" = false ->
            (exists a, parse_optional o = Optional (Some a) o None
                       /\ dict_get o option_string_actions = Some a) ->
            no_dash s = true ->
            arg_strings_pattern ([o; s] ++ rest)
            = option_map
                (app [(o, pattern_O (dict_get o option_string_actions) o None);
                      (s, pattern_A)])
                (arg_strings_pattern rest)).
  { intros o s Ho (a & Hp & Hd) Hs. cbn [app arg_strings_pattern].
    rewrite Ho, Hp, Hd, (no_dash_not_dashes s Hs), (parse_optional_no_dash s Hs).
    by destruct (arg_strings_pattern rest). }
  destruct x as [s|s|l|z| |z|z]; cbn [well_said] in Hx;
    unfold setting_pattern; cbn [command_line map].
  - apply Hstr; [done | by eexists | done].
  - apply Hstr; [done | by eexists | done].
  - destruct Hx as [_ Hl]. cbn [app arg_strings_pattern].
    change (String.eqb "--experiments" "--") with false. cbv iota.
    change (parse_optional "--experiments")
      with (Optional (Some (StoreListAction dest_experiments)) "--experiments" None).
    cbv iota. rewrite (pattern_of_arguments l rest Hl).
    by destruct (arg_strings_pattern rest).
  - apply Hint; [done | by eexists].
  - cbn [app arg_strings_pattern].
    change (String.eqb "--temporal_split" "--") with false. cbv iota.
    change (parse_optional "--temporal_split")
      with (Optional (Some (StoreTrueAction dest_temporal_split)) "--temporal_split" None).
    cbv iota. by destruct (arg_strings_pattern rest).
  - apply Hint; [done | by eexists].
  - apply Hint; [done | by eexists].
Qed.

Lemma pattern_of_settings (settings : list setting) :
  Forall well_said settings ->
  arg_strings_pattern (flat_map command_line settings)
  = Some (flat_map setting_pattern settings).
Proof.
  induction 1 as [|x settings Hx Hs IH]; [done|].
  cbn [flat_map]. by rewrite (pattern_of_setting x _ Hx), IH.
Qed.

(** ** The loop over a command line of settings *)

Lemma consume_skip (taken following : list (string * pattern)) namespace extras :
  consume (taken ++ following) (length taken) namespace extras
  = consume following 0 namespace extras.
Proof.
  induction taken as [|[s p] taken IH]; [done|].
  cbn [app length consume]. apply IH.
Qed.

Lemma remove_dashes_no_dash (l : list string) :
  Forall (fun s => no_dash s = true) l -> remove_dashes l = l.
Proof.
  induction 1 as [|s l Hs Hl IH]; [done|].
  cbn [remove_dashes]. by rewrite (no_dash_not_dashes s Hs), IH.
Qed.

Lemma leading_arguments_app (l : list string) (following : list (string * pattern)) :
  leading_arguments following = [] ->
  leading_arguments (map (fun s => (s, pattern_A)) l ++ following) = l.
Proof.
  intros Hf. induction l as [|s l IH]; [done|].
  cbn [map app leading_arguments]. by rewrite IH.
Qed.

Lemma leading_arguments_settings (settings : list setting) :
  leading_arguments (flat_map setting_pattern settings) = [].
Proof. destruct settings as [|[] settings]; reflexivity. Qed.

(** The strings of a setting make the loop store its value and go on
    behind them. *)
Lemma consume_setting (x : setting) (following : list (string * pattern))
    namespace extras :
  well_said x -> (takes_more x = true -> leading_arguments following = []) ->
  consume (setting_pattern x ++ following) 0 namespace extras
  = consume following 0 (setting_store x namespace) extras.
Proof.
  intros Hx Hf.
  assert (Hone : forall o d type s v,
            dict_get o option_string_actions = Some (StoreAction d type) ->
            String.eqb s "--" = false -> get_value type s = Some v ->
            consume ((o, pattern_O (dict_get o option_string_actions) o None)
                     :: (s, pattern_A) :: following) 0 namespace extras
            = consume following 0 (setattr namespace d v) extras).
  { intros o d type s v Hd Hs Hv. rewrite Hd.
    cbn [consume consume_optional match_argument length take_actions take_action
         remove_dashes].
    by rewrite Hs, Hv. }
  destruct x as [s|s|l|z| |z|z]; cbn [well_said] in Hx;
    unfold setting_pattern; cbn [command_line map app setting_store].
  - apply (Hone _ _ type_str); [done | by apply no_dash_not_dashes | done].
  - apply (Hone _ _ type_str); [done | by apply no_dash_not_dashes | done].
  - destruct Hx as [Hne Hl].
    change (dict_get "--experiments" option_string_actions)
      with (Some (StoreListAction dest_experiments)).
    cbn [consume consume_optional match_argument].
    rewrite (leading_arguments_app l following (Hf eq_refl)).
    destruct l as [|s l]; [done|].
    cbn [take_actions take_action]. rewrite (remove_dashes_no_dash _ Hl).
    rewrite <- (length_map (fun s => (s, pattern_A)) (s :: l)).
    apply consume_skip.
  - apply (Hone _ _ type_int); [done | apply int_repr_not_dashes |].
    cbn [get_value]. by rewrite (py_int_repr z Hx).
  - reflexivity.
  - apply (Hone _ _ type_int); [done | apply int_repr_not_dashes |].
    cbn [get_value]. by rewrite (py_int_repr z Hx).
  - apply (Hone _ _ type_int); [done | apply int_repr_not_dashes |].
    cbn [get_value]. by rewrite (py_int_repr z Hx).
Qed.

Lemma consume_settings (settings : list setting) namespace extras :
  Forall well_said settings ->
  consume (flat_map setting_pattern settings) 0 namespace extras
  = Parsed (fold_left (fun ns x => setting_store x ns) settings namespace, extras).
Proof.
  intros H. revert namespace.
  induction H as [|x settings Hx Hs IH]; intros namespace; [done|].
  cbn [flat_map fold_left].
  rewrite (consume_setting x _ _ _ Hx (fun _ => leading_arguments_settings settings)).
  apply IH.
Qed.

Lemma args_of_setting_store (x : setting) (namespace : Namespace) (args : Args) :
  args_of_namespace namespace = Some args ->
  args_of_namespace (setting_store x namespace) = Some (apply_setting args x).
Proof.
  unfold args_of_namespace. destruct namespace as [dp od ex nu ts td sd].
  cbn [ns_data_path ns_output_dir ns_experiments ns_num_users ns_temporal_split
       ns_test_days ns_seed].
  destruct dp; try discriminate. destruct od; try discriminate.
  destruct ex; try discriminate. destruct nu; try discriminate.
  destruct ts; try discriminate. destruct td; try discriminate.
  destruct sd; try discriminate.
  intros [= <-]. by destruct x.
Qed.

Lemma args_of_settings (settings : list setting) (namespace : Namespace) (args : Args) :
  args_of_namespace namespace = Some args ->
  args_of_namespace (fold_left (fun ns x => setting_store x ns) settings namespace)
  = Some (fold_left apply_setting settings args).
Proof.
  revert namespace args. induction settings as [|x settings IH]; intros namespace args H.
  - done.
  - cbn [fold_left]. apply IH. by apply args_of_setting_store.
Qed.

(** X15: a command line that says settings by the full names of their
    options, each followed by its values, is accepted, and the namespace
    holds, with the declared types, the defaults overridden by the
    settings in the order given: an option that is not named keeps its
    default, one named twice has its last value, the experiments are taken
    as they are written, in order and with repetitions, and a number may
    be negative. *)
Theorem parse_args_reads_settings (settings : list setting) :
  Forall well_said settings ->
  exists namespace,
    parse_args (flat_map command_line settings) = Parsed namespace
    /\ args_of_namespace namespace = Some (fold_left apply_setting settings default_args).
Proof.
  intros H.
  exists (fold_left (fun ns x => setting_store x ns) settings default_namespace). split.
  - unfold parse_args, parse_known_args.
    by rewrite (pattern_of_settings settings H), (consume_settings settings _ _ H).
  - by apply args_of_settings.
Qed.

Lemma parse_args_reads_settings_witness :
  Forall well_said example_settings
  /\ exists namespace,
       parse_args ["--seed"; "-7"; "--experiments"; "user_segmentation";
                   "baseline_comparison"; "user_segmentation"; "--temporal_split";
                   "--output_dir"; "out"; "--seed"; "7"]
       = Parsed namespace
       /\ args_of_namespace namespace
          = Some {| args_data_path := "./ml-100k"; args_output_dir := "out";
                    args_experiments := duplicate_request;
                    args_num_users := 50; args_temporal_split := true;
                    args_test_days := 30; args_seed := 7 |}.
Proof.
  assert (H : Forall well_said example_settings).
  { repeat (apply List.Forall_cons); try apply List.Forall_nil; cbn [well_said];
      try done; try (apply Nat.leb_le; reflexivity).
    split; [done|]. by repeat (apply List.Forall_cons); try apply List.Forall_nil. }
  split; [exact H|].
  exact (parse_args_reads_settings example_settings H).
Defined.

(** ** Strings that no option takes *)

Lemma consume_extras (arg_strings : list (string * pattern)) :
  forall skip namespace extras namespace' extras',
    consume arg_strings skip namespace extras = Parsed (namespace', extras') ->
    exists more, extras' = extras ++ more.
Proof.
  induction arg_strings as [|[s p] following IH]; intros skip namespace extras ns' ex' H.
  - injection H as _ <-. exists []. by rewrite app_nil_r.
  - cbn [consume] in H. destruct skip as [|skip]; [|by eapply IH].
    assert (Hextra : consume following 0 namespace (extras ++ [s]) = Parsed (ns', ex') ->
                     exists more, ex' = extras ++ more).
    { intros H'. apply IH in H' as (more & ->). exists (s :: more).
      by rewrite <- app_assoc. }
    destruct p as [[a|] option_string explicit_arg| |]; try by apply Hextra.
    destruct (consume_optional a option_string explicit_arg following)
      as [[action_tuples arg_count]|]; [|done].
    destruct (take_actions action_tuples namespace) as [namespace1|status]; [|done].
    by eapply IH.
Qed.

Lemma parse_args_Parsed (args : list string) (namespace : Namespace) :
  parse_args args = Parsed namespace ->
  exists arg_strings,
    arg_strings_pattern args = Some arg_strings
    /\ consume arg_strings 0 default_namespace [] = Parsed (namespace, []).
Proof.
  unfold parse_args, parse_known_args.
  destruct (arg_strings_pattern args) as [arg_strings|]; [|done].
  destruct (consume arg_strings 0 default_namespace []) as [[ns [|e extras]]|status] eqn:Hc;
    [|done|done].
  intros [= <-]. by exists arg_strings.
Qed.

Lemma consume_settings_then (settings : list setting)
    (following : list (string * pattern)) namespace extras :
  Forall well_said settings ->
  match last settings with
  | Some x => takes_more x = true -> leading_arguments following = []
  | None => True
  end ->
  consume (flat_map setting_pattern settings ++ following) 0 namespace extras
  = consume following 0
      (fold_left (fun ns x => setting_store x ns) settings namespace) extras.
Proof.
  intros H. revert namespace.
  induction H as [|x settings Hx Hs IH]; intros namespace Hlast; [done|].
  cbn [flat_map fold_left]. rewrite <- app_assoc.
  rewrite (consume_setting x _ _ _ Hx).
  - apply IH. destruct settings as [|y settings]; [done|]. exact Hlast.
  - intros Hmore. destruct settings as [|y settings].
    + cbn [flat_map app]. cbn [last] in Hlast. by apply Hlast.
    + by destruct y.
Qed.

Lemma pattern_of_settings_then (settings : list setting) (rest : list string) :
  Forall well_said settings ->
  arg_strings_pattern (flat_map command_line settings ++ rest)
  = option_map (app (flat_map setting_pattern settings)) (arg_strings_pattern rest).
Proof.
  induction 1 as [|x settings Hx Hs IH]; cbn [flat_map app].
  - by destruct (arg_strings_pattern rest).
  - rewrite <- !app_assoc, (pattern_of_setting x _ Hx), IH.
    destruct (arg_strings_pattern rest); cbn [option_map]; [|done].
    by rewrite app_assoc.
Qed.

(** X16: a string that does not start with a dash is accepted only as the
    value of an option.  Standing first on the command line, or behind
    settings of which the last is complete (any but [--experiments], which
    takes every such string), it makes [parse_args] exit, whatever
    follows; no namespace is returned. *)
Theorem stray_argument_rejected (settings : list setting) (stray : string)
    (rest : list string) :
  Forall well_said settings ->
  match last settings with
  | Some x => takes_more x = false
  | None => True
  end ->
  no_dash stray = true ->
  forall namespace,
    parse_args (flat_map command_line settings ++ stray :: rest) ≠ Parsed namespace.
Proof.
  intros Hs Hlast Hstray namespace Hparsed.
  apply parse_args_Parsed in Hparsed as (arg_strings & Hpat & Hcons).
  rewrite (pattern_of_settings_then settings _ Hs) in Hpat.
  rewrite (pattern_of_argument stray rest) in Hpat
    by (by apply no_dash_not_dashes || by apply parse_optional_no_dash).
  destruct (arg_strings_pattern rest) as [following|]; [|done].
  injection Hpat as <-.
  rewrite consume_settings_then in Hcons; [|done|].
  - cbn [consume] in Hcons. apply consume_extras in Hcons as (more & Hmore).
    by destruct more.
  - destruct (last settings) as [x|]; [|done]. rewrite Hlast. done.
Qed.

(** ** The double dash *)

Lemma match_argument_count (a : action) (following : list (string * pattern))
    (args : list string) :
  match_argument a following = Some args ->
  (length args <= length (leading_arguments following))%nat.
Proof.
  destruct a as [|d type|d|d]; cbn [match_argument].
  - intros [= <-]. cbn. lia.
  - destruct following as [|[s [| |]] following]; try done.
    intros [= <-]. cbn. lia.
  - destruct (leading_arguments following) as [|s l]; [done|]. by intros [= <-].
  - intros [= <-]. cbn. lia.
Qed.

Lemma explicit_action_tuples_count (explicit_arg : string) :
  forall a option_string following action_tuples arg_count,
    explicit_action_tuples a option_string explicit_arg following
    = Some (action_tuples, arg_count) ->
    (arg_count <= length (leading_arguments following))%nat.
Proof.
  induction explicit_arg as [|first new_explicit_arg IH];
    intros a option_string following action_tuples arg_count.
  - cbn [explicit_action_tuples]. destruct (takes_argument a).
    + intros [= _ <-]. lia.
    + by destruct option_string as [|char [|second tail]].
  - cbn [explicit_action_tuples]. destruct (takes_argument a).
    + intros [= _ <-]. lia.
    + destruct option_string as [|char [|second tail]]; try done.
      destruct (Ascii.eqb second "-"); [done|].
      destruct (dict_get _ option_string_actions) as [next|]; [|done].
      destruct new_explicit_arg as [|c e].
      * destruct (match_argument next following) as [args|] eqn:Hm; [|done].
        intros [= _ <-]. by eapply match_argument_count.
      * destruct (explicit_action_tuples next _ (String c e) following)
          as [[tuples count]|] eqn:He; [|done].
        intros [= _ <-]. by eapply IH.
Qed.

Lemma consume_optional_count a option_string explicit_arg following action_tuples
    arg_count :
  consume_optional a option_string explicit_arg following
  = Some (action_tuples, arg_count) ->
  (arg_count <= length (leading_arguments following))%nat.
Proof.
  unfold consume_optional. destruct explicit_arg as [e|].
  - apply explicit_action_tuples_count.
  - destruct (match_argument a following) as [args|] eqn:Hm; [|done].
    intros [= _ <-]. by eapply match_argument_count.
Qed.

(** No option reaches across the double dash, so the loop hands it to
    [extras]. *)
Lemma consume_dashes (arg_strings : list (string * pattern)) :
  forall skip namespace extras,
    (skip <= length (leading_arguments arg_strings))%nat ->
    (exists s, (s, pattern_dashes) ∈ arg_strings) ->
    forall namespace', consume arg_strings skip namespace extras ≠ Parsed (namespace', []).
Proof.
  induction arg_strings as [|[s p] following IH];
    intros skip namespace extras Hskip (d & Hd) ns' H.
  - by apply elem_of_nil in Hd.
  - assert (Hextra : consume following 0 namespace (extras ++ [s]) ≠ Parsed (ns', [])).
    { intros H'. apply consume_extras in H' as (more & Hmore).
      by destruct extras. }
    cbn [consume] in H. destruct p as [a option_string explicit_arg| |].
    + cbn [leading_arguments length] in Hskip.
      assert (skip = 0%nat) as -> by lia.
      apply elem_of_cons in Hd as [Heq|Hd]; [discriminate|].
      destruct a as [a|]; [|done].
      destruct (consume_optional a option_string explicit_arg following)
        as [[action_tuples arg_count]|] eqn:Hc; [|done].
      destruct (take_actions action_tuples namespace) as [namespace1|status]; [|done].
      revert H. apply IH; [by eapply consume_optional_count | by exists d].
    + apply elem_of_cons in Hd as [Heq|Hd]; [discriminate|].
      destruct skip as [|skip]; [done|].
      cbn [leading_arguments length] in Hskip.
      revert H. apply IH; [lia | by exists d].
    + cbn [leading_arguments length] in Hskip.
      assert (skip = 0%nat) as -> by lia. done.
Qed.

Lemma pattern_has_dashes (args : list string) (arg_strings : list (string * pattern)) :
  "--" ∈ args -> arg_strings_pattern args = Some arg_strings ->
  exists s, (s, pattern_dashes) ∈ arg_strings.
Proof.
  revert arg_strings. induction args as [|a args IH]; intros arg_strings Hin.
  - by apply elem_of_nil in Hin.
  - cbn [arg_strings_pattern]. destruct (String.eqb_spec a "--") as [->|Hne].
    + intros [= <-]. exists "--". left.
    + apply elem_of_cons in Hin as [Hin|Hin]; [congruence|].
      destruct (parse_optional a) as [|o option_string explicit_arg|]; [| |done];
        destruct (arg_strings_pattern args) as [following|]; try done;
        intros [= <-]; destruct (IH following Hin eq_refl) as (s & Hs);
        exists s; by right.
Qed.

(** X17: a command line that holds the string [--] is never accepted: the
    parser has no positional argument, so the double dash, which no option
    takes, is left over and [parse_args] exits. *)
Theorem double_dash_rejected (args : list string) :
  "--" ∈ args -> forall namespace, parse_args args ≠ Parsed namespace.
Proof.
  intros Hin namespace Hparsed.
  apply parse_args_Parsed in Hparsed as (arg_strings & Hpat & Hcons).
  revert Hcons. apply consume_dashes; [lia|].
  by eapply pattern_has_dashes.
Qed.

(** ** Values that are no numbers *)

(** X18: the options declared with [type=int] take nothing but what [int]
    accepts: given a string that [int] refuses, [--num_users],
    [--test_days] and [--seed] make [parse_args] exit with status 2,
    whatever follows on the command line. *)
Theorem int_option_rejects_other_text (option_string value : string)
    (rest : list string) :
  option_string ∈ ["--num_users"; "--test_days"; "--seed"] ->
  no_dash value = true ->
  py_int value = None ->
  parse_args (option_string :: value :: rest) = SystemExit 2.
Proof.
  intros Ho Hv Hint.
  assert (Hpat : exists d,
            arg_strings_pattern (option_string :: value :: rest)
            = option_map
                (app [(option_string,
                       pattern_O (Some (StoreAction d type_int)) option_string None);
                      (value, pattern_A)])
                (arg_strings_pattern rest)).
  { rewrite !elem_of_cons, elem_of_nil in Ho.
    destruct Ho as [->|[->|[->|[]]]]; eexists;
      cbn [arg_strings_pattern];
      rewrite (no_dash_not_dashes _ Hv), (parse_optional_no_dash _ Hv);
      by destruct (arg_strings_pattern rest). }
  destruct Hpat as (d & Hpat). unfold parse_args, parse_known_args. rewrite Hpat.
  destruct (arg_strings_pattern rest) as [following|]; [|done].
  cbn [option_map app consume consume_optional match_argument take_actions take_action
       remove_dashes get_value].
  by rewrite (no_dash_not_dashes _ Hv), Hint.
Qed.

(** ** Asking for help *)

(** X20: among settings, [-h] or [--help] makes [parse_args] print the
    help and exit with status 0: no namespace is returned, whatever was
    set before it and whatever is set after it. *)
Theorem help_exits (before after : list setting) (option_string : string) :
  Forall well_said before -> Forall well_said after ->
  option_string ∈ ["-h"; "--help"] ->
  parse_args (flat_map command_line before ++ option_string :: flat_map command_line after)
  = SystemExit 0.
Proof.
  intros Hb Ha Ho. unfold parse_args, parse_known_args.
  rewrite (pattern_of_settings_then before _ Hb).
  assert (Hpat : arg_strings_pattern (option_string :: flat_map command_line after)
                 = Some ((option_string, pattern_O (Some HelpAction) option_string None)
                         :: flat_map setting_pattern after)).
  { rewrite !elem_of_cons, elem_of_nil in Ho.
    destruct Ho as [->|[->|[]]]; cbn [arg_strings_pattern];
      by rewrite (pattern_of_settings after Ha). }
  rewrite Hpat. cbn [option_map].
  rewrite consume_settings_then; [done | done |].
  by destruct (last before).
Qed.

Lemma stray_argument_rejected_witness :
  Forall well_said [SetSeed 7]
  /\ takes_more (SetSeed 7) = false
  /\ no_dash "results" = true
  /\ forall namespace,
       parse_args (["--seed"; "7"] ++ "results" :: ["--temporal_split"])
       ≠ Parsed namespace.
Proof.
  assert (H : Forall well_said [SetSeed 7]).
  { apply List.Forall_cons; [|apply List.Forall_nil].
    apply Nat.leb_le. reflexivity. }
  split_and!; [exact H | reflexivity | reflexivity |].
  exact (stray_argument_rejected [SetSeed 7] "results" ["--temporal_split"] H
           eq_refl eq_refl).
Defined.

Lemma double_dash_rejected_witness :
  "--" ∈ ["--seed"; "7"; "--"; "results"]
  /\ forall namespace, parse_args ["--seed"; "7"; "--"; "results"] ≠ Parsed namespace.
Proof.
  assert (H : "--" ∈ ["--seed"; "7"; "--"; "results"]) by (do 2 right; left).
  split; [exact H|].
  exact (double_dash_rejected ["--seed"; "7"; "--"; "results"] H).
Defined.

Lemma int_option_rejects_other_text_witness :
  "--num_users" ∈ ["--num_users"; "--test_days"; "--seed"]
  /\ no_dash "fifty" = true
  /\ py_int "fifty" = None
  /\ parse_args ["--num_users"; "fifty"; "--temporal_split"] = SystemExit 2.
Proof.
  assert (H : "--num_users" ∈ ["--num_users"; "--test_days"; "--seed"]) by left.
  split_and!; [exact H | reflexivity | reflexivity |].
  exact (int_option_rejects_other_text "--num_users" "fifty" ["--temporal_split"]
           H eq_refl eq_refl).
Defined.

Lemma help_exits_witness :
  Forall well_said [SetSeed 7] /\ Forall well_said [SetTemporalSplit]
  /\ "-h" ∈ ["-h"; "--help"]
  /\ parse_args (["--seed"; "7"] ++ "-h" :: ["--temporal_split"]) = SystemExit 0.
Proof.
  assert (H1 : Forall well_said [SetSeed 7]).
  { apply List.Forall_cons; [|apply List.Forall_nil].
    apply Nat.leb_le. reflexivity. }
  assert (H2 : Forall well_said [SetTemporalSplit])
    by (apply List.Forall_cons; [exact I | apply List.Forall_nil]).
  assert (H3 : "-h" ∈ ["-h"; "--help"]) by left.
  split_and!; [exact H1 | exact H2 | exact H3 |].
  exact (help_exits [SetSeed 7] [SetTemporalSplit] "-h" H1 H2 H3).
Defined.

(** ** The types of the namespace *)

Lemma ends_with_dashes_not_dashes (s : string) :
  ends_with_dashes s = false -> String.eqb s "--" = false.
Proof.
  destruct s as [|c s]; [done|]. cbn [ends_with_dashes].
  by intros [H _]%orb_false_elim.
Qed.

Lemma ends_with_dashes_tail (c : ascii) (s : string) :
  ends_with_dashes (String c s) = false -> ends_with_dashes s = false.
Proof. cbn [ends_with_dashes]. by intros [_ H]%orb_false_elim. Qed.

Lemma split_at_tail (ch : ascii) (s : string) :
  ends_with_dashes s = false -> ends_with_dashes (snd (split_at ch s)) = false.
Proof.
  induction s as [|c s IH]; [done|]. intros H.
  pose proof (ends_with_dashes_tail _ _ H) as Hs.
  cbn [split_at]. destruct (Ascii.eqb ch c); [done|].
  specialize (IH Hs). by destruct (split_at ch s).
Qed.

Lemma table_typed :
  Forall (fun oa => action_typed (snd oa) = true) option_string_actions.
Proof. by repeat constructor. Qed.

Lemma lookup_typed (option_string : string) (a : action) :
  dict_get option_string option_string_actions = Some a -> action_typed a = true.
Proof.
  intros H%dict_get_elem. pose proof table_typed as Ht.
  rewrite Forall_forall in Ht. apply (Ht _ H).
Qed.

Lemma option_tuples_tame (s : string) :
  ends_with_dashes s = false ->
  Forall (fun t => action_typed (fst (fst t)) = true
                   /\ forall e, snd t = Some e -> ends_with_dashes e = false)
         (get_option_tuples s).
Proof.
  intros Hs. unfold get_option_tuples.
  destruct s as [|c0 [|c1 rest]]; try by constructor.
  pose proof table_typed as Ht.
  destruct (Ascii.eqb c0 "-" && Ascii.eqb c1 "-").
  - assert (He : forall e,
              snd (if contains_char "=" (String c0 (String c1 rest))
                   then let '(p, e) := split_at "=" (String c0 (String c1 rest)) in
                        (p, Some e)
                   else (String c0 (String c1 rest), None)) = Some e ->
              ends_with_dashes e = false).
    { intros e. destruct (contains_char "=" _); [|done].
      pose proof (split_at_tail "=" _ Hs) as Hsplit.
      destruct (split_at "=" _) as [p e']. by intros [= <-]. }
    destruct (if contains_char "=" _ then _ else _) as [option_prefix explicit_arg].
    apply List.Forall_flat_map. eapply Forall_impl; [exact Ht|].
    intros [o a] Ha. cbn [fst snd] in *.
    destruct (String.prefix option_prefix o); repeat constructor; done.
  - destruct (Ascii.eqb c0 "-" && negb (Ascii.eqb c1 "-")); [|by constructor].
    apply List.Forall_flat_map. eapply Forall_impl; [exact Ht|].
    intros [o a] Ha. cbn [fst snd] in *.
    destruct (String.eqb o _).
    + repeat constructor; [done|]. cbn [snd]. intros e [= <-].
      by do 2 apply ends_with_dashes_tail in Hs.
    + destruct (String.prefix _ o); repeat constructor; done.
Qed.

Lemma parse_optional_tame (s : string) :
  ends_with_dashes s = false ->
  match parse_optional s with
  | Optional a _ explicit_arg =>
      (forall a', a = Some a' -> action_typed a' = true)
      /\ (forall e, explicit_arg = Some e -> ends_with_dashes e = false)
  | _ => True
  end.
Proof.
  intros Hs. unfold parse_optional.
  destruct s as [|c tail]; [done|].
  destruct (negb (Ascii.eqb c "-")); [done|].
  destruct (dict_get (String c tail) option_string_actions) as [a|] eqn:Hd.
  { split; [|done]. intros a' [= <-]. by eapply lookup_typed. }
  destruct (String.eqb tail ""); [done|].
  destruct (contains_char "=" (String c tail)).
  - pose proof (split_at_tail "=" _ Hs) as Hsplit.
    destruct (split_at "=" (String c tail)) as [option_string explicit_arg].
    cbn [snd] in Hsplit.
    destruct (dict_get option_string option_string_actions) as [a|] eqn:Hd'.
    { split; [intros a' [= <-]; by eapply lookup_typed | by intros e [= <-]]. }
    pose proof (option_tuples_tame _ Hs) as Ht.
    destruct (get_option_tuples (String c tail)) as [|[[a o] e] [|t l]]; [|  |done].
    + destruct (negative_number _); [done|]. by destruct (contains_char " " _).
    + apply Forall_cons in Ht as [[Ha He] _]. cbn [fst snd] in *.
      split; [by intros a' [= <-] | done].
  - pose proof (option_tuples_tame _ Hs) as Ht.
    destruct (get_option_tuples (String c tail)) as [|[[a o] e] [|t l]]; [|  |done].
    + destruct (negative_number _); [done|]. by destruct (contains_char " " _).
    + apply Forall_cons in Ht as [[Ha He] _]. cbn [fst snd] in *.
      split; [by intros a' [= <-] | done].
Qed.

Lemma pattern_tame (args : list string) :
  Forall (fun a => ends_with_dashes a = false) args ->
  forall arg_strings,
    arg_strings_pattern args = Some arg_strings -> Forall tame arg_strings.
Proof.
  induction 1 as [|a args Ha Hargs IH]; intros arg_strings.
  - intros [= <-]. constructor.
  - cbn [arg_strings_pattern]. rewrite (ends_with_dashes_not_dashes a Ha).
    pose proof (parse_optional_tame a Ha) as Hp.
    destruct (parse_optional a) as [|o option_string explicit_arg|]; [| |done];
      destruct (arg_strings_pattern args) as [following|]; try done;
      intros [= <-]; (apply Forall_cons; split; [|by apply IH]); by split.
Qed.

Lemma leading_arguments_tame (following : list (string * pattern)) :
  Forall tame following ->
  Forall (fun s => String.eqb s "--" = false) (leading_arguments following).
Proof.
  induction 1 as [|[s p] following [Hs _] Hf IH]; [constructor|].
  destruct p; cbn [leading_arguments]; try constructor; [|done].
  by apply ends_with_dashes_not_dashes.
Qed.

Lemma match_argument_fair (a : action) (following : list (string * pattern))
    (args : list string) :
  action_typed a = true -> Forall tame following ->
  match_argument a following = Some args -> fair_call (a, args).
Proof.
  intros Ha Hf Hm. pose proof (leading_arguments_tame following Hf) as Hl.
  unfold fair_call. cbn [fst snd]. split; [done|].
  destruct a as [|d type|d|d]; cbn [match_argument takes_argument] in *.
  - injection Hm as <-. by split.
  - destruct following as [|[s [| |]] following]; try done.
    injection Hm as <-. cbn [leading_arguments] in Hl.
    apply Forall_cons in Hl as [Hs _]. split; [by repeat constructor | done].
  - destruct (leading_arguments following) as [|s l]; [done|].
    injection Hm as <-. by split.
  - injection Hm as <-. by split.
Qed.

Lemma explicit_action_tuples_fair (explicit_arg : string) :
  forall a option_string following action_tuples arg_count,
    action_typed a = true -> ends_with_dashes explicit_arg = false ->
    Forall tame following ->
    explicit_action_tuples a option_string explicit_arg following
    = Some (action_tuples, arg_count) ->
    Forall fair_call action_tuples.
Proof.
  induction explicit_arg as [|first new_explicit_arg IH];
    intros a option_string following action_tuples arg_count Ha He Hf.
  - cbn [explicit_action_tuples]. destruct (takes_argument a) eqn:Hta.
    + intros [= <- _]. repeat constructor; done.
    + by destruct option_string as [|char [|second tail]].
  - cbn [explicit_action_tuples]. destruct (takes_argument a) eqn:Hta.
    + intros [= <- _]. repeat constructor; try done. cbn [snd].
      by apply ends_with_dashes_not_dashes.
    + assert (Hself : fair_call (a, [])).
      { split; [done|]. split; [constructor|]. cbn [fst]. by rewrite Hta. }
      destruct option_string as [|char [|second tail]]; try done.
      destruct (Ascii.eqb second "-"); [done|].
      destruct (dict_get _ option_string_actions) as [next|] eqn:Hd; [|done].
      apply lookup_typed in Hd.
      destruct new_explicit_arg as [|c e].
      * destruct (match_argument next following) as [args|] eqn:Hm; [|done].
        intros [= <- _].
        apply Forall_cons; split; [exact Hself|].
        apply Forall_cons; split; [by eapply match_argument_fair | constructor].
      * destruct (explicit_action_tuples next _ (String c e) following)
          as [[tuples count]|] eqn:Hx; [|done].
        intros [= <- _]. apply Forall_cons; split; [exact Hself|].
        eapply IH; [exact Hd | by eapply ends_with_dashes_tail | exact Hf | exact Hx].
Qed.

Lemma remove_dashes_none (l : list string) :
  Forall (fun s => String.eqb s "--" = false) l -> remove_dashes l = l.
Proof.
  induction 1 as [|s l Hs Hl IH]; [done|].
  cbn [remove_dashes]. by rewrite Hs, IH.
Qed.

Lemma setting_store_typed (x : setting) (namespace : Namespace) :
  match x with SetExperiments l => l ≠ [] | _ => True end ->
  well_typed namespace -> well_typed (setting_store x namespace).
Proof.
  intros Hx (args & Hargs & Hne).
  exists (apply_setting args x). split; [by apply args_of_setting_store|].
  by destruct x.
Qed.

Lemma take_action_typed (a : action) (args : list string) (namespace namespace' : Namespace) :
  fair_call (a, args) -> well_typed namespace ->
  take_action a args namespace = Parsed namespace' -> well_typed namespace'.
Proof.
  intros (Ha & Hargs & Hsome) Hns. cbn [fst snd] in *.
  destruct a as [|d type|d|d]; cbn [take_action].
  - done.
  - rewrite (remove_dashes_none _ Hargs).
    destruct args as [|s args]; [by specialize (Hsome eq_refl)|].
    destruct d, type; try discriminate Ha; cbn [get_value option_map].
    + intros [= <-]. by apply (setting_store_typed (SetDataPath s)).
    + intros [= <-]. by apply (setting_store_typed (SetOutputDir s)).
    + destruct (py_int s) as [z|]; [|done].
      intros [= <-]. by apply (setting_store_typed (SetNumUsers z)).
    + destruct (py_int s) as [z|]; [|done].
      intros [= <-]. by apply (setting_store_typed (SetTestDays z)).
    + destruct (py_int s) as [z|]; [|done].
      intros [= <-]. by apply (setting_store_typed (SetSeed z)).
  - rewrite (remove_dashes_none _ Hargs).
    destruct d; try discriminate Ha.
    intros [= <-]. apply (setting_store_typed (SetExperiments args)); [|done].
    by apply Hsome.
  - destruct d; try discriminate Ha.
    intros [= <-]. by apply (setting_store_typed SetTemporalSplit).
Qed.

Lemma take_actions_typed (action_tuples : list (action * list string)) :
  Forall fair_call action_tuples ->
  forall namespace namespace',
    well_typed namespace ->
    take_actions action_tuples namespace = Parsed namespace' -> well_typed namespace'.
Proof.
  induction 1 as [|[a args] tuples Hcall Htuples IH]; intros namespace namespace' Hns.
  - by intros [= <-].
  - cbn [take_actions].
    destruct (take_action a args namespace) as [namespace1|status] eqn:Ht; [|done].
    apply IH. by eapply take_action_typed.
Qed.

Lemma consume_typed (arg_strings : list (string * pattern)) :
  Forall tame arg_strings ->
  forall skip namespace extras namespace' extras',
    well_typed namespace ->
    consume arg_strings skip namespace extras = Parsed (namespace', extras') ->
    well_typed namespace'.
Proof.
  induction 1 as [|[s p] following [Hs Hp] Hf IH];
    intros skip namespace extras namespace' extras' Hns.
  - by intros [= <- _].
  - cbn [consume]. destruct skip as [|skip]; [|by apply IH].
    destruct p as [[a|] option_string explicit_arg| |]; try by apply IH.
    cbn [snd] in Hp. destruct Hp as [Ha He].
    destruct (consume_optional a option_string explicit_arg following)
      as [[action_tuples arg_count]|] eqn:Hc; [|done].
    assert (Hfair : Forall fair_call action_tuples).
    { unfold consume_optional in Hc. destruct explicit_arg as [e|].
      - eapply explicit_action_tuples_fair; [by apply Ha | by apply He | exact Hf | exact Hc].
      - destruct (match_argument a following) as [args|] eqn:Hm; [|done].
        injection Hc as <- _. apply Forall_cons; split; [|constructor].
        eapply match_argument_fair; [by apply Ha | exact Hf | exact Hm]. }
    destruct (take_actions action_tuples namespace) as [namespace1|status] eqn:Ht; [|done].
    apply IH. by eapply take_actions_typed.
Qed.

(** X19: when no string of the command line ends in two dashes, a
    namespace that [parse_args] returns holds for every option a value of
    the type the option declares, and a list of experiments that is not
    empty.  (An option written as [--name=--] stores the empty list, for
    [--experiments] as for the others.) *)
Theorem parsed_namespace_well_typed (args : list string) (namespace : Namespace) :
  Forall (fun a => ends_with_dashes a = false) args ->
  parse_args args = Parsed namespace ->
  exists typed,
    args_of_namespace namespace = Some typed /\ args_experiments typed ≠ [].
Proof.
  intros Hargs Hparsed.
  apply parse_args_Parsed in Hparsed as (arg_strings & Hpat & Hcons).
  eapply (consume_typed arg_strings); [by eapply pattern_tame | | exact Hcons].
  by exists default_args.
Qed.

Lemma parsed_namespace_well_typed_witness :
  Forall (fun a => ends_with_dashes a = false) ["--seed=7"; "--exp"; "privacy_impact"]
  /\ parse_args ["--seed=7"; "--exp"; "privacy_impact"]
     = Parsed (setattr (setattr default_namespace dest_seed (ArgInt 7))
                 dest_experiments (ArgList ["privacy_impact"]))
  /\ exists typed,
       args_of_namespace (setattr (setattr default_namespace dest_seed (ArgInt 7))
                            dest_experiments (ArgList ["privacy_impact"]))
       = Some typed
       /\ args_experiments typed ≠ [].
Proof.
  assert (H1 : Forall (fun a => ends_with_dashes a = false)
                 ["--seed=7"; "--exp"; "privacy_impact"])
    by (repeat (apply List.Forall_cons; [reflexivity|]); apply List.Forall_nil).
  assert (H2 : parse_args ["--seed=7"; "--exp"; "privacy_impact"]
               = Parsed (setattr (setattr default_namespace dest_seed (ArgInt 7))
                           dest_experiments (ArgList ["privacy_impact"])))
    by (vm_compute; reflexivity).
  split_and!; [exact H1 | exact H2 |].
  exact (parsed_namespace_well_typed _ _ H1 H2).
Defined.

(** ** Abbreviations and explicit arguments *)

Lemma pattern_ambiguous (before : list string) (abbreviation : string)
    (rest : list string) :
  "--" ∉ before -> parse_optional abbreviation = AmbiguousOption ->
  String.eqb abbreviation "--" = false ->
  arg_strings_pattern (before ++ abbreviation :: rest) = None.
Proof.
  intros Hb Ha Hne. induction before as [|a before IH]; cbn [app arg_strings_pattern].
  - by rewrite Hne, Ha.
  - apply not_elem_of_cons in Hb as [Hab Hb].
    destruct (String.eqb_spec a "--") as [->|_]; [done|].
    rewrite (IH Hb). by destruct (parse_optional a).
Qed.

(** X21: [--t] and [--te], alone or with a value after an equals sign,
    abbreviate both [--temporal_split] and [--test_days].  Such a string
    anywhere before a double dash makes [parse_args] exit with status 2
    before any option is acted on, so also when [--help] stands before
    it. *)
Theorem ambiguous_abbreviation_exits (before : list string)
    (stem abbreviation : string) (rest : list string) :
  "--" ∉ before ->
  stem ∈ ["--t"; "--te"] ->
  abbreviation = stem \/ (exists value, abbreviation = stem +:+ "=" +:+ value) ->
  parse_args (before ++ abbreviation :: rest) = SystemExit 2.
Proof.
  intros Hb Hstem Habbr. unfold parse_args, parse_known_args.
  rewrite pattern_ambiguous; [done | done | |].
  - rewrite !elem_of_cons, elem_of_nil in Hstem.
    destruct Hstem as [->|[->|[]]]; destruct Habbr as [->|(value & ->)]; reflexivity.
  - rewrite !elem_of_cons, elem_of_nil in Hstem.
    destruct Hstem as [->|[->|[]]]; destruct Habbr as [->|(value & ->)]; reflexivity.
Qed.

Lemma explicit_pattern (option_string value : string) (d : dest) (type : arg_type) :
  dict_get option_string option_string_actions = Some (StoreAction d type) ->
  parse_optional (option_string +:+ "=" +:+ value)
  = Optional (Some (StoreAction d type)) option_string (Some value)
  /\ String.eqb (option_string +:+ "=" +:+ value) "--" = false.
Proof.
  intros Hd.
  assert (Ho : option_string ∈ ["--data_path"; "--output_dir"; "--num_users";
                                "--test_days"; "--seed"]).
  { apply dict_get_elem in Hd. unfold option_string_actions in Hd.
    rewrite !elem_of_cons, elem_of_nil in Hd.
    rewrite !elem_of_cons, elem_of_nil.
    destruct Hd as [Hd|[Hd|[Hd|[Hd|[Hd|[Hd|[Hd|[Hd|[Hd|[]]]]]]]]]];
      injection Hd as -> Ha; try discriminate Ha; tauto. }
  rewrite !elem_of_cons, elem_of_nil in Ho.
  destruct Ho as [->|[->|[->|[->|[->|[]]]]]]; injection Hd as <- <-; by split.
Qed.

Lemma explicit_action_tuples_taken a option_string explicit_arg following :
  takes_argument a = true ->
  explicit_action_tuples a option_string explicit_arg following
  = Some ([(a, [explicit_arg])], 0%nat).
Proof. intros H. destruct explicit_arg; cbn [explicit_action_tuples]; by rewrite H. Qed.

(** X22: what follows the equals sign in [--data_path=...] or
    [--output_dir=...] is stored as it stands, also when it starts with a
    dash, is empty, or holds blanks or further equals signs; only the
    double dash is not.  Among settings, the string has the effect of the
    setting. *)
Theorem explicit_value_stored_verbatim (before after : list setting)
    (option_string value : string) (x : setting) :
  Forall well_said before -> Forall well_said after ->
  value ≠ "--" ->
  (option_string, x) ∈ [("--data_path", SetDataPath value);
                        ("--output_dir", SetOutputDir value)] ->
  exists namespace,
    parse_args (flat_map command_line before
                ++ (option_string +:+ "=" +:+ value) :: flat_map command_line after)
    = Parsed namespace
    /\ args_of_namespace namespace
       = Some (fold_left apply_setting (before ++ x :: after) default_args).
Proof.
  intros Hb Ha Hv Hx.
  assert (Hd : exists d,
            dict_get option_string option_string_actions = Some (StoreAction d type_str)
            /\ forall ns, setattr ns d (ArgStr value) = setting_store x ns).
  { rewrite !elem_of_cons, elem_of_nil in Hx.
    destruct Hx as [[= -> ->]|[[= -> ->]|[]]]; by eexists. }
  destruct Hd as (d & Hd & Hstore).
  destruct (explicit_pattern option_string value d type_str Hd) as [Hp Hne].
  exists (fold_left (fun ns x => setting_store x ns) (before ++ x :: after)
            default_namespace).
  split; [|by apply args_of_settings].
  unfold parse_args, parse_known_args.
  rewrite (pattern_of_settings_then before _ Hb).
  cbn [arg_strings_pattern]. rewrite Hne, Hp, (pattern_of_settings after Ha).
  cbn [option_map].
  rewrite consume_settings_then; [|done|by destruct (last before)].
  cbn [consume consume_optional].
  rewrite explicit_action_tuples_taken by done.
  cbn [take_actions take_action remove_dashes].
  destruct (String.eqb_spec value "--") as [|_]; [done|].
  cbn [get_value]. rewrite Hstore, (consume_settings after _ _ Ha).
  by rewrite fold_left_app.
Qed.

Lemma ambiguous_abbreviation_exits_witness :
  ("--" ∉ ["--help"])
  /\ "--te" ∈ ["--t"; "--te"]
  /\ ("--te=5" = "--te" \/ (exists value, "--te=5" = "--te" +:+ "=" +:+ value))
  /\ parse_args (["--help"] ++ "--te=5" :: ["--seed"; "7"]) = SystemExit 2.
Proof.
  assert (H1 : "--" ∉ ["--help"]).
  { intros H. apply list_elem_of_singleton in H. discriminate H. }
  assert (H2 : "--te" ∈ ["--t"; "--te"]) by (right; left).
  assert (H3 : "--te=5" = "--te" \/ (exists value, "--te=5" = "--te" +:+ "=" +:+ value))
    by (right; by exists "5").
  split_and!; [exact H1 | exact H2 | exact H3 |].
  exact (ambiguous_abbreviation_exits ["--help"] "--te" "--te=5" ["--seed"; "7"]
           H1 H2 H3).
Defined.

Lemma explicit_value_stored_verbatim_witness :
  Forall well_said [SetSeed 7] /\ Forall well_said [SetTemporalSplit]
  /\ "-results" ≠ "--"
  /\ ("--output_dir", SetOutputDir "-results")
     ∈ [("--data_path", SetDataPath "-results");
        ("--output_dir", SetOutputDir "-results")]
  /\ exists namespace,
       parse_args (["--seed"; "7"] ++ "--output_dir=-results" :: ["--temporal_split"])
       = Parsed namespace
       /\ args_of_namespace namespace
          = Some {| args_data_path := "./ml-100k"; args_output_dir := "-results";
                    args_experiments := args_experiments default_args;
                    args_num_users := 50; args_temporal_split := true;
                    args_test_days := 30; args_seed := 7 |}.
Proof.
  assert (H1 : Forall well_said [SetSeed 7]).
  { apply List.Forall_cons; [|apply List.Forall_nil].
    apply Nat.leb_le. reflexivity. }
  assert (H2 : Forall well_said [SetTemporalSplit])
    by (apply List.Forall_cons; [exact I | apply List.Forall_nil]).
  assert (H3 : "-results" ≠ "--") by discriminate.
  assert (H4 : ("--output_dir", SetOutputDir "-results")
               ∈ [("--data_path", SetDataPath "-results");
                  ("--output_dir", SetOutputDir "-results")])
    by (right; left).
  split_and!; [exact H1 | exact H2 | exact H3 | exact H4 |].
  exact (explicit_value_stored_verbatim [SetSeed 7] [SetTemporalSplit] "--output_dir"
           "-results" (SetOutputDir "-results") H1 H2 H3 H4).
Defined.
